(** * Running notes of genomics-status: creation, notification, listing

    A shallow embedding of [status/running_notes.py]
    ([NEWRunningNotesDataHandler]) and the properties of its create /
    notify / list operations.

    Python strings are modelled as byte strings ([string]); the document
    stores, the Slack client, the mail relay and the Unicode / time
    formatting routines of the Python libraries are collaborators whose
    answers are read from an [Application] record.  Effects are threaded
    through an explicit world state and Python exceptions are an error
    result. *)

From Stdlib Require Import String Ascii List Bool ZArith Lia Permutation.
From Stdlib Require Import DecimalString.
From Stdlib Require OrderedTypeEx.
From Stdlib Require Import Sorted.
Import ListNotations.
Open Scope list_scope.
Open Scope string_scope.

(** ** Python string methods *)

Module PyStr.

(** [sep.join(parts)] *)
Fixpoint join (sep : string) (parts : list string) : string :=
  match parts with
  | [] => ""
  | [p] => p
  | p :: rest => p ++ sep ++ join sep rest
  end.

(** [s.split(c)] for a one-character separator: scanning with the field
    read so far in [cur]. *)
Fixpoint split_aux (c : ascii) (cur : string) (s : string) : list string :=
  match s with
  | EmptyString => [cur]
  | String a rest =>
      if Ascii.eqb a c then cur :: split_aux c "" rest
      else split_aux c (cur ++ String a "") rest
  end.

Definition split (c : ascii) (s : string) : list string := split_aux c "" s.

(** [s.split(c)[0]]: never an IndexError, [split] returns at least one
    field. *)
Definition split_head (c : ascii) (s : string) : string :=
  match split c s with
  | [] => ""
  | f :: _ => f
  end.

(** [s.rsplit(c, 1)[0]]: what stands before the last [c], the whole of
    [s] when [c] does not occur. *)
Definition rsplit1_head (c : ascii) (s : string) : string :=
  match rev (split c s) with
  | [] => s
  | [_] => s
  | _ :: before => join (String c "") (rev before)
  end.

(** [s.replace(c, by)] for a one-character pattern. *)
Fixpoint replace_char (c : ascii) (by_ : string) (s : string) : string :=
  match s with
  | EmptyString => ""
  | String a rest =>
      (if Ascii.eqb a c then by_ else String a "") ++ replace_char c by_ rest
  end.

(** [x in xs] for a list of strings. *)
Definition mem (x : string) (xs : list string) : bool :=
  existsb (String.eqb x) xs.

(** [str(n)] for an integer. *)
Definition of_Z (n : Z) : string := NilZero.string_of_int (Z.to_int n).

Definition nl : string := String (ascii_of_nat 10) "".

End PyStr.

(** ** The pattern [(@)([a-zA-Z0-9.-]+)] *)

Module Tags.

Definition is_handle_char (a : ascii) : bool :=
  let n := nat_of_ascii a in
  ((Nat.leb 97 n && Nat.leb n 122) || (Nat.leb 65 n && Nat.leb n 90)
   || (Nat.leb 48 n && Nat.leb n 57) || Nat.eqb n 46 || Nat.eqb n 45)%bool.

Definition at_sign : ascii := "@"%char.

Definition emit (cur : string) (k : list string) : list string :=
  match cur with EmptyString => k | _ => cur :: k end.

(** [[x[1] for x in pattern.findall(note)]]: the leftmost, longest,
    non-overlapping matches.  [cur] is [Some h] after an [@] whose
    handle read so far is [h]. *)
Fixpoint scan (cur : option string) (s : string) : list string :=
  match s with
  | EmptyString => match cur with Some h => emit h [] | None => [] end
  | String a rest =>
      match cur with
      | None => if Ascii.eqb a at_sign then scan (Some "") rest else scan None rest
      | Some h =>
          if is_handle_char a then scan (Some (h ++ String a "")) rest
          else emit h (if Ascii.eqb a at_sign then scan (Some "") rest
                       else scan None rest)
      end
  end.

Definition findall (note : string) : list string := scan None note.

End Tags.

(** ** Data *)

(** A [datetime] is an instant, in microseconds since the Unix epoch. *)
Definition datetime := Z.

Module Doc.

(** The document [make_running_note] builds and saves. *)
Record RunningNote := {
  _id : string;
  user : string;
  email : string;
  note : string;
  categories : list string;
  projects : list string;
  parent : string;
  note_type : string;
  created_at_utc : string;
  updated_at_utc : string
}.

(** What [get] returns of a note. *)
Record NoteContents := {
  c_user : string;
  c_email : string;
  c_note : string;
  c_categories : list string;
  c_created_at_utc : string;
  c_updated_at_utc : string
}.

(** A document of the projects database: [doc["project_name"]] and
    [doc["details"].get("project_coordinator", "")]; [None] is an absent
    key. *)
Record Details := { project_coordinator : option string }.

Record Project := {
  project_name : option string;
  details : option Details
}.

End Doc.

Record SlackMessage := {
  sl_channel : string;
  sl_text : string;
  sl_blocks : list string
}.

Record Mail := {
  m_from : string;
  m_to : string;
  m_subject : string;
  m_plain : string;
  m_html : string
}.

(** The arguments of [RunningNotesDataHandler.make_project_running_note]. *)
Record ProjectRunningNote := {
  p_project : string;
  p_note : string;
  p_category : string;
  p_user : string;
  p_email : string
}.

(** Python exceptions that the handler can meet. *)
Inductive exn :=
| UnboundLocalError (name : string)
| IndexError
| KeyError (key : string)
| TypeError
| StoreError
| SlackApiError
| SMTPException.

(** What a call of the legacy handler of project notes did, as far as
    this module can see it: it wrote a note, it notified the users
    tagged in one. *)
Inductive LegacyEffect :=
| WriteNote (p : ProjectRunningNote)
| NotifyTags (project : string) (userTags : list string).

(** What a run leaves in the trace, in the order it happens: the effects
    on the outside world, [Dispatch] for each call of
    [notify_tagged_user] with its reason and its users, and
    [LegacyDispatch] for a notification made by the legacy handler. *)
Inductive Event :=
| Saved (n : Doc.RunningNote)
| ProjectNoteWritten (p : ProjectRunningNote)
| LegacyDispatch (project : string) (userTags : list string)
| Dispatch (tagtype : string) (userTags : list string)
| SlackLookup (address : string)
| SlackOpen (userid : string)
| SlackPost (m : SlackMessage)
| SlackClose (channel : string)
| MailSubmit (m : Mail).

Definition is_notification (e : Event) : bool :=
  match e with
  | Saved _ | ProjectNoteWritten _ => false
  | _ => true
  end.

(** The mutable world: the running-notes store, the project notes kept
    by the legacy handler, and the trace of effects. *)
Record World := {
  running_notes_db : list Doc.RunningNote;
  project_notes : list ProjectRunningNote;
  trace : list Event
}.

(** What a call gives: a value, or an exception. *)
Inductive outcome (A : Type) :=
| Ok (a : A)
| Raise (e : exn).
Arguments Ok {A} a.
Arguments Raise {A} e.

(** The application object and the libraries, read only.  A Slack call
    that answers [None] or [false] raises, and so does a store or a mail
    relay that answers [false]. *)
Record Application := {
  (* application.projects_db.view("project/project_id")[key]: row values *)
  projects_view : string -> list string;
  (* application.projects_db.get(doc_id) *)
  projects_get : string -> option Doc.Project;
  (* x_flowcells_db.view("names/project_ids_list", key=k).rows: row values *)
  x_flowcells_view : string -> list (list string);
  (* nanopore_runs_db.view("names/project_ids_list", key=k).rows *)
  nanopore_runs_view : string -> list (list string);
  (* running_notes_db.save(doc), given the documents already there *)
  running_notes_save : list Doc.RunningNote -> Doc.RunningNote -> bool;
  (* the keys of gs_users_db.view("authorized/users") *)
  gs_users : list string;
  (* SafeHandler.get_user_details(app, address).get("notification_preferences") *)
  notification_preferences : string -> option string;
  (* application.settings["redirect_uri"] *)
  redirect_uri : string;
  users_lookupByEmail : string -> option string;
  conversations_open : string -> option string;
  chat_postMessage : SlackMessage -> bool;
  conversations_close : string -> bool;
  smtp_sendmail : Mail -> bool;
  (* datetime and text libraries *)
  timestamp : datetime -> string;        (* str(datetime.timestamp(t)) *)
  isoformat : datetime -> string;
  strftime_local : datetime -> string;   (* astimezone().strftime(...) *)
  lower : string -> string;
  split_whitespace : string -> list string;   (* str.split() *)
  nfkd_ascii : string -> string;         (* normalize NFKD, encode ASCII ignoring *)
  markdown : string -> string;
  (* RunningNotesDataHandler.make_project_running_note (status/projects.py),
     given the note and the project notes already there *)
  legacy_make_project_running_note :
    ProjectRunningNote -> list ProjectRunningNote -> outcome unit * list LegacyEffect
}.

(** What is fixed when the module is loaded: the default value of the
    parameter [created_time] of [make_running_note], evaluated once by
    the [def] statement. *)
Record Loaded := { created_time_default : datetime }.

Definition load (now : datetime) : Loaded := {| created_time_default := now |}.

(** ** State and exceptions *)

Definition M (A : Type) : Type := World -> outcome A * World.

Definition ret {A} (a : A) : M A := fun w => (Ok a, w).

Definition raise {A} (e : exn) : M A := fun w => (Raise e, w).

Definition bind {A B} (m : M A) (k : A -> M B) : M B :=
  fun w => match m w with
           | (Ok a, w') => k a w'
           | (Raise e, w') => (Raise e, w')
           end.

Declare Scope py_scope.
Delimit Scope py_scope with py.
Notation "x <- m ;; k" := (bind m (fun x => k))
  (at level 61, m at next level, right associativity) : py_scope.
Notation "m ;; k" := (bind m (fun _ => k))
  (at level 61, right associativity) : py_scope.
Open Scope py_scope.

(** [try: body  except Exception: handler]: what [body] did before it
    raised stays done. *)
Definition try_except {A} (body : M A) (handler : M A) : M A :=
  fun w => match body w with
           | (Ok a, w') => (Ok a, w')
           | (Raise _, w') => handler w'
           end.

(** [for x in xs: body x] *)
Fixpoint for_each {A} (xs : list A) (body : A -> M unit) : M unit :=
  match xs with
  | [] => ret tt
  | x :: rest => body x ;; for_each rest body
  end.

Definition log (e : Event) : M unit :=
  fun w => (Ok tt, {| running_notes_db := running_notes_db w;
                       project_notes := project_notes w;
                       trace := (trace w ++ [e])%list |}).

(** A collaborator call: logged, then it answers or raises. *)
Definition call_opt {A} (e : Event) (answer : option A) (err : exn) : M A :=
  log e ;; match answer with Some a => ret a | None => raise err end.

Definition call_bool (e : Event) (answer : bool) (err : exn) : M unit :=
  log e ;; if answer then ret tt else raise err.

(** [application.running_notes_db.save(newNote)] *)
Definition save (app : Application) (n : Doc.RunningNote) : M unit :=
  fun w =>
    if running_notes_save app (running_notes_db w) n then
      (Ok tt, {| running_notes_db := (running_notes_db w ++ [n])%list;
                  project_notes := project_notes w;
                  trace := (trace w ++ [Saved n])%list |})
    else (Raise StoreError, w).

(** ** Python dictionaries: insertion ordered, one entry per key *)

Module PyDict.

Definition t (V : Type) := list (string * V).

(** [d[k] = v]: an existing key keeps its place. *)
Fixpoint set {V} (k : string) (v : V) (d : t V) : t V :=
  match d with
  | [] => [(k, v)]
  | (k', v') :: rest =>
      if String.eqb k k' then (k, v) :: rest else (k', v') :: set k v rest
  end.

Fixpoint get {V} (k : string) (d : t V) : option V :=
  match d with
  | [] => None
  | (k', v') :: rest => if String.eqb k k' then Some v' else get k rest
  end.

Definition keys {V} (d : t V) : list string := map fst d.

End PyDict.

(** ** RunningNotesDataHandler.make_project_running_note *)

(** The notes among the effects of the legacy handler, and the events
    that its effects leave in the trace. *)
Definition legacy_written (effects : list LegacyEffect) : list ProjectRunningNote :=
  flat_map (fun e => match e with WriteNote p => [p] | NotifyTags _ _ => [] end) effects.

Definition legacy_event (e : LegacyEffect) : Event :=
  match e with
  | WriteNote p => ProjectNoteWritten p
  | NotifyTags project userTags => LegacyDispatch project userTags
  end.

(** Modelled from the spec: [RunningNotesDataHandler.make_project_running_note]
    lives in [status/projects.py], which is not among the sources at hand.
    The spec gives the propagated note the persistence contract of a
    create, which writes the note or fails, and is of two minds on
    notification: it wants the note exempt from the user-tag pipeline and
    reports that the source runs it again.  What a call does is
    therefore asked of the application: it answers or raises, and the
    notes it wrote and the notifications it made go to the project notes
    and to the trace.  The running-notes store is out of its reach. *)
Definition make_project_running_note
    (app : Application) (project note category user email : string) : M unit :=
  fun w =>
    let p := {| p_project := project; p_note := note; p_category := category;
                p_user := user; p_email := email |} in
    let answer := legacy_make_project_running_note app p (project_notes w) in
    (fst answer,
     {| running_notes_db := running_notes_db w;
        project_notes := (project_notes w ++ legacy_written (snd answer))%list;
        trace := (trace w ++ map legacy_event (snd answer))%list |}).

(** ** NEWRunningNotesDataHandler.notify_tagged_user *)

Definition dq : string := String (ascii_of_nat 34) "".

Fixpoint spaces (n : nat) : string :=
  match n with O => "" | S k => String " " (spaces k) end.

(** [view_result]: short handle to full address, from the authorized
    users; a later row replaces an earlier one with the same handle. *)
Definition view_result_of (keys : list string) : PyDict.t string :=
  fold_left
    (fun d key =>
       if String.eqb key "genstat_defaults" then d
       else PyDict.set (PyStr.split_head "@" key) key d)
    keys [].

Definition anchor_id (project_id : string) (timestamp : datetime) : string :=
  "running_note_" ++ project_id ++ "_" ++ PyStr.of_Z (Z.quot timestamp 1000000%Z).

Definition category_suffix (categories : list string) : string :=
  match categories with
  | [] => ""
  | _ => " - " ++ PyStr.join ", " categories
  end.

Record Wording := { notf_text : string; slack_notf_text : string; email_text : string }.

Definition wording (tagtype tagger : string) : Wording :=
  if String.eqb tagtype "userTag" then
    {| notf_text := "tagged you";
       slack_notf_text := "You have been tagged by *" ++ tagger ++ "* in a running note";
       email_text := "You have been tagged by " ++ tagger ++ " in a running note" |}
  else
    {| notf_text := "created note";
       slack_notf_text := "Running note created by *" ++ tagger ++ "*";
       email_text := "Running note created by " ++ tagger |}.

Section Notify.

Variable app : Application.
Variables (project_id project_name note tagger : string).
Variable categories : list string.
Variable timestamp_ : datetime.
Variable wd : Wording.

Let time_in_format := strftime_local app timestamp_.
Let note_id := anchor_id project_id timestamp_.
Let category := category_suffix categories.
Let base_uri := PyStr.rsplit1_head "/" (redirect_uri app).

Definition notification_text : string :=
  tagger ++ " has " ++ notf_text wd ++ " in " ++ project_id ++ ", " ++ project_name ++ "!".

Definition blocks : list string :=
  [ "_" ++ slack_notf_text wd ++ " for the project_ <" ++ base_uri ++ "/project/"
      ++ project_id ++ "#" ++ note_id ++ "|" ++ project_id ++ ", " ++ project_name
      ++ ">! :smile: " ++ PyStr.nl ++ "_The note is as follows:_ "
      ++ PyStr.nl ++ PyStr.nl ++ PyStr.nl;
    ">*" ++ tagger ++ " - " ++ time_in_format ++ category ++ "*" ++ PyStr.nl ++ ">"
      ++ PyStr.replace_char (ascii_of_nat 10) (PyStr.nl ++ ">") note
      ++ PyStr.nl ++ PyStr.nl ++ PyStr.nl ++ PyStr.nl
      ++ " _(Please do not respond to this message here in Slack."
      ++ " It will only be seen by you.)_" ].

(** The body of the [try]. *)
Definition slack_path (address : string) : M unit :=
  userid <- call_opt (SlackLookup address) (users_lookupByEmail app address) SlackApiError ;;
  channel <- call_opt (SlackOpen userid) (conversations_open app userid) SlackApiError ;;
  let m := {| sl_channel := channel; sl_text := notification_text; sl_blocks := blocks |} in
  call_bool (SlackPost m) (chat_postMessage app m) SlackApiError ;;
  call_bool (SlackClose channel) (conversations_close app channel) SlackApiError.

Definition mail_for (address : string) : Mail :=
  {| m_from := "genomics-status";
     m_to := address;
     m_subject := "[GenStat] Running Note:" ++ project_id ++ ", " ++ project_name;
     m_plain :=
       email_text wd ++ " in the project " ++ project_id ++ ", " ++ project_name
         ++ "! The note is as follows" ++ PyStr.nl
         ++ spaces 20 ++ ">" ++ tagger ++ " - " ++ time_in_format ++ category
         ++ spaces 20 ++ ">" ++ note;
     m_html :=
       "<html>" ++ spaces 20 ++ "<body>" ++ spaces 20 ++ "<p> " ++ spaces 20
         ++ email_text wd ++ " in the project <a href=" ++ dq ++ base_uri ++ "/project/"
         ++ project_id ++ "#" ++ note_id ++ dq ++ ">" ++ project_id ++ ", "
         ++ project_name ++ "</a>! The note is as follows</p>" ++ spaces 20
         ++ "<blockquote>" ++ spaces 20
         ++ "<div class=" ++ dq ++ "panel panel-default" ++ dq ++ " style=" ++ dq
         ++ "border: 1px solid #e4e0e0; border-radius: 4px;" ++ dq ++ ">" ++ spaces 20
         ++ "<div class=" ++ dq ++ "panel-heading" ++ dq ++ " style=" ++ dq
         ++ "background-color: #f5f5f5; padding: 10px 15px;" ++ dq ++ ">" ++ spaces 24
         ++ "<a href=" ++ dq ++ "#" ++ dq ++ ">" ++ tagger ++ "</a> - <span>"
         ++ time_in_format ++ "</span> <span>" ++ category ++ "</span>" ++ spaces 20
         ++ "</div>" ++ spaces 20
         ++ "<div class=" ++ dq ++ "panel-body" ++ dq ++ " style=" ++ dq
         ++ "padding: 15px;" ++ dq ++ ">" ++ spaces 24
         ++ "<p>" ++ markdown app note ++ "</p>" ++ spaces 20
         ++ "</div></div></blockquote></body></html>" |}.

(** [smtplib.SMTP("localhost")], [sendmail], [quit]: not in a [try]. *)
Definition send_mail (address : string) : M unit :=
  let m := mail_for address in
  call_bool (MailSubmit m) (smtp_sendmail app m) SMTPException.

Definition wants_slack (option : string) : bool :=
  (String.eqb option "Slack" || String.eqb option "Both")%bool.

Definition wants_mail (option : string) : bool :=
  (String.eqb option "E-mail" || String.eqb option "Both")%bool.

(** The body of [for user in userTags]. *)
Definition notify_user (view_result : PyDict.t string) (user : string) : M unit :=
  match PyDict.get user view_result with
  | None => ret tt
  | Some address =>
      let option :=
        match notification_preferences app address with
        | Some o => o
        | None => "Both"
        end in
      option <- (if wants_slack option then
                   try_except (slack_path address ;; ret option) (ret "E-mail")
                 else ret option) ;;
      if wants_mail option then send_mail address else ret tt
  end.

End Notify.

Definition notify_tagged_user
    (app : Application) (userTags : list string) (project : string * string)
    (note : string) (categories : list string) (tagger : string)
    (timestamp_ : datetime) (tagtype : string) : M unit :=
  log (Dispatch tagtype userTags) ;;
  let view_result := view_result_of (gs_users app) in
  for_each userTags
    (notify_user app (fst project) (snd project) note tagger categories timestamp_
       (wording tagtype tagger) view_result).

(** ** NEWRunningNotesDataHandler.make_running_note *)

(** The local variables that only some branches assign; [None] is a name
    not bound yet, and reading it raises [UnboundLocalError]. *)
Record Locals := {
  connected_projects : option (list string);
  proj_ids : option (string * string);
  proj_coord_with_accents : option string
}.

(** A computation that touches nothing. *)
Definition lift {A} (o : outcome A) : M A := fun w => (o, w).

Definition read_local {A} (name : string) (v : option A) : M A :=
  lift (match v with
        | Some a => Ok a
        | None => Raise (UnboundLocalError name)
        end).

(** [for row in v[partition_id]: doc_id = row.value] leaves the value of
    the last row in [doc_id], and nothing when there is no row. *)
Definition last_row (rows : list string) : option string :=
  fold_left (fun _ value => Some value) rows None.

(** [.rows[0].value] *)
Definition first_row (rows : list (list string)) : outcome (list string) :=
  match rows with
  | [] => Raise IndexError
  | value :: _ => Ok value
  end.

Definition linked (value : outcome (list string)) : outcome Locals :=
  match value with
  | Ok v => Ok {| connected_projects := Some v; proj_ids := None;
                  proj_coord_with_accents := None |}
  | Raise e => Raise e
  end.

(** Lines 92 to 119: the chain on [note_type].  It only reads. *)
Definition resolve (app : Application) (partition_id note_type : string)
    : outcome Locals :=
  if String.eqb note_type "project" then
    match last_row (projects_view app partition_id) with
    | None => Raise (UnboundLocalError "doc_id")
    | Some doc_id =>
        match projects_get app doc_id with
        | None => Raise TypeError
        | Some doc =>
            match Doc.project_name doc with
            | None => Raise (KeyError "project_name")
            | Some project_name =>
                match Doc.details doc with
                | None => Raise (KeyError "details")
                | Some details =>
                    let coordinator :=
                      match Doc.project_coordinator details with
                      | Some c => c
                      | None => ""
                      end in
                    Ok {| connected_projects := Some [partition_id];
                          proj_ids := Some (partition_id, project_name);
                          proj_coord_with_accents :=
                            Some (PyStr.join "." (split_whitespace app (lower app coordinator))) |}
                end
            end
        end
    end
  else if String.eqb note_type "flowcell" then
    linked (first_row (x_flowcells_view app partition_id))
  else if String.eqb note_type "flowcell_ont" then
    linked (first_row (nanopore_runs_view app partition_id))
  else
    Ok {| connected_projects := None; proj_ids := None;
          proj_coord_with_accents := None |}.

Definition new_note (app : Application)
    (partition_id note : string) (categories : list string)
    (user email note_type : string) (created_time : datetime)
    (connected : list string) : Doc.RunningNote :=
  {| Doc._id := partition_id ++ ":" ++ timestamp app created_time;
     Doc.user := user;
     Doc.email := email;
     Doc.note := note;
     Doc.categories := categories;
     Doc.projects := connected;
     Doc.parent := partition_id;
     Doc.note_type := note_type;
     Doc.created_at_utc := isoformat app created_time;
     Doc.updated_at_utc := isoformat app created_time |}.

(** The condition of line 156. *)
Definition coordinator_due (proj_coord : string) (userTags : list string)
    (email : string) : bool :=
  (negb (String.eqb proj_coord "")
   && negb (PyStr.mem proj_coord userTags)
   && negb (String.eqb proj_coord (PyStr.split_head "@" email)))%bool.

(** Lines 135 to 170. *)
Definition notify_project_note (app : Application) (locals : Locals)
    (note : string) (categories : list string) (user email : string)
    (created_time : datetime) : M unit :=
  let userTags := Tags.findall note in
  (match userTags with
   | [] => ret tt
   | _ => project <- read_local "proj_ids" (proj_ids locals) ;;
          notify_tagged_user app userTags project note categories user
            created_time "userTag"
   end) ;;
  with_accents <- read_local "proj_coord_with_accents" (proj_coord_with_accents locals) ;;
  let proj_coord := nfkd_ascii app with_accents in
  if coordinator_due proj_coord userTags email then
    project <- read_local "proj_ids" (proj_ids locals) ;;
    notify_tagged_user app [proj_coord] project note categories user
      created_time "creation"
  else ret tt.

Definition is_run_type (note_type : string) : bool :=
  PyStr.mem note_type ["flowcell"; "workset"; "flowcell_ont"].

(** The dictionary [choose_link]. *)
Definition link_segment (note_type : string) : option string :=
  PyDict.get note_type
    [("flowcell", "flowcells"); ("workset", "worksets");
     ("flowcell_ont", "flowcells_ont")].

Definition choose_link (note_type : string) : M string :=
  match link_segment note_type with
  | Some l => ret l
  | None => raise (KeyError note_type)
  end.

(** The header line that [project_note] starts with. *)
Definition header_of (segment partition_id note_type : string) : string :=
  let link := "<a class='text-decoration-none' href='/" ++ segment ++ "/"
                ++ partition_id ++ "'>" ++ partition_id ++ "</a>" in
  "#####*Running note posted on " ++ PyStr.split_head "_" note_type ++ " " ++ link
    ++ ":*" ++ PyStr.nl.

Definition project_note_of (segment partition_id note_type note : string) : string :=
  header_of segment partition_id note_type ++ note.

(** Lines 171 to 202. *)
Definition propagate (app : Application) (connected : list string)
    (partition_id note : string) (categories : list string)
    (user email note_type : string) : M unit :=
  segment <- choose_link note_type ;;
  let project_note := project_note_of segment partition_id note_type note in
  for_each connected
    (fun proj_id =>
       let category := PyStr.join ", " categories in
       make_project_running_note app proj_id project_note category user email).

(** The parameter [created_time]: the caller's value, or the default
    kept since the module was loaded. *)
Definition time_of (md : Loaded) (created_time : option datetime) : datetime :=
  match created_time with
  | Some t => t
  | None => created_time_default md
  end.

Definition make_running_note (md : Loaded) (app : Application)
    (partition_id note : string) (categories : list string)
    (user email note_type : string) (created_time : option datetime)
    : M Doc.RunningNote :=
  let created_time := time_of md created_time in
  locals <- lift (resolve app partition_id note_type) ;;
  connected <- read_local "connected_projects" (connected_projects locals) ;;
  let newNote := new_note app partition_id note categories user email note_type
                   created_time connected in
  save app newNote ;;
  (if String.eqb note_type "project" then
     notify_project_note app locals note categories user email created_time
   else ret tt) ;;
  (if is_run_type note_type then
     propagate app connected partition_id note categories user email note_type
   else ret tt) ;;
  ret newNote.

(** ** NEWRunningNotesDataHandler.post and get *)

(** The decoded request body: [None] is an absent key. *)
Record RequestData := {
  rq_note : option string;
  rq_categories : option (list string);
  rq_note_type : option string
}.

Record CurrentUser := { u_name : string; u_email : string }.

Inductive Body :=
| Html (text : string)
| Json (n : Doc.RunningNote).

Record Response := { status : Z; body : Body }.

Definition get_default {A} (v : option A) (default : A) : A :=
  match v with Some a => a | None => default end.

Definition post (md : Loaded) (app : Application) (current : CurrentUser)
    (partition_id : string) (data : RequestData) : M Response :=
  let note := get_default (rq_note data) "" in
  let category := get_default (rq_categories data) [] in
  let note_type := get_default (rq_note_type data) "" in
  if String.eqb note "" then
    ret {| status := 400%Z;
           body := Html "<html><body>No project id or note parameters found</body></html>" |}
  else
    newNote <- make_running_note md app partition_id note category
                 (u_name current) (u_email current) note_type None ;;
    ret {| status := 201%Z; body := Json newNote |}.

Definition note_contents (n : Doc.RunningNote) : Doc.NoteContents :=
  {| Doc.c_user := Doc.user n;
     Doc.c_email := Doc.email n;
     Doc.c_note := Doc.note n;
     Doc.c_categories := Doc.categories n;
     Doc.c_created_at_utc := Doc.created_at_utc n;
     Doc.c_updated_at_utc := Doc.updated_at_utc n |}.

(** The first loop of [get]. *)
Definition running_notes_json (rows : list Doc.RunningNote) : PyDict.t Doc.NoteContents :=
  fold_left
    (fun d n => PyDict.set (Doc.c_created_at_utc (note_contents n)) (note_contents n) d)
    rows [].

(** [sorted(items, key=lambda t: t[0], reverse=True)], by insertion; equal
    keys keep their order. *)
Fixpoint insert_desc {V} (x : string * V) (l : list (string * V)) : list (string * V) :=
  match l with
  | [] => [x]
  | y :: rest =>
      if String.ltb (fst y) (fst x) then x :: y :: rest
      else y :: insert_desc x rest
  end.

Definition sorted_desc {V} (l : list (string * V)) : list (string * V) :=
  fold_left (fun acc x => insert_desc x acc) l [].

(** [get], from the rows of the partition's [_all_docs] view to the
    mapping it writes. *)
Definition get (rows : list Doc.RunningNote) : PyDict.t Doc.NoteContents :=
  fold_left (fun d kv => PyDict.set (fst kv) (snd kv) d)
    (sorted_desc (running_notes_json rows)) [].

(** ** Reading a run of the handler *)

(** The events a run added to the trace. *)
Definition new_events (w w' : World) : list Event :=
  skipn (length (trace w)) (trace w').

Definition mails_of (events : list Event) : list Mail :=
  flat_map (fun e => match e with MailSubmit m => [m] | _ => [] end) events.

(** The normalized coordinator handle [proj_coord] of a project, when the
    project resolves. *)
Definition coordinator_handle (app : Application) (partition_id : string)
    : option string :=
  match resolve app partition_id "project" with
  | Ok locals => option_map (nfkd_ascii app) (proj_coord_with_accents locals)
  | Raise _ => None
  end.

(** Whether the four Slack calls for [address] all answer. *)
Definition slack_answers (app : Application) (text : string)
    (blocks_ : list string) (address : string) : bool :=
  match users_lookupByEmail app address with
  | None => false
  | Some userid =>
      match conversations_open app userid with
      | None => false
      | Some channel =>
          (chat_postMessage app
             {| sl_channel := channel; sl_text := text; sl_blocks := blocks_ |}
           && conversations_close app channel)%bool
      end
  end.

(** In the spec's words: a tagged handle that resolves to an address is
    mailed when its preference includes e-mail, or includes Slack and the
    Slack path failed. *)
Definition mailed (app : Application) (text : string) (blocks_ : list string)
    (user : string) : list string :=
  match PyDict.get user (view_result_of (gs_users app)) with
  | None => []
  | Some address =>
      let option := get_default (notification_preferences app address) "Both" in
      if (wants_mail option
          || (wants_slack option && negb (slack_answers app text blocks_ address)))%bool
      then [address] else []
  end.

(** The events of the Slack path for [address]: each of the four calls
    is made when the one before it answered. *)
Definition slack_events (app : Application) (text : string)
    (blocks_ : list string) (address : string) : list Event :=
  SlackLookup address ::
  match users_lookupByEmail app address with
  | None => []
  | Some userid =>
      SlackOpen userid ::
      match conversations_open app userid with
      | None => []
      | Some channel =>
          let m := {| sl_channel := channel; sl_text := text; sl_blocks := blocks_ |} in
          SlackPost m :: (if chat_postMessage app m then [SlackClose channel] else [])
      end
  end.

(** In the spec's words: what the dispatcher sends to one user.  A handle
    that is no authorized user gets nothing; the others get the Slack
    message when their preference includes Slack, and then the mail when
    they are to be mailed. *)
Definition deliveries (app : Application) (project_id project_name note tagger : string)
    (categories : list string) (timestamp_ : datetime) (wd : Wording)
    (user : string) : list Event :=
  let text := notification_text project_id project_name tagger wd in
  let blocks_ := blocks app project_id project_name note tagger categories timestamp_ wd in
  match PyDict.get user (view_result_of (gs_users app)) with
  | None => []
  | Some address =>
      ((if wants_slack (get_default (notification_preferences app address) "Both")
        then slack_events app text blocks_ address
        else [])
       ++ map (fun a => MailSubmit
                          (mail_for app project_id project_name note tagger categories
                             timestamp_ wd a))
            (mailed app text blocks_ user))%list
  end.

(** What the dispatcher answers after these mails: the relay took them
    all, or its exception. *)
Definition outcome_of_mails (app : Application) (mails : list Mail) : outcome unit :=
  if forallb (smtp_sendmail app) mails then Ok tt else Raise SMTPException.

(** The events that only the legacy handler of project notes leaves. *)
Definition from_legacy (e : Event) : Prop :=
  match e with
  | ProjectNoteWritten _ | LegacyDispatch _ _ => True
  | _ => False
  end.

(** The last row of a scan that carries the timestamp [k]. *)
Definition last_with (k : string) (rows : list Doc.RunningNote)
    : option Doc.RunningNote :=
  fold_left
    (fun found n => if String.eqb k (Doc.created_at_utc n) then Some n else found)
    rows None.

(** [emits w w' added]: from [w] to [w'] the running-notes store is
    untouched and the trace grew by [added]. *)
Definition emits (w w' : World) (added : list Event) : Prop :=
  running_notes_db w' = running_notes_db w /\
  trace w' = (trace w ++ added)%list.

Definition adds (P : Event -> Prop) {A} (m : M A) : Prop :=
  forall w r w', m w = (r, w') ->
    exists added, emits w w' added /\ Forall P added.

(** The events of the Slack and mail paths. *)
Definition is_delivery (e : Event) : Prop :=
  match e with
  | SlackLookup _ | SlackOpen _ | SlackPost _ | SlackClose _ | MailSubmit _ => True
  | _ => False
  end.

(** Events other than a call of the dispatcher with the reason
    "creation". *)
Definition not_creation (e : Event) : Prop :=
  forall us, e <> Dispatch "creation" us.

Definition not_saved (e : Event) : Prop :=
  match e with
  | Saved _ => False
  | _ => True
  end.

(** What a delivery tells of the project it is about: the subject of a
    mail and the text of a Slack message name the project by its id and
    its name. *)
Definition about_project (project_id project_name : string) (e : Event) : Prop :=
  match e with
  | MailSubmit m =>
      m_subject m = "[GenStat] Running Note:" ++ project_id ++ ", " ++ project_name
  | SlackPost m =>
      exists who what,
        sl_text m
        = who ++ " has " ++ what ++ " in " ++ project_id ++ ", " ++ project_name ++ "!"
  | _ => True
  end.

(** ** A small installation to run the handler on *)

Module Sample.

Definition lower_char (a : ascii) : ascii :=
  let n := nat_of_ascii a in
  if (Nat.leb 65 n && Nat.leb n 90)%bool then ascii_of_nat (n + 32) else a.

Fixpoint lower_ascii (s : string) : string :=
  match s with
  | EmptyString => ""
  | String a rest => String (lower_char a) (lower_ascii rest)
  end.

(** White space of ASCII text. *)
Definition is_space (a : ascii) : bool :=
  let n := nat_of_ascii a in
  (Nat.eqb n 32 || (Nat.leb 9 n && Nat.leb n 13) || (Nat.leb 28 n && Nat.leb n 31))%bool.

Fixpoint split_ascii_aux (cur : string) (s : string) : list string :=
  match s with
  | EmptyString => match cur with EmptyString => [] | _ => [cur] end
  | String a rest =>
      if is_space a then
        match cur with
        | EmptyString => split_ascii_aux "" rest
        | _ => cur :: split_ascii_aux "" rest
        end
      else split_ascii_aux (cur ++ String a "") rest
  end.

(** The fields of an ASCII text between runs of white space: what
    [str.split()] gives on the texts of this installation. *)
Definition split_ascii (s : string) : list string := split_ascii_aux "" s.

(** Modelled from the spec: the legacy handler as section 4.1 wants it,
    the persistence sub-operation alone. *)
Definition legacy_silent (p : ProjectRunningNote) (stored : list ProjectRunningNote)
    : outcome unit * list LegacyEffect :=
  (Ok tt, [WriteNote p]).

(** Modelled from the spec: the legacy handler as sections 2 and 9
    report the source, which writes the note and runs the user-tag
    notification on its text again. *)
Definition legacy_notifying (p : ProjectRunningNote) (stored : list ProjectRunningNote)
    : outcome unit * list LegacyEffect :=
  (Ok tt,
   WriteNote p ::
   match Tags.findall (p_note p) with
   | [] => []
   | userTags => [NotifyTags (p_project p) userTags]
   end).

(** Modelled from the spec: a legacy handler whose write fails for the
    project "P002", as the persistence contract of a create allows. *)
Definition legacy_failing (p : ProjectRunningNote) (stored : list ProjectRunningNote)
    : outcome unit * list LegacyEffect :=
  if String.eqb (p_project p) "P002" then (Raise StoreError, [])
  else (Ok tt, [WriteNote p]).

Definition project_doc : Doc.Project :=
  {| Doc.project_name := Some "A.Smith_24_01";
     Doc.details := Some {| Doc.project_coordinator := Some "Alice Smith" |} |}.

(** [slack_up], [smtp_up] and [store_up] say whether Slack, the mail
    relay and the running-notes store answer; [legacy] is the legacy
    handler of project notes. *)
Definition installation (slack_up smtp_up store_up : bool)
    (legacy : ProjectRunningNote -> list ProjectRunningNote
              -> outcome unit * list LegacyEffect) : Application :=
  {| projects_view := fun k => if String.eqb k "P001" then ["doc1"] else [];
     projects_get := fun k => if String.eqb k "doc1" then Some project_doc else None;
     x_flowcells_view :=
       fun k => if String.eqb k "FC1" then [["P001"; "P002"]]
                else if String.eqb k "FC0" then [[]] else [];
     nanopore_runs_view := fun _ => [];
     running_notes_save := fun _ _ => store_up;
     gs_users := ["genstat_defaults"; "bob@scilifelab.se"; "alice.smith@scilifelab.se";
                  "carol@scilifelab.se"];
     notification_preferences :=
       fun a => if String.eqb a "bob@scilifelab.se" then Some "E-mail"
                else if String.eqb a "carol@scilifelab.se" then Some "Slack"
                else None;
     redirect_uri := "https://genomics-status.example/login";
     users_lookupByEmail := fun a => if slack_up then Some ("U-" ++ a) else None;
     conversations_open := fun u => Some ("D-" ++ u);
     chat_postMessage := fun _ => true;
     conversations_close := fun _ => true;
     smtp_sendmail := fun _ => smtp_up;
     timestamp := fun t => PyStr.of_Z (Z.div t 1000000%Z) ++ "." ++ PyStr.of_Z (Z.modulo t 1000000%Z);
     isoformat := fun t => "T" ++ PyStr.of_Z t;
     strftime_local := fun t => "at " ++ PyStr.of_Z (Z.div t 1000000%Z);
     lower := lower_ascii;
     split_whitespace := split_ascii;
     nfkd_ascii := fun s => s;
     markdown := fun s => "<p>" ++ s ++ "</p>";
     legacy_make_project_running_note := legacy |}.

Definition app (slack_up smtp_up : bool) : Application :=
  installation slack_up smtp_up true legacy_silent.

Definition md : Loaded := load 1700000000000000%Z.

Definition w0 : World :=
  {| running_notes_db := []; project_notes := []; trace := [] |}.

Definition author : CurrentUser :=
  {| u_name := "Dan Doe"; u_email := "dan@scilifelab.se" |}.

(** Two notes of one partition with one timestamp. *)
Definition twin (id_ text : string) : Doc.RunningNote :=
  {| Doc._id := id_; Doc.user := "Dan Doe"; Doc.email := "dan@scilifelab.se";
     Doc.note := text; Doc.categories := []; Doc.projects := ["P001"];
     Doc.parent := "P001"; Doc.note_type := "project";
     Doc.created_at_utc := "2024-01-01T10:00:00+00:00";
     Doc.updated_at_utc := "2024-01-01T10:00:00+00:00" |}.

Definition later : Doc.RunningNote :=
  {| Doc._id := "P001:3"; Doc.user := "Dan Doe"; Doc.email := "dan@scilifelab.se";
     Doc.note := "third"; Doc.categories := ["Lab"]; Doc.projects := ["P001"];
     Doc.parent := "P001"; Doc.note_type := "project";
     Doc.created_at_utc := "2024-01-02T10:00:00+00:00";
     Doc.updated_at_utc := "2024-01-02T10:00:00+00:00" |}.

End Sample.

(** ** Reading texts and runs, continued *)

(** Every character of [s] passes [p]. *)
Fixpoint all_chars (p : ascii -> bool) (s : string) : bool :=
  match s with
  | EmptyString => true
  | String a rest => (p a && all_chars p rest)%bool
  end.

(** [s] does not begin with a character of a handle. *)
Definition ends_handle (s : string) : bool :=
  match s with
  | EmptyString => true
  | String a _ => negb (Tags.is_handle_char a)
  end.

(** A run that leaves both stores as they were. *)
Definition keeps_stores {A} (m : M A) : Prop :=
  forall w r w', m w = (r, w') ->
    running_notes_db w' = running_notes_db w /\ project_notes w' = project_notes w.


(** The last value that the rows give to the key [k]. *)
Definition last_value {V} (k : string) (rows : list (string * V)) : option V :=
  fold_left (fun found row => if String.eqb k (fst row) then Some (snd row) else found)
    rows None.

(** ** status/flowcells.py *)

Module Flowcells.

(** A text, for the regular expressions, is the sequence of the code
    points of a [str]. *)
Definition code (a : ascii) : N := N_of_ascii a.

(** The code points of an ASCII text. *)
Fixpoint codes (s : string) : list N :=
  match s with
  | EmptyString => []
  | String a rest => code a :: codes rest
  end.

(** The patterns of [find_id] are sequences of a literal character or
    [\d{lo,lo+extra}]. *)
Inductive atom :=
| Lit (c : N)
| Digits (lo extra : nat).

Definition patterns : PyDict.t (list atom) :=
  [("project", [Lit (code "P"); Digits 5 1]);
   ("sample", [Lit (code "P"); Digits 5 1; Lit (code "_"); Digits 3 0]);
   ("pool", [Lit (code "2"); Lit (code "-"); Digits 6 0]);
   ("step", [Lit (code "2"); Lit (code "4"); Lit (code "-"); Digits 6 0])].

Section Regex.

(** [\d] in a pattern that is a [str]: the decimal digits of the
    character database of the interpreter, those of [str.isdecimal]. *)
Variable isdecimal : N -> bool.

(** Exactly [n] digits at the head of [s], and what follows them. *)
Fixpoint take_digits (n : nat) (s : list N) : option (list N * list N) :=
  match n with
  | O => Some ([], s)
  | S k =>
      match s with
      | [] => None
      | a :: rest =>
          if isdecimal a then
            match take_digits k rest with
            | Some (d, r) => Some (a :: d, r)
            | None => None
            end
          else None
      end
  end.

(** A greedy repetition: [lo + extra] digits first, then one less, down
    to [lo], until the continuation [k] matches what follows. *)
Fixpoint repeat_digits (k : list N -> option (list N)) (lo extra : nat) (s : list N)
    : option (list N) :=
  let fewer := match extra with
               | O => None
               | S e => repeat_digits k lo e s
               end in
  match take_digits (lo + extra) s with
  | Some (d, rest) =>
      match k rest with
      | Some m => Some (d ++ m)%list
      | None => fewer
      end
  | None => fewer
  end.

(** [re.match(pattern, s)]: the text matched at the start of [s]. *)
Fixpoint match_here (p : list atom) (s : list N) : option (list N) :=
  match p with
  | [] => Some []
  | Lit c :: p' =>
      match s with
      | [] => None
      | a :: rest =>
          if N.eqb a c then
            match match_here p' rest with
            | Some m => Some (a :: m)
            | None => None
            end
          else None
      end
  | Digits lo extra :: p' => repeat_digits (match_here p') lo extra s
  end.

(** [find_id], on the text [str(stringable)]. *)
Definition find_id (text : list N) (pattern_type : string) : outcome (option (list N)) :=
  match PyDict.get pattern_type patterns with
  | None => Raise (KeyError pattern_type)
  | Some pattern => Ok (match_here pattern text)
  end.

End Regex.

(** The decimal digits of Unicode 14.0, the characters of the category
    Nd, as runs: the first code point and the number of them. *)
Definition decimal_runs_14 : list (N * N) :=
  [(48, 10); (1632, 10); (1776, 10); (1984, 10); (2406, 10); (2534, 10);
   (2662, 10); (2790, 10); (2918, 10); (3046, 10); (3174, 10); (3302, 10);
   (3430, 10); (3558, 10); (3664, 10); (3792, 10); (3872, 10); (4160, 10);
   (4240, 10); (6112, 10); (6160, 10); (6470, 10); (6608, 10); (6784, 10);
   (6800, 10); (6992, 10); (7088, 10); (7232, 10); (7248, 10); (42528, 10);
   (43216, 10); (43264, 10); (43472, 10); (43504, 10); (43600, 10);
   (44016, 10); (65296, 10); (66720, 10); (68912, 10); (69734, 10);
   (69872, 10); (69942, 10); (70096, 10); (70384, 10); (70736, 10);
   (70864, 10); (71248, 10); (71360, 10); (71472, 10); (71904, 10);
   (72016, 10); (72784, 10); (73040, 10); (73120, 10); (92768, 10);
   (92864, 10); (93008, 10); (120782, 50); (123200, 10); (123632, 10);
   (125264, 10); (130032, 10)]%N.

Definition isdecimal_14 (c : N) : bool :=
  existsb (fun run => (N.leb (fst run) c && N.ltb c (fst run + snd run))%bool)
    decimal_runs_14.

(** What the handlers read of the flowcell databases; a key that is not
    a string is [None], and so is a row value that is null where the
    handler tells it from the others. *)
Record Views (V : Type) := {
  (* flowcells_db.view("info/summary", descending=True): key and value *)
  flowcells_summary : list (string * V);
  (* x_flowcells_db.view("info/summary", descending=True) *)
  x_flowcells_summary : list (string * V);
  (* flowcells_db.view("info/summary2", descending=True)[flowcell]:
     the row values, None for null *)
  flowcells_summary2 : string -> list (option V);
  (* x_flowcells_db.view("info/summary2_full_id", descending=True)[flowcell] *)
  x_flowcells_summary2_full_id : string -> list (option V);
  (* x_flowcells_db.view("info/short_name_to_full_name", key=flowcell).rows *)
  short_name_to_full_name : string -> list (option V);
  (* x_flowcells_db.view("info/summary2_full_id", key=k).rows, for the
     value k of a row of the view above *)
  x_flowcells_summary2_full_id_key : option V -> list (option V);
  (* the keys of flowcells_db.view("info/id", descending=True) *)
  flowcells_id : list (option string);
  (* the keys of x_flowcells_db.view("info/id", descending=True) *)
  x_flowcells_id : list (option string);
  (* the keys of nanopore_runs_db.view("names/name", descending=True) *)
  nanopore_runs_name : list (option string)
}.
Arguments flowcells_summary {V} _.
Arguments x_flowcells_summary {V} _.
Arguments flowcells_summary2 {V} _ _.
Arguments x_flowcells_summary2_full_id {V} _ _.
Arguments short_name_to_full_name {V} _ _.
Arguments x_flowcells_summary2_full_id_key {V} _ _.
Arguments flowcells_id {V} _.
Arguments x_flowcells_id {V} _.
Arguments nanopore_runs_name {V} _.

(** [for row in rows: flowcell_info = row.value; break] *)
Definition first_or {V} (rows : list V) (current : V) : V :=
  match rows with
  | value :: _ => value
  | [] => current
  end.

(** FlowcellsInfoDataHandler.get_flowcell_info; the answer [None] is
    Python's [None]. *)
Definition get_flowcell_info {V} (vs : Views V) (flowcell : string) : option V :=
  let flowcell_info := None in
  let flowcell_info := first_or (flowcells_summary2 vs flowcell) flowcell_info in
  let flowcell_info := first_or (x_flowcells_summary2_full_id vs flowcell) flowcell_info in
  match flowcell_info with
  | Some info => Some info
  | None =>
      match short_name_to_full_name vs flowcell with
      | [] => flowcell_info
      | complete_flowcell_id :: _ =>
          match x_flowcells_summary2_full_id_key vs complete_flowcell_id with
          | [] => flowcell_info
          | value :: _ => value
          end
      end
  end.

(** [for row in view: flowcells[row.key] = row.value] *)
Definition fill {V} (rows : list (string * V)) (d : PyDict.t V) : PyDict.t V :=
  fold_left (fun d row => PyDict.set (fst row) (snd row) d) rows d.

(** [sorted(items)] of a dictionary, by insertion: the keys are distinct
    and decide the order. *)
Fixpoint insert_asc {V} (x : string * V) (l : list (string * V)) : list (string * V) :=
  match l with
  | [] => [x]
  | y :: rest =>
      if String.ltb (fst x) (fst y) then x :: y :: rest
      else y :: insert_asc x rest
  end.

Definition sorted_asc {V} (l : list (string * V)) : list (string * V) :=
  fold_left (fun acc x => insert_asc x acc) l [].

(** FlowcellsDataHandler.list_flowcells *)
Definition list_flowcells {V} (vs : Views V) : PyDict.t V :=
  let flowcells := fill (flowcells_summary vs) [] in
  let flowcells := fill (x_flowcells_summary vs) flowcells in
  fill (sorted_asc flowcells) [].

(** The class attributes of [FlowcellSearchHandler]. *)
Record SearchCache := {
  cached_fc_list : option (list (option string));
  cached_xfc_list : option (list (option string));
  cached_ont_fc_list : option (list (option string));
  last_fetched : option datetime
}.

Record Hit := { url : string; name : string }.

(** [search_flowcell_names] returns the empty string or a list. *)
Inductive SearchResult :=
| EmptyText
| Hits (flowcells : list Hit).

(** [sub in s] *)
Fixpoint contains (sub s : string) : bool :=
  (String.prefix sub s
   || match s with
      | EmptyString => false
      | String _ rest => contains sub rest
      end)%bool.

(** [splitted_fc[-1]] *)
Definition last_field (fields : list string) : string := List.last fields "".

Definition flowcell_hit (row_key : string) : Hit :=
  let splitted_fc := PyStr.split "_" row_key in
  {| url := "/flowcells/" ++ List.hd "" splitted_fc ++ "_" ++ last_field splitted_fc;
     name := row_key |}.

Definition ont_hit (row_key : string) : Hit :=
  {| url := "/flowcells_ont/" ++ row_key; name := row_key |}.

(** One of the three loops: a key without [lower] raises AttributeError,
    which is passed over. *)
Definition hits_of (lower : string -> string) (make : string -> Hit)
    (search_string : string) (keys : list (option string)) : list Hit :=
  flat_map
    (fun row_key =>
       match row_key with
       | None => []
       | Some key => if contains search_string (lower key) then [make key] else []
       end)
    keys.

(** [cached_fc_list is None or last_fetched < t_threshold]; comparing
    [None] with a time raises TypeError. *)
Definition must_fetch (cache : SearchCache) (t_threshold : datetime) : outcome bool :=
  match cached_fc_list cache with
  | None => Ok true
  | Some _ =>
      match last_fetched cache with
      | None => Raise TypeError
      | Some t => Ok (Z.ltb t t_threshold)
      end
  end.

Definition three_minutes : Z := 180000000%Z.

(** FlowcellSearchHandler.search_flowcell_names: [now] and [now'] are the
    two readings of the clock, [lower] is [str.lower]. *)
Definition search_flowcell_names {V} (lower : string -> string) (vs : Views V)
    (now now' : datetime) (cache : SearchCache) (search_string : string)
    : outcome SearchResult * SearchCache :=
  if Nat.eqb (String.length search_string) 0 then (Ok EmptyText, cache)
  else
    let t_threshold := (now - three_minutes)%Z in
    match must_fetch cache t_threshold with
    | Raise e => (Raise e, cache)
    | Ok fetch =>
        let cache :=
          if fetch then
            {| cached_fc_list := Some (flowcells_id vs);
               cached_xfc_list := Some (x_flowcells_id vs);
               cached_ont_fc_list := Some (nanopore_runs_name vs);
               last_fetched := Some now' |}
          else cache in
        let search_string := lower search_string in
        match cached_xfc_list cache with
        | None => (Raise TypeError, cache)
        | Some xfc =>
            match cached_ont_fc_list cache with
            | None => (Raise TypeError, cache)
            | Some ont =>
                match cached_fc_list cache with
                | None => (Raise TypeError, cache)
                | Some fc =>
                    (Ok (Hits (hits_of lower flowcell_hit search_string xfc
                               ++ hits_of lower ont_hit search_string ont
                               ++ hits_of lower flowcell_hit search_string fc)%list),
                     cache)
                end
            end
        end
    end.

(** A cache as the handler leaves it: nothing fetched yet, or the three
    lists and the time of the fetch. *)
Definition well_formed (cache : SearchCache) : Prop :=
  (cached_fc_list cache = None /\ cached_xfc_list cache = None /\
   cached_ont_fc_list cache = None /\ last_fetched cache = None) \/
  (exists fc xfc ont t,
      cached_fc_list cache = Some fc /\ cached_xfc_list cache = Some xfc /\
      cached_ont_fc_list cache = Some ont /\ last_fetched cache = Some t).

(** The initial values of the class attributes. *)
Definition empty_cache : SearchCache :=
  {| cached_fc_list := None; cached_xfc_list := None; cached_ont_fc_list := None;
     last_fetched := None |}.

End Flowcells.

(** * Properties *)

Example split_email : PyStr.split_head "@" "jane.doe@scilifelab.se" = "jane.doe".
Proof. reflexivity. Qed.

Example split_note_type : PyStr.split_head "_" "flowcell_ont" = "flowcell".
Proof. reflexivity. Qed.

Example rsplit_uri :
  PyStr.rsplit1_head "/" "https://genomics-status.example/login" = "https://genomics-status.example".
Proof. reflexivity. Qed.

Example split_ws_name : PyStr.join "." (Sample.split_ascii "  asa   oberg ") = "asa.oberg".
Proof. reflexivity. Qed.

Example findall_mentions :
  Tags.findall "hello @jane.doe and @bob-2" = ["jane.doe"; "bob-2"].
Proof. reflexivity. Qed.

Example findall_none : Tags.findall "no mentions here" = [].
Proof. reflexivity. Qed.

Example findall_double_at : Tags.findall "a@@b, mail x@y.z!" = ["b"; "y.z"].
Proof. reflexivity. Qed.

Example of_Z_ex : PyStr.of_Z 1700000000%Z = "1700000000".
Proof. reflexivity. Qed.

Example coordinator_of_sample :
  coordinator_handle (Sample.app true true) "P001" = Some "alice.smith".
Proof. reflexivity. Qed.

(** ** Runs that only add events *)

Lemma emits_nil w : emits w w [].
Proof. unfold emits. rewrite app_nil_r. auto. Qed.

Lemma emits_app w1 w2 w3 a b :
  emits w1 w2 a -> emits w2 w3 b -> emits w1 w3 (a ++ b)%list.
Proof.
  unfold emits. intros (D1 & T1) (D2 & T2).
  rewrite D2, T2, T1, app_assoc. auto.
Qed.

Lemma new_events_app w w' added :
  trace w' = (trace w ++ added)%list -> new_events w w' = added.
Proof.
  intros H. unfold new_events. rewrite H, skipn_app, skipn_all, Nat.sub_diag.
  reflexivity.
Qed.

Lemma adds_ret P A (a : A) : adds P (ret a).
Proof.
  intros w r w' H. inversion H; subst. exists []. split; [apply emits_nil | constructor].
Qed.

Lemma adds_lift P A (o : outcome A) : adds P (lift o).
Proof.
  intros w r w' H. inversion H; subst. exists []. split; [apply emits_nil | constructor].
Qed.

Lemma adds_raise P A (e : exn) : adds P (@raise A e).
Proof.
  intros w r w' H. inversion H; subst. exists []. split; [apply emits_nil | constructor].
Qed.

Lemma adds_bind P A B (m : M A) (k : A -> M B) :
  adds P m -> (forall a, adds P (k a)) -> adds P (bind m k).
Proof.
  intros Hm Hk w r w' H. unfold bind in H.
  destruct (m w) as [[a | e] w1] eqn:E.
  - destruct (Hm _ _ _ E) as (l1 & E1 & F1).
    destruct (Hk a _ _ _ H) as (l2 & E2 & F2).
    exists (l1 ++ l2)%list. split; [eapply emits_app; eauto | apply Forall_app; auto].
  - inversion H; subst. eauto.
Qed.

Lemma adds_try_except P A (m h : M A) :
  adds P m -> adds P h -> adds P (try_except m h).
Proof.
  intros Hm Hh w r w' H. unfold try_except in H.
  destruct (m w) as [[a | e] w1] eqn:E.
  - inversion H; subst. eauto.
  - destruct (Hm _ _ _ E) as (l1 & E1 & F1).
    destruct (Hh _ _ _ H) as (l2 & E2 & F2).
    exists (l1 ++ l2)%list. split; [eapply emits_app; eauto | apply Forall_app; auto].
Qed.

Lemma adds_log (P : Event -> Prop) e : P e -> adds P (log e).
Proof.
  intros Pe w r w' H. inversion H; subst. exists [e].
  split; [unfold emits; simpl; auto | auto].
Qed.

Lemma adds_call_opt (P : Event -> Prop) A e (answer : option A) err :
  P e -> adds P (call_opt e answer err).
Proof.
  intros Pe. apply adds_bind; [apply adds_log; exact Pe | intros _].
  destruct answer; [apply adds_ret | apply adds_raise].
Qed.

Lemma adds_call_bool (P : Event -> Prop) e answer err :
  P e -> adds P (call_bool e answer err).
Proof.
  intros Pe. apply adds_bind; [apply adds_log; exact Pe | intros _].
  destruct answer; [apply adds_ret | apply adds_raise].
Qed.

Lemma adds_for_each P A (xs : list A) (body : A -> M unit) :
  (forall x, adds P (body x)) -> adds P (for_each xs body).
Proof.
  intros Hb. induction xs as [| x rest IH]; simpl.
  - apply adds_ret.
  - apply adds_bind; [apply Hb | intros _; exact IH].
Qed.

Lemma adds_mono (P Q : Event -> Prop) A (m : M A) :
  (forall e, P e -> Q e) -> adds P m -> adds Q m.
Proof.
  intros PQ Hm w r w' H. destruct (Hm _ _ _ H) as (l & E & F).
  exists l. split; [exact E | eapply Forall_impl; eauto].
Qed.

Create HintDb runs.
#[local] Hint Resolve adds_ret adds_lift adds_raise adds_log adds_call_opt
  adds_call_bool : runs.
#[local] Hint Extern 1 (is_delivery _) => exact I : runs.

Ltac run_adds :=
  repeat first
    [ solve [auto with runs]
    | apply adds_try_except
    | apply adds_bind; [| intros ?]
    | match goal with
      | |- adds _ (if ?b then _ else _) => destruct b
      | |- adds _ (match ?x with _ => _ end) => destruct x
      end ].

Lemma notify_user_adds app pid pname note tagger cats ts wd vr user :
  adds is_delivery (notify_user app pid pname note tagger cats ts wd vr user).
Proof. unfold notify_user, slack_path, send_mail. run_adds. Qed.

Lemma notify_tagged_user_events app us p note cats tagger ts tagtype w r w' :
  notify_tagged_user app us p note cats tagger ts tagtype w = (r, w') ->
  exists ds, emits w w' (Dispatch tagtype us :: ds) /\ Forall is_delivery ds.
Proof.
  unfold notify_tagged_user, bind at 1. simpl. intros H.
  match type of H with for_each ?xs ?b ?w1 = _ =>
    destruct (@adds_for_each is_delivery _ xs b
                (fun x => notify_user_adds _ _ _ _ _ _ _ _ _ x) w1 r w' H)
      as (ds & (D & T) & F)
  end.
  exists ds. split; [| exact F].
  unfold emits. simpl in *. rewrite D, T, <- app_assoc. auto.
Qed.

#[local] Hint Extern 1 (not_saved _) => exact I : runs.

Lemma delivery_not_saved e : is_delivery e -> not_saved e.
Proof. destruct e; simpl; auto. Qed.

Lemma notify_tagged_user_adds app us p note cats tagger ts tagtype :
  adds not_saved (notify_tagged_user app us p note cats tagger ts tagtype).
Proof.
  unfold notify_tagged_user. apply adds_bind; [auto with runs | intros _].
  apply adds_for_each. intros x.
  eapply adds_mono; [apply delivery_not_saved | apply notify_user_adds].
Qed.

Lemma make_project_running_note_adds app proj n c u e :
  adds not_saved (make_project_running_note app proj n c u e).
Proof.
  intros w r w' H. inversion H; subst.
  eexists. split; [split; simpl; reflexivity |].
  apply Forall_forall. intros ev I. apply in_map_iff in I.
  destruct I as ([p | pr us] & <- & _); exact Logic.I.
Qed.

#[local] Hint Resolve notify_tagged_user_adds make_project_running_note_adds : runs.

Lemma notify_project_note_adds app locals note cats user email ct :
  adds not_saved (notify_project_note app locals note cats user email ct).
Proof. unfold notify_project_note, read_local. run_adds. Qed.

Lemma propagate_adds app connected pid note cats user email nt :
  adds not_saved (propagate app connected pid note cats user email nt).
Proof.
  unfold propagate, choose_link. apply adds_bind; [run_adds | intros segment].
  apply adds_for_each. intros x. auto with runs.
Qed.

Lemma save_run app n w r w' :
  save app n w = (r, w') ->
  (r = Raise StoreError /\ w' = w) \/
  (running_notes_save app (running_notes_db w) n = true /\ r = Ok tt /\
   running_notes_db w' = (running_notes_db w ++ [n])%list /\
   project_notes w' = project_notes w /\
   trace w' = (trace w ++ [Saved n])%list).
Proof.
  unfold save. destruct (running_notes_save _ _ _) eqn:E; intros H; inversion H; subst.
  - right. simpl. auto.
  - left. auto.
Qed.

(** The shape of every run of [make_running_note]: it raises before it
    touched anything, or it saved the note first and then only added
    events that are not saves. *)
Lemma make_running_note_run md app pid note cats user email nt ct w r w' :
  make_running_note md app pid note cats user email nt ct w = (r, w') ->
  (w' = w /\ exists e, r = Raise e) \/
  exists locals connected rest,
    resolve app pid nt = Ok locals /\
    connected_projects locals = Some connected /\
    let n := new_note app pid note cats user email nt (time_of md ct) connected in
    running_notes_save app (running_notes_db w) n = true /\
    running_notes_db w' = (running_notes_db w ++ [n])%list /\
    trace w' = (trace w ++ Saved n :: rest)%list /\
    Forall not_saved rest /\
    (forall m, r = Ok m -> m = n).
Proof.
  unfold make_running_note.
  unfold bind at 1, lift.
  destruct (resolve app pid nt) as [locals | e] eqn:R;
    [| intros H; inversion H; subst; left; eauto].
  unfold bind at 1, read_local, lift.
  destruct (connected_projects locals) as [connected |] eqn:C;
    [| intros H; inversion H; subst; left; eauto].
  set (n := new_note _ _ _ _ _ _ _ _ _).
  unfold bind at 1.
  destruct (save app n w) as [[[] | e] w1] eqn:S.
  2:{ destruct (save_run _ _ _ _ _ S) as [(E & W) | (_ & E & _)]; [| discriminate].
      intros H; inversion H; subst. left; eauto. }
  destruct (save_run _ _ _ _ _ S) as [(E & _) | (Acc & _ & D1 & _ & T1)]; [discriminate |].
  intros H. right. exists locals, connected.
  assert (A : adds not_saved
                ((if String.eqb nt "project"
                  then notify_project_note app locals note cats user email (time_of md ct)
                  else ret tt) ;;
                 (if is_run_type nt
                  then propagate app connected pid note cats user email nt
                  else ret tt) ;; ret n)).
  { pose proof notify_project_note_adds. pose proof propagate_adds. run_adds. }
  destruct (A _ _ _ H) as (rest & (D2 & T2) & F).
  exists rest. repeat split; auto.
  - rewrite D2, D1. reflexivity.
  - rewrite T2, T1, <- app_assoc. reflexivity.
  - intros m Hm. subst r. clear - H.
    unfold bind in H.
    repeat match type of H with
           | (match ?x with _ => _ end) = _ => destruct x as [[? | ?] ?]; try discriminate
           end.
    inversion H; reflexivity.
Qed.

(** ** Persistence comes first *)

(** C8: in every run of [make_running_note], a notification attempt is
    only made after the note has been saved, the saved note is in the
    store of the final state whether the run returns or raises, and the
    run removes nothing from the store. *)
Theorem persisted_before_notification
    md app pid note cats user email nt ct w r w' :
  make_running_note md app pid note cats user email nt ct w = (r, w') ->
  (exists kept, running_notes_db w' = (running_notes_db w ++ kept)%list) /\
  (forall before e after,
      new_events w w' = (before ++ e :: after)%list ->
      is_notification e = true ->
      exists n, In (Saved n) before /\ Doc.parent n = pid /\ Doc.note n = note /\
                In n (running_notes_db w')) /\
  (forall n, In (Saved n) (new_events w w') -> In n (running_notes_db w')).
Proof.
  intros H.
  destruct (make_running_note_run _ _ _ _ _ _ _ _ _ _ _ _ H)
    as [(-> & _) | (locals & connected & rest & _ & _ & _ & D & T & F & _)].
  - assert (N : new_events w w = []) by (apply new_events_app; now rewrite app_nil_r).
    rewrite N. split; [exists []; now rewrite app_nil_r |].
    split; [| intros n []].
    intros before e after E. destruct before; discriminate E.
  - rewrite (new_events_app _ _ _ T). split; [eauto |]. split.
    + intros before e after E Ne. destruct before as [| b before].
      * simpl in E. inversion E; subst e. discriminate Ne.
      * simpl in E. inversion E; subst b.
        eexists. split; [left; reflexivity |]. rewrite D.
        repeat split; try reflexivity. apply in_or_app. right. left. reflexivity.
    + intros n [E | I].
      * inversion E; subst. rewrite D. apply in_or_app. right. left. reflexivity.
      * rewrite Forall_forall in F. destruct (F _ I).
Qed.

Lemma persisted_before_notification_witness :
  let run := make_running_note Sample.md (Sample.app true false) "P001" "hi @bob"
               [] "Dan Doe" "dan@scilifelab.se" "project" None Sample.w0 in
  make_running_note Sample.md (Sample.app true false) "P001" "hi @bob"
    [] "Dan Doe" "dan@scilifelab.se" "project" None Sample.w0 = (fst run, snd run) /\
  fst run = Raise SMTPException /\
  (exists kept, running_notes_db (snd run) = (running_notes_db Sample.w0 ++ kept)%list) /\
  (forall before e after,
      new_events Sample.w0 (snd run) = (before ++ e :: after)%list ->
      is_notification e = true ->
      exists n, In (Saved n) before /\ Doc.parent n = "P001" /\
                Doc.note n = "hi @bob" /\ In n (running_notes_db (snd run))) /\
  (forall n, In (Saved n) (new_events Sample.w0 (snd run)) ->
             In n (running_notes_db (snd run))).
Proof.
  intros run. split; [reflexivity |]. split; [reflexivity |].
  apply (persisted_before_notification Sample.md (Sample.app true false)
           "P001" "hi @bob" [] "Dan Doe" "dan@scilifelab.se" "project" None Sample.w0
           (fst run) (snd run)).
  reflexivity.
Defined.

(** ** How [projects] is resolved *)

Lemma resolve_project app pid locals :
  resolve app pid "project" = Ok locals ->
  connected_projects locals = Some [pid] /\
  exists doc_id doc name with_accents,
    last_row (projects_view app pid) = Some doc_id /\
    projects_get app doc_id = Some doc /\
    Doc.project_name doc = Some name /\
    proj_ids locals = Some (pid, name) /\
    proj_coord_with_accents locals = Some with_accents.
Proof.
  unfold resolve. simpl.
  destruct (last_row _) as [doc_id |]; [| discriminate].
  destruct (projects_get app doc_id) as [doc |] eqn:G; [| discriminate].
  destruct (Doc.project_name doc) as [name |] eqn:N; [| discriminate].
  destruct (Doc.details doc) as [d |]; [| discriminate].
  intros H. inversion H; subst; simpl. split; [reflexivity |].
  exists doc_id, doc, name. eauto 6.
Qed.

Lemma resolve_cases app pid nt locals connected :
  resolve app pid nt = Ok locals ->
  connected_projects locals = Some connected ->
  (nt = "project" /\ connected = [pid]) \/
  (nt = "flowcell" /\ exists rest, x_flowcells_view app pid = connected :: rest) \/
  (nt = "flowcell_ont" /\ exists rest, nanopore_runs_view app pid = connected :: rest).
Proof.
  unfold resolve.
  destruct (String.eqb_spec nt "project") as [-> | _].
  - intros R C. fold (resolve app pid "project") in R.
    apply resolve_project in R. destruct R as (C' & _).
    left. split; congruence.
  - destruct (String.eqb_spec nt "flowcell") as [-> | _].
    + destruct (x_flowcells_view app pid) as [| v rest]; simpl; [discriminate |].
      intros R C. inversion R; subst; simpl in C. inversion C; subst. eauto.
    + destruct (String.eqb_spec nt "flowcell_ont") as [-> | _].
      * destruct (nanopore_runs_view app pid) as [| v rest]; simpl; [discriminate |].
        intros R C. inversion R; subst; simpl in C. inversion C; subst. eauto 6.
      * intros R C. inversion R; subst. discriminate C.
Qed.

Lemma resolve_project_record app pid locals :
  resolve app pid "project" = Ok locals ->
  exists doc_id doc name with_accents,
    last_row (projects_view app pid) = Some doc_id /\
    projects_get app doc_id = Some doc /\
    Doc.project_name doc = Some name /\
    locals = {| connected_projects := Some [pid]; proj_ids := Some (pid, name);
                proj_coord_with_accents := Some with_accents |}.
Proof.
  unfold resolve. simpl.
  destruct (last_row _) as [doc_id |]; [| discriminate].
  destruct (projects_get app doc_id) as [doc |] eqn:G; [| discriminate].
  destruct (Doc.project_name doc) as [name |] eqn:N; [| discriminate].
  destruct (Doc.details doc) as [d |]; [| discriminate].
  intros H. inversion H; subst. exists doc_id, doc, name. eauto 6.
Qed.

Lemma adds_read_local (P : Event -> Prop) A B name (v : option A) (k : A -> M B) :
  (forall a, v = Some a -> adds P (k a)) -> adds P (bind (read_local name v) k).
Proof.
  intros Hk w r w' H. unfold bind, read_local, lift in H. destruct v as [a |].
  - exact (Hk a eq_refl w r w' H).
  - inversion H; subst. exists []. split; [apply emits_nil | constructor].
Qed.

#[local] Hint Extern 1 (about_project _ _ _) =>
  solve [exact I | reflexivity | simpl; eexists; eexists; reflexivity] : runs.

Lemma notify_user_about app pid name note tagger cats ts wd vr user :
  adds (about_project pid name) (notify_user app pid name note tagger cats ts wd vr user).
Proof. unfold notify_user, slack_path, send_mail. run_adds. Qed.

Lemma notify_tagged_user_about app us pid name note cats tagger ts tagtype :
  adds (about_project pid name)
    (notify_tagged_user app us (pid, name) note cats tagger ts tagtype).
Proof.
  unfold notify_tagged_user. apply adds_bind; [auto with runs | intros _].
  apply adds_for_each. intros x. apply notify_user_about.
Qed.

Lemma notify_project_note_about app locals pid name note cats user email ct :
  proj_ids locals = Some (pid, name) ->
  adds (about_project pid name)
    (notify_project_note app locals note cats user email ct).
Proof.
  intros P. unfold notify_project_note. rewrite P.
  assert (Call : forall us tagtype,
             adds (about_project pid name)
               (project <- read_local "proj_ids" (Some (pid, name)) ;;
                notify_tagged_user app us project note cats user ct tagtype)).
  { intros us tagtype. apply adds_read_local. intros a E. inversion E; subst.
    apply notify_tagged_user_about. }
  apply adds_bind.
  - destruct (Tags.findall note); [apply adds_ret | apply Call].
  - intros _. apply adds_read_local. intros acc _.
    destruct (coordinator_due _ _ _); [apply Call | apply adds_ret].
Qed.

(** C3, as the code has it: a project note that was created carries
    [projects = [parent_id]], one element, and is in the store.  The
    name is the [project_name] of the project's document, and the pair of
    the id and that name goes nowhere but to the dispatcher: what follows
    the save is the call for the tagged users and the call for the
    coordinator, each with that pair, so that every mail and every Slack
    message of the run names the project by its id and its name.  When
    [parent_id] has no row in the project view, or the row's document is
    absent, the call raises and nothing is persisted. *)
Theorem project_note_projects md app pid note cats user email ct w r w' :
  make_running_note md app pid note cats user email "project" ct w = (r, w') ->
  (forall n, r = Ok n ->
     Doc.projects n = [pid] /\ In n (running_notes_db w') /\
     exists doc_id doc name with_accents,
       last_row (projects_view app pid) = Some doc_id /\
       projects_get app doc_id = Some doc /\
       Doc.project_name doc = Some name /\
       resolve app pid "project"
       = Ok {| connected_projects := Some [pid]; proj_ids := Some (pid, name);
               proj_coord_with_accents := Some with_accents |} /\
       let userTags := Tags.findall note in
       let proj_coord := nfkd_ascii app with_accents in
       let saved := {| running_notes_db := (running_notes_db w ++ [n])%list;
                       project_notes := project_notes w;
                       trace := (trace w ++ [Saved n])%list |} in
       ((match userTags with
         | [] => ret tt
         | _ :: _ =>
             notify_tagged_user app userTags (pid, name) note cats user
               (time_of md ct) "userTag"
         end) ;;
        (if coordinator_due proj_coord userTags email
         then notify_tagged_user app [proj_coord] (pid, name) note cats user
                (time_of md ct) "creation"
         else ret tt)) saved
       = (Ok tt, w')) /\
  (forall doc_id doc name,
     last_row (projects_view app pid) = Some doc_id ->
     projects_get app doc_id = Some doc ->
     Doc.project_name doc = Some name ->
     Forall (about_project pid name) (new_events w w')) /\
  (projects_view app pid = [] ->
     r = Raise (UnboundLocalError "doc_id") /\ w' = w) /\
  (forall doc_id,
     last_row (projects_view app pid) = Some doc_id ->
     projects_get app doc_id = None ->
     r = Raise TypeError /\ w' = w).
Proof.
  intros H. split; [| split; [| split]].
  - intros n ->.
    unfold make_running_note, bind at 1, lift in H.
    destruct (resolve app pid "project") as [locals | e] eqn:R; [| discriminate H].
    destruct (resolve_project_record _ _ _ R) as (doc_id & doc & name & acc & L & G & N & ->).
    cbn [connected_projects] in H.
    unfold bind at 1, read_local, lift in H.
    unfold bind at 1, save in H.
    destruct (running_notes_save app (running_notes_db w) _) eqn:Acc; [| discriminate H].
    change (String.eqb "project" "project") with true in H.
    change (is_run_type "project") with false in H. cbv iota in H.
    unfold bind at 1 in H.
    match type of H with
    | (match ?m ?w1 with _ => _ end) = _ => destruct (m w1) as [[[] | e] w2] eqn:NP
    end; [| discriminate H].
    unfold bind, ret in H. inversion H; subst w2. subst n. clear H.
    split; [reflexivity |]. split.
    { destruct (notify_project_note_about app
                  {| connected_projects := Some [pid]; proj_ids := Some (pid, name);
                     proj_coord_with_accents := Some acc |}
                  pid name note cats user email
                  (time_of md ct) eq_refl _ _ _ NP) as (added & (D & _) & _).
      rewrite D. simpl. apply in_or_app. right. left. reflexivity. }
    exists doc_id, doc, name, acc.
    split; [exact L |]. split; [exact G |]. split; [exact N |]. split; [reflexivity |].
    exact NP.
  - intros doc_id doc name L G N.
    unfold make_running_note, bind at 1, lift in H.
    destruct (resolve app pid "project") as [locals | e] eqn:R.
    2:{ inversion H; subst.
        rewrite (new_events_app w' w' []) by (now rewrite app_nil_r). constructor. }
    destruct (resolve_project_record _ _ _ R)
      as (doc_id' & doc' & name' & acc & L' & G' & N' & ->).
    assert (name' = name) by congruence. subst name'.
    cbn [connected_projects] in H.
    unfold bind at 1, read_local, lift in H.
    unfold bind at 1, save in H.
    destruct (running_notes_save app (running_notes_db w) _) eqn:Acc.
    2:{ inversion H; subst.
        rewrite (new_events_app w' w' []) by (now rewrite app_nil_r). constructor. }
    change (String.eqb "project" "project") with true in H.
    change (is_run_type "project") with false in H. cbv iota in H.
    match type of H with
    | ?m ?w1 = _ =>
        assert (A : adds (about_project pid name) m)
    end.
    { pose proof (notify_project_note_about app
                    {| connected_projects := Some [pid]; proj_ids := Some (pid, name);
                       proj_coord_with_accents := Some acc |}
                    pid name note cats user email (time_of md ct) eq_refl).
      run_adds. }
    destruct (A _ _ _ H) as (added & (_ & T) & F).
    rewrite (new_events_app w w' (Saved _ :: added))
      by (rewrite T; simpl; rewrite <- app_assoc; reflexivity).
    constructor; [exact I | exact F].
  - intros V. unfold make_running_note, bind at 1, lift, resolve in H. simpl in H.
    rewrite V in H. simpl in H. inversion H; auto.
  - intros doc_id L G. unfold make_running_note, bind at 1, lift, resolve in H.
    simpl in H. rewrite L, G in H. inversion H; auto.
Qed.

Lemma project_note_projects_witness :
  let app := Sample.app true true in
  let run := make_running_note Sample.md app "P001" "hi @bob" []
               "Dan Doe" "dan@scilifelab.se" "project" None Sample.w0 in
  make_running_note Sample.md app "P001" "hi @bob" []
    "Dan Doe" "dan@scilifelab.se" "project" None Sample.w0 = (fst run, snd run) /\
  last_row (projects_view app "P001") = Some "doc1" /\
  projects_get app "doc1" = Some Sample.project_doc /\
  Doc.project_name Sample.project_doc = Some "A.Smith_24_01" /\
  Forall (about_project "P001" "A.Smith_24_01") (new_events Sample.w0 (snd run)) /\
  map m_subject (mails_of (new_events Sample.w0 (snd run)))
  = ["[GenStat] Running Note:P001, A.Smith_24_01";
     "[GenStat] Running Note:P001, A.Smith_24_01"] /\
  map m_to (mails_of (new_events Sample.w0 (snd run)))
  = ["bob@scilifelab.se"; "alice.smith@scilifelab.se"] /\
  exists n, fst run = Ok n /\ Doc.projects n = ["P001"] /\
            In n (running_notes_db (snd run)).
Proof.
  intros app run.
  destruct (project_note_projects Sample.md app "P001" "hi @bob" []
              "Dan Doe" "dan@scilifelab.se" None Sample.w0 (fst run) (snd run) eq_refl)
    as (Created & About & _).
  split; [reflexivity |]. split; [reflexivity |]. split; [reflexivity |].
  split; [reflexivity |].
  split; [exact (About "doc1" Sample.project_doc "A.Smith_24_01" eq_refl eq_refl eq_refl) |].
  split; [reflexivity |]. split; [reflexivity |].
  eexists. split; [cbv; reflexivity |].
  destruct (Created _ eq_refl) as (P & In_ & _). split; [exact P | exact In_].
Defined.

(** C3 as stated fails: the project note created for "P001", whose
    project is named "A.Smith_24_01", is persisted with the one-element
    [projects] ["P001"]. *)
Lemma project_note_projects_counterexample :
  exists n w',
    make_running_note Sample.md (Sample.app true true) "P001" "hello" []
      "Dan Doe" "dan@scilifelab.se" "project" None Sample.w0 = (Ok n, w') /\
    In n (running_notes_db w') /\
    Doc.project_name Sample.project_doc = Some "A.Smith_24_01" /\
    Doc.projects n <> ["P001"; "A.Smith_24_01"].
Proof.
  eexists. eexists. split; [cbv; reflexivity |].
  split; [left; reflexivity |]. split; [reflexivity | discriminate].
Qed.

(** C4: a create with [note_type] "workset" never resolves [projects]:
    no branch binds [connected_projects], and building the note raises
    before anything is saved. *)
Theorem workset_unresolved md app pid note cats user email ct w :
  make_running_note md app pid note cats user email "workset" ct w
  = (Raise (UnboundLocalError "connected_projects"), w).
Proof. reflexivity. Qed.

(** C5, as the code has it: a note that was created carries the
    [note_type] it was given and is in the store; its [projects] is
    [[parent_id]] for a project note and the value of the first linkage
    row for a flowcell or nanopore run, whatever that list holds. *)
Theorem created_note_fields md app pid note cats user email nt ct w n w' :
  make_running_note md app pid note cats user email nt ct w = (Ok n, w') ->
  Doc.note_type n = nt /\
  In n (running_notes_db w') /\
  ((nt = "project" /\ Doc.projects n = [pid]) \/
   (nt = "flowcell" /\ exists rest, x_flowcells_view app pid = Doc.projects n :: rest) \/
   (nt = "flowcell_ont" /\
    exists rest, nanopore_runs_view app pid = Doc.projects n :: rest)).
Proof.
  intros H.
  destruct (make_running_note_run _ _ _ _ _ _ _ _ _ _ _ _ H)
    as [(_ & e & E) | (locals & connected & rest & R & C & _ & D & _ & _ & Eq)];
    [discriminate |].
  specialize (Eq _ eq_refl). subst n. simpl.
  split; [reflexivity |]. split.
  - rewrite D. apply in_or_app. right. left. reflexivity.
  - exact (resolve_cases _ _ _ _ _ R C).
Qed.

Lemma created_note_fields_witness :
  exists n w',
    make_running_note Sample.md (Sample.app true true) "FC1" "hello" ["Lab"]
      "Dan Doe" "dan@scilifelab.se" "flowcell" None Sample.w0 = (Ok n, w') /\
    Doc.note_type n = "flowcell" /\
    In n (running_notes_db w') /\
    (("flowcell" = "project" /\ Doc.projects n = ["FC1"]) \/
     ("flowcell" = "flowcell" /\
      exists rest, x_flowcells_view (Sample.app true true) "FC1" = Doc.projects n :: rest) \/
     ("flowcell" = "flowcell_ont" /\
      exists rest, nanopore_runs_view (Sample.app true true) "FC1" = Doc.projects n :: rest)).
Proof.
  eexists. eexists. split; [cbv; reflexivity |].
  apply (created_note_fields Sample.md (Sample.app true true) "FC1" "hello" ["Lab"]
           "Dan Doe" "dan@scilifelab.se" "flowcell" None Sample.w0).
  reflexivity.
Defined.

(** C5 as stated fails: a note on the flowcell "FC0", whose linkage row
    holds no project, is created with an empty [projects]. *)
Lemma created_note_fields_counterexample :
  exists n w',
    make_running_note Sample.md (Sample.app true true) "FC0" "hello" ["Lab"]
      "Dan Doe" "dan@scilifelab.se" "flowcell" None Sample.w0 = (Ok n, w') /\
    In n (running_notes_db w') /\
    Doc.projects n = [].
Proof.
  eexists. eexists. split; [cbv; reflexivity |]. split; [left; reflexivity | reflexivity].
Qed.

(** ** The creation time *)

(** C9: with [created_time] left to its default, two successive creates
    with the same arguments build one and the same note: the default was
    evaluated once, when the module was loaded, so both notes have the id
    made of the parent and that one instant. *)
Theorem default_time_same_id md app pid note cats user email nt w n1 w1 n2 w2 :
  make_running_note md app pid note cats user email nt None w = (Ok n1, w1) ->
  make_running_note md app pid note cats user email nt None w1 = (Ok n2, w2) ->
  Doc._id n1 = Doc._id n2 /\
  Doc._id n1 = pid ++ ":" ++ timestamp app (created_time_default md) /\
  n1 = n2 /\
  running_notes_db w2 = (running_notes_db w ++ [n1; n1])%list.
Proof.
  intros H1 H2.
  destruct (make_running_note_run _ _ _ _ _ _ _ _ _ _ _ _ H1)
    as [(_ & e & E) | (l1 & c1 & r1 & R1 & C1 & _ & D1 & _ & _ & Eq1)];
    [discriminate |].
  destruct (make_running_note_run _ _ _ _ _ _ _ _ _ _ _ _ H2)
    as [(_ & e & E) | (l2 & c2 & r2 & R2 & C2 & _ & D2 & _ & _ & Eq2)];
    [discriminate |].
  specialize (Eq1 _ eq_refl). specialize (Eq2 _ eq_refl).
  assert (l1 = l2) by congruence. subst l2.
  assert (c1 = c2) by congruence. subst c2 n1 n2.
  split; [reflexivity |]. split; [reflexivity |]. split; [reflexivity |].
  rewrite D2, D1, <- app_assoc. reflexivity.
Qed.

Lemma default_time_same_id_witness :
  exists n1 w1 n2 w2,
    make_running_note Sample.md (Sample.app true true) "P001" "hello" []
      "Dan Doe" "dan@scilifelab.se" "project" None Sample.w0 = (Ok n1, w1) /\
    make_running_note Sample.md (Sample.app true true) "P001" "hello" []
      "Dan Doe" "dan@scilifelab.se" "project" None w1 = (Ok n2, w2) /\
    Doc._id n1 = Doc._id n2 /\
    Doc._id n1 = "P001:1700000000.0" /\
    n1 = n2 /\
    running_notes_db w2 = (running_notes_db Sample.w0 ++ [n1; n1])%list.
Proof.
  eexists. eexists. eexists. eexists.
  split; [cbv; reflexivity |]. split; [cbv; reflexivity |].
  eapply (default_time_same_id Sample.md (Sample.app true true) "P001" "hello" []
            "Dan Doe" "dan@scilifelab.se" "project" Sample.w0); cbv; reflexivity.
Defined.

(** ** Propagation to the connected projects *)

Lemma make_project_running_note_legacy app proj n c u e :
  adds from_legacy (make_project_running_note app proj n c u e).
Proof.
  intros w r w' H. inversion H; subst.
  eexists. split; [split; simpl; reflexivity |].
  apply Forall_forall. intros ev I. apply in_map_iff in I.
  destruct I as ([p | pr us] & <- & _); exact Logic.I.
Qed.

Lemma propagate_loop_silent app body cat u e connected : forall w,
  (forall p stored,
     legacy_make_project_running_note app p stored = (Ok tt, [WriteNote p])) ->
  for_each connected
    (fun proj_id => make_project_running_note app proj_id body cat u e) w
  = (Ok tt,
     {| running_notes_db := running_notes_db w;
        project_notes :=
          (project_notes w
           ++ map (fun proj_id => {| p_project := proj_id; p_note := body;
                                     p_category := cat; p_user := u; p_email := e |})
                connected)%list;
        trace :=
          (trace w
           ++ map ProjectNoteWritten
                (map (fun proj_id => {| p_project := proj_id; p_note := body;
                                        p_category := cat; p_user := u; p_email := e |})
                   connected))%list |}).
Proof.
  intros w Silent. revert w.
  induction connected as [| p rest IH]; intros w; simpl.
  - destruct w; simpl. rewrite !app_nil_r. reflexivity.
  - unfold bind at 1, make_project_running_note at 1. rewrite Silent. simpl.
    rewrite IH. simpl. rewrite <- !app_assoc. reflexivity.
Qed.

(** C2, as the code has it: when the linkage of a flowcell or nanopore-run
    note resolves to [connected] and the store takes the note, the create
    is the save followed by one call of the legacy handler
    [make_project_running_note] per element of [connected], in order and
    up to the first call that raises, and nothing else.  Each call gets
    the original text behind the header line, which names the kind
    "flowcell" and links to the parent under /flowcells/ or
    /flowcells_ont/, and the categories joined by a comma and a space.
    The create itself never calls the dispatcher and saves no other note:
    behind the save, the trace holds only what the legacy handler did.
    With a legacy handler that only writes the note, there is exactly one
    project note per connected project. *)
Theorem run_note_propagation
    md app pid note cats user email nt ct w locals connected :
  nt = "flowcell" \/ nt = "flowcell_ont" ->
  resolve app pid nt = Ok locals ->
  connected_projects locals = Some connected ->
  running_notes_save app (running_notes_db w)
    (new_note app pid note cats user email nt (time_of md ct) connected) = true ->
  let n := new_note app pid note cats user email nt (time_of md ct) connected in
  let segment := if String.eqb nt "flowcell" then "flowcells" else "flowcells_ont" in
  let link := "<a class='text-decoration-none' href='/" ++ segment ++ "/" ++ pid
                ++ "'>" ++ pid ++ "</a>" in
  let body :=
    ("#####*Running note posted on flowcell " ++ link ++ ":*" ++ PyStr.nl) ++ note in
  let saved := {| running_notes_db := (running_notes_db w ++ [n])%list;
                  project_notes := project_notes w;
                  trace := (trace w ++ [Saved n])%list |} in
  let calls :=
    for_each connected
      (fun proj_id =>
         make_project_running_note app proj_id body (PyStr.join ", " cats) user email)
      saved in
  make_running_note md app pid note cats user email nt ct w
  = (match fst calls with Ok _ => Ok n | Raise e => Raise e end, snd calls) /\
  running_notes_db (snd calls) = (running_notes_db w ++ [n])%list /\
  (exists rest,
     new_events w (snd calls) = Saved n :: rest /\ Forall from_legacy rest) /\
  ((forall p stored,
      legacy_make_project_running_note app p stored = (Ok tt, [WriteNote p])) ->
   let derived :=
     map (fun proj_id => {| p_project := proj_id; p_note := body;
                            p_category := PyStr.join ", " cats;
                            p_user := user; p_email := email |}) connected in
   fst calls = Ok tt /\
   project_notes (snd calls) = (project_notes w ++ derived)%list /\
   new_events w (snd calls) = Saved n :: map ProjectNoteWritten derived).
Proof.
  intros NT R C Acc n segment link body saved calls.
  assert (Frame : exists rest, emits saved (snd calls) rest /\ Forall from_legacy rest).
  { apply (adds_for_each from_legacy string connected _
             (fun x => make_project_running_note_legacy app x body
                         (PyStr.join ", " cats) user email)
             saved (fst calls) (snd calls)).
    subst calls. apply surjective_pairing. }
  destruct Frame as (rest & (D & T) & F).
  split; [| split; [exact D | split]].
  - unfold make_running_note, bind at 1, lift. rewrite R.
    unfold bind at 1, read_local, lift. rewrite C.
    unfold bind at 1, save. rewrite Acc. fold n. fold saved.
    assert (Tail : (if is_run_type nt
                    then propagate app connected pid note cats user email nt
                    else ret tt) saved = calls).
    { subst calls body link segment. destruct NT as [-> | ->]; reflexivity. }
    assert (NP : String.eqb nt "project" = false)
      by (destruct NT as [-> | ->]; reflexivity).
    rewrite NP. unfold bind at 1, ret at 1. unfold bind at 1. rewrite Tail.
    destruct calls as [[[] | e] w2]; reflexivity.
  - exists rest. split; [| exact F].
    apply new_events_app. rewrite T. simpl. rewrite <- app_assoc. reflexivity.
  - intros Silent derived.
    pose proof (propagate_loop_silent app body (PyStr.join ", " cats) user email
                  connected saved Silent) as Loop.
    fold calls in Loop. rewrite Loop. simpl.
    split; [reflexivity |]. split; [reflexivity |].
    apply new_events_app. rewrite <- app_assoc. reflexivity.
Qed.

Lemma run_note_propagation_witness :
  let app := Sample.app true true in
  let cats := ["Lab"; "Bio"] in
  let locals := {| connected_projects := Some ["P001"; "P002"]; proj_ids := None;
                   proj_coord_with_accents := None |} in
  let n := new_note app "FC1" "hi @bob" cats "Dan Doe" "dan@scilifelab.se" "flowcell"
             (time_of Sample.md None) ["P001"; "P002"] in
  let body :=
    "#####*Running note posted on flowcell <a class='text-decoration-none' href='/flowcells/FC1'>FC1</a>:*"
      ++ PyStr.nl ++ "hi @bob" in
  let derived :=
    map (fun proj_id => {| p_project := proj_id; p_note := body;
                           p_category := "Lab, Bio";
                           p_user := "Dan Doe"; p_email := "dan@scilifelab.se" |})
      ["P001"; "P002"] in
  ("flowcell" = "flowcell" \/ "flowcell" = "flowcell_ont") /\
  resolve app "FC1" "flowcell" = Ok locals /\
  running_notes_save app (running_notes_db Sample.w0) n = true /\
  make_running_note Sample.md app "FC1" "hi @bob" cats "Dan Doe" "dan@scilifelab.se"
    "flowcell" None Sample.w0
  = (Ok n,
     {| running_notes_db := [n];
        project_notes := derived;
        trace := Saved n :: map ProjectNoteWritten derived |}).
Proof.
  intros app cats locals n body derived.
  split; [left; reflexivity |]. split; [reflexivity |]. split; [reflexivity |].
  destruct (run_note_propagation Sample.md app "FC1" "hi @bob" cats "Dan Doe"
              "dan@scilifelab.se" "flowcell" None Sample.w0 locals ["P001"; "P002"]
              (or_introl eq_refl) eq_refl eq_refl eq_refl) as (Run & _).
  rewrite Run. reflexivity.
Defined.

(** C2 as stated fails.  With the legacy handler as the spec reports the
    source, writing the derived notes of a flowcell note that tags a user
    runs the user-tag notification again, once per connected project;
    and with a legacy handler whose write fails for the second of two
    connected projects, one derived note is written, not two. *)
Lemma run_note_propagation_counterexample :
  (exists n w',
     make_running_note Sample.md
       (Sample.installation true true true Sample.legacy_notifying)
       "FC1" "hi @bob" ["Lab"] "Dan Doe" "dan@scilifelab.se" "flowcell" None Sample.w0
     = (Ok n, w') /\
     Doc.projects n = ["P001"; "P002"] /\
     In (LegacyDispatch "P001" ["bob"]) (trace w') /\
     In (LegacyDispatch "P002" ["bob"]) (trace w')) /\
  (exists w',
     make_running_note Sample.md
       (Sample.installation true true true Sample.legacy_failing)
       "FC1" "hi @bob" ["Lab"] "Dan Doe" "dan@scilifelab.se" "flowcell" None Sample.w0
     = (Raise StoreError, w') /\
     x_flowcells_view (Sample.installation true true true Sample.legacy_failing) "FC1"
     = [["P001"; "P002"]] /\
     length (running_notes_db w') = 1 /\
     map p_project (project_notes w') = ["P001"]).
Proof.
  split.
  - eexists. eexists. split; [cbv; reflexivity |]. split; [reflexivity |].
    split; [right; right; left; reflexivity |].
    right; right; right; right; left; reflexivity.
  - eexists. split; [cbv; reflexivity |].
    split; [reflexivity |]. split; reflexivity.
Qed.

(** ** The POST handler *)

(** C7: a request without a note, or with an empty one, is answered 400
    and leaves the world as it was; a request with a note that is
    answered at all is answered 201 with the note that was created, now
    the last one of the store. *)
Theorem post_status md app current pid data w r w' :
  post md app current pid data w = (r, w') ->
  (rq_note data = None \/ rq_note data = Some "" ->
   r = Ok {| status := 400;
             body := Html "<html><body>No project id or note parameters found</body></html>" |}
   /\ w' = w) /\
  (forall text resp,
     rq_note data = Some text -> text <> "" -> r = Ok resp ->
     status resp = 201%Z /\
     exists n kept,
       body resp = Json n /\ Doc.note n = text /\ Doc.parent n = pid /\
       running_notes_db w' = (running_notes_db w ++ [n])%list /\
       trace w' = (trace w ++ Saved n :: kept)%list).
Proof.
  unfold post. intros H. split.
  - intros E. assert (N : get_default (rq_note data) "" = "")
      by (destruct E as [-> | ->]; reflexivity).
    rewrite N in H. simpl in H. inversion H; auto.
  - intros text resp E Ne ->. rewrite E in H. unfold get_default at 1 in H.
    destruct (String.eqb text "") eqn:T0 in H;
      [apply String.eqb_eq in T0; contradiction |].
    unfold bind at 1 in H.
    destruct (make_running_note _ _ _ _ _ _ _ _ _ w) as [[n | e] w1] eqn:Run;
      [| discriminate].
    inversion H; subst. simpl. split; [reflexivity |].
    destruct (make_running_note_run _ _ _ _ _ _ _ _ _ _ _ _ Run)
      as [(_ & e & E') | (locals & connected & rest & _ & _ & _ & D & T & _ & Eq)];
      [discriminate |].
    specialize (Eq _ eq_refl). subst n.
    eexists. exists rest. repeat split; eauto.
Qed.

Lemma post_status_witness :
  let app := Sample.app true true in
  let empty := {| rq_note := Some ""; rq_categories := None;
                  rq_note_type := Some "project" |} in
  let filled := {| rq_note := Some "hello"; rq_categories := Some ["Lab"];
                   rq_note_type := Some "project" |} in
  let run := post Sample.md app Sample.author "P001" filled Sample.w0 in
  (post Sample.md app Sample.author "P001" empty Sample.w0
   = (Ok {| status := 400;
            body := Html "<html><body>No project id or note parameters found</body></html>" |},
      Sample.w0)) /\
  (exists resp, fst run = Ok resp /\ status resp = 201%Z /\
     exists n kept,
       body resp = Json n /\ Doc.note n = "hello" /\ Doc.parent n = "P001" /\
       running_notes_db (snd run) = (running_notes_db Sample.w0 ++ [n])%list /\
       trace (snd run) = (trace Sample.w0 ++ Saved n :: kept)%list).
Proof.
  intros app empty filled run. split.
  - pose (bad := post Sample.md app Sample.author "P001" empty Sample.w0).
    destruct (post_status Sample.md app Sample.author "P001" empty Sample.w0
                (fst bad) (snd bad) eq_refl) as (Bad & _).
    destruct (Bad (or_intror eq_refl)) as (R & W).
    change (bad = (Ok {| status := 400;
                         body := Html "<html><body>No project id or note parameters found</body></html>" |},
                   Sample.w0)).
    rewrite (surjective_pairing bad), R, W. reflexivity.
  - destruct (post_status Sample.md app Sample.author "P001" filled Sample.w0
                (fst run) (snd run) eq_refl) as (_ & Good).
    eexists. split; [cbv; reflexivity |].
    apply (Good "hello"); [reflexivity | discriminate | cbv; reflexivity].
Defined.

(** ** The coordinator *)

Lemma mem_In x xs : PyStr.mem x xs = true <-> In x xs.
Proof.
  unfold PyStr.mem. rewrite existsb_exists. split.
  - intros (y & I & E). apply String.eqb_eq in E. now subst.
  - intros I. exists x. split; [exact I | apply String.eqb_refl].
Qed.

Lemma coordinator_due_spec coord tags email :
  coordinator_due coord tags email = true <->
  coord <> "" /\ ~ In coord tags /\ coord <> PyStr.split_head "@" email.
Proof.
  unfold coordinator_due. rewrite !andb_true_iff, !negb_true_iff.
  rewrite !String.eqb_neq, <- mem_In, not_true_iff_false. tauto.
Qed.

Lemma delivery_not_creation e : is_delivery e -> not_creation e.
Proof. destruct e; simpl; intros []; intros us; discriminate. Qed.

Lemma tag_phase_adds app locals tags note cats user ct :
  adds not_creation
    (match tags with
     | [] => ret tt
     | _ => project <- read_local "proj_ids" (proj_ids locals) ;;
            notify_tagged_user app tags project note cats user ct "userTag"
     end).
Proof.
  destruct tags as [| t tags]; [apply adds_ret |].
  apply adds_bind; [unfold read_local; apply adds_lift | intros project].
  intros w r w' H.
  destruct (notify_tagged_user_events _ _ _ _ _ _ _ _ _ _ _ H) as (ds & E & F).
  eexists. split; [exact E |]. constructor.
  - intros us; discriminate.
  - eapply Forall_impl; [apply delivery_not_creation | exact F].
Qed.

Lemma notify_project_note_dispatch
    app locals note cats user email ct project with_accents w r w' :
  proj_ids locals = Some project ->
  proj_coord_with_accents locals = Some with_accents ->
  notify_project_note app locals note cats user email ct w = (r, w') ->
  let coord := nfkd_ascii app with_accents in
  exists added,
    emits w w' added /\
    (forall us, In (Dispatch "creation" us) added ->
       us = [coord] /\ coordinator_due coord (Tags.findall note) email = true) /\
    (r = Ok tt -> coordinator_due coord (Tags.findall note) email = true ->
     In (Dispatch "creation" [coord]) added).
Proof.
  intros P A H coord. unfold notify_project_note in H.
  unfold bind at 1 in H.
  match type of H with
  | (match ?m w with _ => _ end) = _ => destruct (m w) as [[[] | e] w1] eqn:Tag
  end.
  2:{ inversion H; subst.
      destruct (tag_phase_adds _ _ _ _ _ _ _ _ _ _ Tag) as (a1 & E1 & F1).
      exists a1. split; [exact E1 |]. split; [| discriminate].
      intros us I. rewrite Forall_forall in F1. destruct (F1 _ I us eq_refl). }
  destruct (tag_phase_adds _ _ _ _ _ _ _ _ _ _ Tag) as (a1 & E1 & F1).
  rewrite Forall_forall in F1.
  rewrite A, P in H. unfold bind at 1, read_local, lift in H.
  fold coord in H.
  destruct (coordinator_due coord (Tags.findall note) email) eqn:Due.
  - unfold bind at 1, read_local, lift in H.
    destruct (notify_tagged_user_events _ _ _ _ _ _ _ _ _ _ _ H) as (ds & E2 & F2).
    rewrite Forall_forall in F2.
    exists (a1 ++ Dispatch "creation" [coord] :: ds)%list.
    split; [eapply emits_app; eauto |]. split.
    + intros us I. apply in_app_or in I. destruct I as [I | [I | I]].
      * destruct (F1 _ I us eq_refl).
      * inversion I; auto.
      * destruct (F2 _ I).
    + intros _ _. apply in_or_app. right. left. reflexivity.
  - inversion H; subst. exists a1. split; [exact E1 |]. split; [| discriminate].
    intros us I. destruct (F1 _ I us eq_refl).
Qed.

(** ** The dispatcher *)

Section Dispatcher.

Variable app : Application.
Variables (project_id project_name note tagger : string).
Variable categories : list string.
Variable ts : datetime.
Variable wd : Wording.

Let text := notification_text project_id project_name tagger wd.
Let blocks_ := blocks app project_id project_name note tagger categories ts wd.
Let mail := mail_for app project_id project_name note tagger categories ts wd.

Lemma mails_of_app a b : mails_of (a ++ b) = (mails_of a ++ mails_of b)%list.
Proof. unfold mails_of. apply flat_map_app. Qed.

(** The [try] never raises: it hands back the preference, or "E-mail"
    when one of the Slack calls failed. *)
Lemma slack_phase_run address option w :
  exists w1 a1,
    try_except
      (slack_path app project_id project_name note tagger categories ts wd address ;;
       ret option)
      (ret "E-mail") w
    = (Ok (if slack_answers app text blocks_ address then option else "E-mail"), w1) /\
    emits w w1 a1 /\ mails_of a1 = [].
Proof.
  unfold try_except, slack_path, slack_answers, call_opt, call_bool, log, ret, raise.
  fold text. fold blocks_. unfold bind, emits.
  destruct (users_lookupByEmail app address) as [userid |]; simpl.
  2:{ eexists. eexists. split; [reflexivity |]. simpl. split; [split |]; reflexivity. }
  destruct (conversations_open app userid) as [channel |]; simpl.
  2:{ eexists. eexists. split; [reflexivity |]. simpl.
      rewrite <- !app_assoc. split; [split |]; reflexivity. }
  destruct (chat_postMessage app _); simpl.
  2:{ eexists. eexists. split; [reflexivity |]. simpl.
      rewrite <- !app_assoc. split; [split |]; reflexivity. }
  destruct (conversations_close app channel); simpl.
  - eexists. eexists. split; [reflexivity |]. simpl.
    rewrite <- !app_assoc. split; [split |]; reflexivity.
  - eexists. eexists. split; [reflexivity |]. simpl.
    rewrite <- !app_assoc. split; [split |]; reflexivity.
Qed.

Hypothesis relay_up : forall m, smtp_sendmail app m = true.

Lemma notify_user_returns user w :
  exists w' added,
    notify_user app project_id project_name note tagger categories ts wd
      (view_result_of (gs_users app)) user w = (Ok tt, w') /\
    emits w w' added /\
    map m_to (mails_of added) = mailed app text blocks_ user.
Proof.
  unfold notify_user, mailed.
  destruct (PyDict.get user (view_result_of (gs_users app))) as [address |].
  2:{ exists w, []. split; [reflexivity |]. split; [apply emits_nil | reflexivity]. }
  fold (get_default (notification_preferences app address) "Both").
  set (option := get_default (notification_preferences app address) "Both").
  assert (Mail : forall o w1 a1,
             emits w w1 a1 -> mails_of a1 = [] ->
             exists w' added,
               (if wants_mail o
                then send_mail app project_id project_name note tagger categories ts
                       wd address
                else ret tt) w1 = (Ok tt, w') /\
               emits w w' added /\
               map m_to (mails_of added) = if wants_mail o then [address] else []).
  { intros o w1 a1 E1 M1. destruct (wants_mail o).
    - unfold send_mail, call_bool, bind, log. rewrite relay_up. simpl.
      eexists. exists (a1 ++ [MailSubmit (mail address)])%list.
      split; [reflexivity |]. split.
      + eapply emits_app; [exact E1 |]. split; reflexivity.
      + rewrite mails_of_app, M1. reflexivity.
    - exists w1, a1. split; [reflexivity |]. split; [exact E1 |]. now rewrite M1. }
  unfold bind at 1. destruct (wants_slack option) eqn:WS.
  - destruct (slack_phase_run address option w) as (w1 & a1 & -> & E1 & M1).
    destruct (Mail (if slack_answers app text blocks_ address then option else "E-mail")
                w1 a1 E1 M1) as (w' & added & Run & E & M).
    exists w', added. split; [exact Run |]. split; [exact E |]. rewrite M.
    destruct (slack_answers app text blocks_ address); simpl.
    + rewrite orb_false_r. reflexivity.
    + rewrite orb_true_r. reflexivity.
  - unfold ret at 1.
    destruct (Mail option w [] (emits_nil w) eq_refl) as (w' & added & Run & E & M).
    exists w', added. split; [exact Run |]. split; [exact E |]. rewrite M.
    simpl. rewrite orb_false_r. reflexivity.
Qed.

Lemma notify_loop_returns users : forall w,
  exists w' added,
    for_each users
      (notify_user app project_id project_name note tagger categories ts wd
         (view_result_of (gs_users app))) w = (Ok tt, w') /\
    emits w w' added /\
    map m_to (mails_of added) = flat_map (mailed app text blocks_) users.
Proof.
  induction users as [| u rest IH]; intros w; simpl.
  - exists w, []. split; [reflexivity |]. split; [apply emits_nil | reflexivity].
  - destruct (notify_user_returns u w) as (w1 & a1 & R1 & E1 & M1).
    destruct (IH w1) as (w2 & a2 & R2 & E2 & M2).
    exists w2, (a1 ++ a2)%list. unfold bind. rewrite R1. split; [exact R2 |].
    split; [eapply emits_app; eauto |].
    rewrite mails_of_app, map_app, M1, M2. reflexivity.
Qed.

End Dispatcher.

(** C1, as the code has it: a failure of the Slack path is caught; the
    user concerned is mailed instead and the users after it are still
    served.  As long as the mail relay takes every message, the
    dispatcher returns, having mailed exactly the users whose preference
    includes e-mail or whose Slack path failed, and a create of a project
    note whose project resolves and whose note the store takes returns
    the note.  Nothing is said of a relay that refuses: its exception is
    not caught. *)
Theorem slack_failure_falls_back app :
  (forall m, smtp_sendmail app m = true) ->
  (forall us project note cats tagger ts tagtype w,
     exists w' ds,
       notify_tagged_user app us project note cats tagger ts tagtype w = (Ok tt, w') /\
       running_notes_db w' = running_notes_db w /\
       new_events w w' = Dispatch tagtype us :: ds /\
       map m_to (mails_of ds)
       = flat_map
           (mailed app
              (notification_text (fst project) (snd project) tagger (wording tagtype tagger))
              (blocks app (fst project) (snd project) note tagger cats ts
                 (wording tagtype tagger)))
           us) /\
  (forall md pid note cats user email ct w locals,
     resolve app pid "project" = Ok locals ->
     running_notes_save app (running_notes_db w)
       (new_note app pid note cats user email "project" (time_of md ct) [pid]) = true ->
     exists w',
       make_running_note md app pid note cats user email "project" ct w
       = (Ok (new_note app pid note cats user email "project" (time_of md ct) [pid]), w')).
Proof.
  intros Up.
  assert (Notify : forall us project note cats tagger ts tagtype w,
             exists w' ds,
               notify_tagged_user app us project note cats tagger ts tagtype w
               = (Ok tt, w') /\
               running_notes_db w' = running_notes_db w /\
               new_events w w' = Dispatch tagtype us :: ds /\
               map m_to (mails_of ds)
               = flat_map
                   (mailed app
                      (notification_text (fst project) (snd project) tagger
                         (wording tagtype tagger))
                      (blocks app (fst project) (snd project) note tagger cats ts
                         (wording tagtype tagger)))
                   us).
  { intros us project note cats tagger ts tagtype w.
    unfold notify_tagged_user, bind at 1. simpl.
    match goal with
    | |- context [for_each us ?body ?w1] =>
        destruct (notify_loop_returns app (fst project) (snd project) note tagger cats
                    ts (wording tagtype tagger) Up us w1)
          as (w' & ds & Run & (D & T) & M)
    end.
    exists w', ds. split; [exact Run |]. split; [exact D |]. split; [| exact M].
    apply new_events_app. rewrite T. simpl. rewrite <- app_assoc. reflexivity. }
  split; [exact Notify |].
  intros md pid note cats user email ct w locals R Acc.
  destruct (resolve_project _ _ _ R) as (C & _ & _ & name & acc & _ & _ & _ & P & A).
  unfold make_running_note, bind at 1, lift. rewrite R.
  unfold bind at 1, read_local, lift. rewrite C.
  unfold bind at 1, save. rewrite Acc. simpl.
  unfold notify_project_note. rewrite P, A.
  set (w1 := {| running_notes_db := _; project_notes := _; trace := _ |}).
  assert (Tag : exists w2,
             (match Tags.findall note with
              | [] => ret tt
              | _ :: _ =>
                  project <- read_local "proj_ids" (Some (pid, name)) ;;
                  notify_tagged_user app (Tags.findall note) project note cats user
                    (time_of md ct) "userTag"
              end) w1 = (Ok tt, w2)).
  { destruct (Tags.findall note) as [| t tags]; [exists w1; reflexivity |].
    unfold bind at 1, read_local, lift.
    destruct (Notify (t :: tags) (pid, name) note cats user (time_of md ct) "userTag" w1)
      as (w2 & _ & Run & _).
    exists w2. exact Run. }
  destruct Tag as (w2 & Tag).
  unfold bind at 1. unfold bind at 1. rewrite Tag.
  unfold bind at 1, read_local, lift.
  destruct (coordinator_due _ _ _).
  - unfold bind at 1, lift.
    destruct (Notify [nfkd_ascii app acc] (pid, name) note cats user (time_of md ct)
                "creation" w2) as (w3 & _ & Run & _).
    rewrite Run. eexists. reflexivity.
  - eexists. reflexivity.
Qed.

Lemma slack_failure_falls_back_witness :
  let app := Sample.app false true in
  (forall m, smtp_sendmail app m = true) /\
  (exists w' ds,
     notify_tagged_user app ["bob"; "carol"; "nobody"; "alice.smith"]
       ("P001", "A.Smith_24_01") "hi" [] "Dan Doe" 0%Z "userTag" Sample.w0 = (Ok tt, w') /\
     running_notes_db w' = running_notes_db Sample.w0 /\
     new_events Sample.w0 w'
     = Dispatch "userTag" ["bob"; "carol"; "nobody"; "alice.smith"] :: ds /\
     map m_to (mails_of ds)
     = ["bob@scilifelab.se"; "carol@scilifelab.se"; "alice.smith@scilifelab.se"]).
Proof.
  intros app.
  assert (Up : forall m, smtp_sendmail app m = true) by (intros m; reflexivity).
  split; [exact Up |].
  destruct (slack_failure_falls_back app Up) as (Notify & _).
  exact (Notify ["bob"; "carol"; "nobody"; "alice.smith"] ("P001", "A.Smith_24_01")
           "hi" [] "Dan Doe" 0%Z "userTag" Sample.w0).
Defined.

(** C1 as stated fails: with Slack and the mail relay both down, the
    dispatcher raises on a user whose preference is Slack, and the create
    that called it raises too, the note being already in the store. *)
Lemma slack_failure_falls_back_counterexample :
  (exists w',
     notify_tagged_user (Sample.app false false) ["carol"] ("P001", "A.Smith_24_01")
       "hi @carol" [] "Dan Doe" 0%Z "userTag" Sample.w0 = (Raise SMTPException, w')) /\
  (exists w',
     make_running_note Sample.md (Sample.app false false) "P001" "hi @carol" []
       "Dan Doe" "dan@scilifelab.se" "project" None Sample.w0
     = (Raise SMTPException, w') /\
     length (running_notes_db w') = 1).
Proof.
  split.
  - eexists. cbv. reflexivity.
  - eexists. split; [cbv; reflexivity | reflexivity].
Qed.

(** ** What one user is sent *)

Section Deliveries.

Variable app : Application.
Variables (project_id project_name note tagger : string).
Variable categories : list string.
Variable ts : datetime.
Variable wd : Wording.

Let text := notification_text project_id project_name tagger wd.
Let blocks_ := blocks app project_id project_name note tagger categories ts wd.
Let mail := mail_for app project_id project_name note tagger categories ts wd.

Lemma slack_phase_events address option w :
  exists w1,
    try_except
      (slack_path app project_id project_name note tagger categories ts wd address ;;
       ret option)
      (ret "E-mail") w
    = (Ok (if slack_answers app text blocks_ address then option else "E-mail"), w1) /\
    emits w w1 (slack_events app text blocks_ address).
Proof.
  unfold try_except, slack_path, slack_answers, slack_events, call_opt, call_bool,
    log, ret, raise.
  fold text. fold blocks_. unfold bind, emits.
  destruct (users_lookupByEmail app address) as [userid |]; simpl.
  2:{ eexists. split; [reflexivity |]. simpl. split; reflexivity. }
  destruct (conversations_open app userid) as [channel |]; simpl.
  2:{ eexists. split; [reflexivity |]. simpl. rewrite <- !app_assoc. split; reflexivity. }
  destruct (chat_postMessage app _); simpl.
  2:{ eexists. split; [reflexivity |]. simpl. rewrite <- !app_assoc. split; reflexivity. }
  destruct (conversations_close app channel); simpl.
  - eexists. split; [reflexivity |]. simpl. rewrite <- !app_assoc. split; reflexivity.
  - eexists. split; [reflexivity |]. simpl. rewrite <- !app_assoc. split; reflexivity.
Qed.

Lemma mail_step address (due : bool) w :
  exists w',
    (if due
     then send_mail app project_id project_name note tagger categories ts wd address
     else ret tt) w
    = (outcome_of_mails app (map mail (if due then [address] else [])), w') /\
    emits w w' (map (fun a => MailSubmit (mail a)) (if due then [address] else [])).
Proof.
  destruct due.
  - unfold send_mail, call_bool, bind, log, outcome_of_mails. fold mail. simpl.
    destruct (smtp_sendmail app (mail address)); simpl;
      eexists; (split; [reflexivity |]); split; reflexivity.
  - exists w. split; [reflexivity | apply emits_nil].
Qed.

(** One user: the events are those of [deliveries], and the call raises
    exactly when the relay refuses the mail. *)
Lemma notify_user_events user w :
  exists w',
    notify_user app project_id project_name note tagger categories ts wd
      (view_result_of (gs_users app)) user w
    = (outcome_of_mails app (map mail (mailed app text blocks_ user)), w') /\
    emits w w'
      (deliveries app project_id project_name note tagger categories ts wd user).
Proof.
  unfold notify_user, deliveries, mailed. fold text. fold blocks_. fold mail.
  destruct (PyDict.get user (view_result_of (gs_users app))) as [address |].
  2:{ exists w. split; [reflexivity | apply emits_nil]. }
  fold (get_default (notification_preferences app address) "Both").
  set (option := get_default (notification_preferences app address) "Both").
  unfold bind at 1. destruct (wants_slack option) eqn:WS.
  - destruct (slack_phase_events address option w) as (w1 & -> & E1).
    destruct (slack_answers app text blocks_ address); cbn [andb negb].
    + rewrite orb_false_r.
      destruct (mail_step address (wants_mail option) w1) as (w' & Run & E2).
      exists w'. split; [exact Run | exact (emits_app _ _ _ _ _ E1 E2)].
    + rewrite orb_true_r.
      destruct (mail_step address true w1) as (w' & Run & E2).
      exists w'. split; [exact Run | exact (emits_app _ _ _ _ _ E1 E2)].
  - unfold ret at 1. cbn [andb List.app]. rewrite orb_false_r.
    destruct (mail_step address (wants_mail option) w) as (w' & Run & E2).
    exists w'. split; [exact Run | exact E2].
Qed.

Lemma deliveries_are_deliveries user :
  Forall is_delivery
    (deliveries app project_id project_name note tagger categories ts wd user).
Proof.
  destruct (notify_user_events user
              {| running_notes_db := []; project_notes := []; trace := [] |})
    as (w' & Run & (_ & T)).
  destruct (notify_user_adds _ _ _ _ _ _ _ _ _ _ _ _ _ Run) as (added & (_ & T') & F).
  rewrite T in T'. apply app_inv_head in T'. now subst.
Qed.

End Deliveries.

Lemma notify_one_events app pid name note cats tagger ts tagtype user w r w' :
  notify_tagged_user app [user] (pid, name) note cats tagger ts tagtype w = (r, w') ->
  emits w w'
    (Dispatch tagtype [user]
     :: deliveries app pid name note tagger cats ts (wording tagtype tagger) user) /\
  r = outcome_of_mails app
        (map (mail_for app pid name note tagger cats ts (wording tagtype tagger))
           (mailed app (notification_text pid name tagger (wording tagtype tagger))
              (blocks app pid name note tagger cats ts (wording tagtype tagger)) user)).
Proof.
  unfold notify_tagged_user, bind at 1. simpl fst. simpl snd.
  cbn [log for_each]. unfold bind at 1.
  match goal with
  | |- context [notify_user _ _ _ _ _ _ _ _ _ _ ?w1] =>
      destruct (notify_user_events app pid name note tagger cats ts
                  (wording tagtype tagger) user w1) as (w2 & Run & (D & T))
  end.
  rewrite Run. unfold outcome_of_mails.
  destruct (forallb _ _); intros H; inversion H; subst; (split; [| reflexivity]);
    split; simpl in *; try assumption; rewrite T, <- app_assoc; reflexivity.
Qed.

(** ** The coordinator, continued *)

Lemma notify_project_note_coordinator
    app locals pid name acc note cats user email ct w r w' :
  proj_ids locals = Some (pid, name) ->
  proj_coord_with_accents locals = Some acc ->
  notify_project_note app locals note cats user email ct w = (r, w') ->
  let coord := nfkd_ascii app acc in
  exists before,
    Forall not_creation before /\
    ((emits w w' before /\
      (r = Ok tt -> coordinator_due coord (Tags.findall note) email = false)) \/
     (coordinator_due coord (Tags.findall note) email = true /\
      emits w w'
        (before ++ Dispatch "creation" [coord]
           :: deliveries app pid name note user cats ct (wording "creation" user) coord))).
Proof.
  intros P A H coord. unfold notify_project_note in H.
  unfold bind at 1 in H.
  match type of H with
  | (match ?m w with _ => _ end) = _ => destruct (m w) as [[[] | e] w1] eqn:Tag
  end.
  2:{ inversion H; subst.
      destruct (tag_phase_adds _ _ _ _ _ _ _ _ _ _ Tag) as (a1 & E1 & F1).
      exists a1. split; [exact F1 |]. left. split; [exact E1 | discriminate]. }
  destruct (tag_phase_adds _ _ _ _ _ _ _ _ _ _ Tag) as (a1 & E1 & F1).
  rewrite A, P in H. unfold bind at 1, read_local, lift in H.
  fold coord in H.
  destruct (coordinator_due coord (Tags.findall note) email) eqn:Due.
  - unfold bind at 1, read_local, lift in H.
    destruct (notify_one_events _ _ _ _ _ _ _ _ _ _ _ _ H) as (E2 & _).
    exists a1. split; [exact F1 |]. right. split; [reflexivity |].
    eapply emits_app; eauto.
  - inversion H; subst. exists a1. split; [exact F1 |]. left. split; [exact E1 | reflexivity].
Qed.

(** C6, as the code has it: on a create of a project note, the
    dispatcher is called with the reason "creation" only for the
    coordinator, and only when the normalized handle is not empty, not
    among the tags of the note and not the local part of the author's
    address; when the create returns, it has been called exactly under
    that condition.  The call comes last, and what it sends is what the
    dispatcher sends to one user: nothing to a handle that is no
    authorized user, and otherwise the Slack message and the mail that
    the preference of the coordinator asks for. *)
Theorem coordinator_notification md app pid note cats user email ct w r w' :
  make_running_note md app pid note cats user email "project" ct w = (r, w') ->
  (forall us, In (Dispatch "creation" us) (new_events w w') ->
     exists coord,
       coordinator_handle app pid = Some coord /\ us = [coord] /\
       coord <> "" /\ ~ In coord (Tags.findall note) /\
       coord <> PyStr.split_head "@" email) /\
  (forall n, r = Ok n ->
     exists coord,
       coordinator_handle app pid = Some coord /\
       (In (Dispatch "creation" [coord]) (new_events w w') <->
        coord <> "" /\ ~ In coord (Tags.findall note) /\
        coord <> PyStr.split_head "@" email)) /\
  (forall us, In (Dispatch "creation" us) (new_events w w') ->
     exists coord doc_id doc name before,
       us = [coord] /\
       last_row (projects_view app pid) = Some doc_id /\
       projects_get app doc_id = Some doc /\
       Doc.project_name doc = Some name /\
       Forall not_creation before /\
       new_events w w'
       = (before ++ Dispatch "creation" [coord]
            :: deliveries app pid name note user cats (time_of md ct)
                 (wording "creation" user) coord)%list).
Proof.
  intros H. unfold make_running_note in H. unfold bind at 1, lift in H.
  destruct (resolve app pid "project") as [locals | e] eqn:R.
  2:{ inversion H; subst.
      assert (N : new_events w' w' = []) by (apply new_events_app; now rewrite app_nil_r).
      rewrite N. split; [intros us [] | split; [discriminate | intros us []]]. }
  destruct (resolve_project_record _ _ _ R) as (doc_id & doc & name & acc & L & G & Nm & ->).
  assert (Hd : coordinator_handle app pid = Some (nfkd_ascii app acc))
    by (unfold coordinator_handle; rewrite R; reflexivity).
  cbn [connected_projects] in H. unfold bind at 1, read_local, lift in H.
  unfold bind at 1 in H.
  match type of H with
  | (match save app ?n w with _ => _ end) = _ =>
      destruct (save app n w) as [[[] | e] w1] eqn:S
  end.
  2:{ destruct (save_run _ _ _ _ _ S) as [(_ & ->) | (_ & E & _)]; [| discriminate].
      inversion H; subst.
      assert (N : new_events w' w' = []) by (apply new_events_app; now rewrite app_nil_r).
      rewrite N. split; [intros us [] | split; [discriminate | intros us []]]. }
  destruct (save_run _ _ _ _ _ S) as [(E & _) | (_ & _ & _ & _ & T1)]; [discriminate |].
  change (String.eqb "project" "project") with true in H.
  change (is_run_type "project") with false in H. cbv iota in H.
  unfold bind at 1 in H.
  match type of H with
  | (match ?m w1 with _ => _ end) = _ => destruct (m w1) as [res w2] eqn:N
  end.
  assert (W : w2 = w' /\ (forall n, r = Ok n -> res = Ok tt)).
  { destruct res as [[] | e]; unfold bind, ret in H; inversion H; subst;
      split; try reflexivity; try discriminate. }
  destruct W as (-> & Res). clear H.
  destruct (notify_project_note_dispatch app
              {| connected_projects := Some [pid]; proj_ids := Some (pid, name);
                 proj_coord_with_accents := Some acc |}
              note cats user email (time_of md ct) (pid, name) acc w1 res w'
              eq_refl eq_refl N)
    as (added & (_ & T2) & Only & If).
  rewrite (new_events_app w w' (Saved _ :: added))
    by (rewrite T2, T1, <- app_assoc; reflexivity).
  split; [| split].
  - intros us [I | I]; [discriminate |].
    destruct (Only _ I) as (-> & Due). apply coordinator_due_spec in Due.
    eauto.
  - intros n Hn. eexists. split; [exact Hd |]. split.
    + intros [I | I]; [discriminate |].
      destruct (Only _ I) as (_ & Due). now apply coordinator_due_spec in Due.
    + intros Due. right. apply If; [exact (Res n Hn) | now apply coordinator_due_spec].
  - intros us [I | I]; [discriminate |].
    destruct (Only _ I) as (-> & Due).
    destruct (notify_project_note_coordinator app
                {| connected_projects := Some [pid]; proj_ids := Some (pid, name);
                   proj_coord_with_accents := Some acc |}
                pid name acc note cats user email (time_of md ct) w1 res w'
                eq_refl eq_refl N)
      as (before & F & [((_ & T3) & _) | (_ & (_ & T3))]).
    + exfalso. rewrite T2 in T3. apply app_inv_head in T3. subst added.
      rewrite Forall_forall in F. exact (F _ I _ eq_refl).
    + rewrite T2 in T3. apply app_inv_head in T3. subst added.
      exists (nfkd_ascii app acc), doc_id, doc, name, (Saved (new_note app pid note cats
                user email "project" (time_of md ct) [pid]) :: before).
      split; [reflexivity |]. split; [exact L |]. split; [exact G |].
      split; [exact Nm |]. split; [| reflexivity].
      constructor; [intros us; discriminate | exact F].
Qed.

Lemma coordinator_notification_witness :
  let app := Sample.app true true in
  let run := make_running_note Sample.md app "P001" "hello" [] "Dan Doe"
               "dan@scilifelab.se" "project" None Sample.w0 in
  make_running_note Sample.md app "P001" "hello" [] "Dan Doe"
    "dan@scilifelab.se" "project" None Sample.w0 = (fst run, snd run) /\
  coordinator_handle app "P001" = Some "alice.smith" /\
  In (Dispatch "creation" ["alice.smith"]) (new_events Sample.w0 (snd run)) /\
  (exists before,
     Forall not_creation before /\
     new_events Sample.w0 (snd run)
     = (before ++ Dispatch "creation" ["alice.smith"]
          :: deliveries app "P001" "A.Smith_24_01" "hello" "Dan Doe" []
               (time_of Sample.md None) (wording "creation" "Dan Doe") "alice.smith")%list) /\
  map m_to
    (mails_of (deliveries app "P001" "A.Smith_24_01" "hello" "Dan Doe" []
                 (time_of Sample.md None) (wording "creation" "Dan Doe") "alice.smith"))
  = ["alice.smith@scilifelab.se"] /\
  In (SlackLookup "alice.smith@scilifelab.se")
    (deliveries app "P001" "A.Smith_24_01" "hello" "Dan Doe" []
       (time_of Sample.md None) (wording "creation" "Dan Doe") "alice.smith").
Proof.
  intros app run. split; [reflexivity |]. split; [reflexivity |].
  destruct (coordinator_notification Sample.md app "P001" "hello" [] "Dan Doe"
              "dan@scilifelab.se" None Sample.w0 (fst run) (snd run) eq_refl)
    as (_ & Returned & Sent).
  destruct (Returned (new_note app "P001" "hello" [] "Dan Doe" "dan@scilifelab.se"
                        "project" (time_of Sample.md None) ["P001"]) eq_refl)
    as (coord & Hd & Iff).
  assert (E : coord = "alice.smith") by (cbv in Hd; congruence).
  subst coord.
  assert (Called : In (Dispatch "creation" ["alice.smith"]) (new_events Sample.w0 (snd run))).
  { apply Iff. split; [discriminate |]. split; [intros [] | discriminate]. }
  split; [exact Called |].
  split; [| split; [reflexivity | left; reflexivity]].
  destruct (Sent _ Called) as (coord & doc_id & doc & name & before & Us & L & G & Nm & F & Ev).
  inversion Us; subst coord.
  change (Some "doc1" = Some doc_id) in L. inversion L; subst doc_id.
  change (Some Sample.project_doc = Some doc) in G. inversion G; subst doc.
  change (Some "A.Smith_24_01" = Some name) in Nm. inversion Nm; subst name.
  exists before. split; [exact F | exact Ev].
Defined.

(** C6 as stated fails: on a create that tags "bob" while the mail relay
    is down, the note is saved and the coordinator "alice.smith" is not
    empty, not tagged and not the author, yet the create raises on the
    mail to "bob" and the dispatcher is never called with the reason
    "creation". *)
Lemma coordinator_notification_counterexample :
  exists w',
    make_running_note Sample.md (Sample.app true false) "P001" "hi @bob" [] "Dan Doe"
      "dan@scilifelab.se" "project" None Sample.w0 = (Raise SMTPException, w') /\
    length (running_notes_db w') = 1 /\
    coordinator_handle (Sample.app true false) "P001" = Some "alice.smith" /\
    "alice.smith" <> "" /\
    ~ In "alice.smith" (Tags.findall "hi @bob") /\
    "alice.smith" <> PyStr.split_head "@" "dan@scilifelab.se" /\
    forall us, ~ In (Dispatch "creation" us) (new_events Sample.w0 w').
Proof.
  eexists. split; [cbv; reflexivity |].
  split; [reflexivity |]. split; [reflexivity |]. split; [discriminate |].
  split; [intros [E | []]; discriminate E |]. split; [discriminate |].
  intros us I. cbv in I.
  repeat (destruct I as [I | I]; [discriminate I |]). exact I.
Qed.

(** ** Listing the notes of a partition *)

Section DictFacts.

Variable V : Type.
Implicit Types (d : PyDict.t V) (k : string) (v : V).

Lemma get_set_eq k v d : PyDict.get k (PyDict.set k v d) = Some v.
Proof.
  induction d as [| [k' v'] rest IH]; simpl.
  - now rewrite String.eqb_refl.
  - destruct (String.eqb k k') eqn:E; simpl; rewrite ?String.eqb_refl, ?E; auto.
Qed.

Lemma get_set_neq k k' v d :
  k <> k' -> PyDict.get k (PyDict.set k' v d) = PyDict.get k d.
Proof.
  intros Ne. apply String.eqb_neq in Ne.
  induction d as [| [k'' v''] rest IH]; simpl.
  - now rewrite Ne.
  - destruct (String.eqb k' k'') eqn:E; simpl.
    + apply String.eqb_eq in E. subst k''. now rewrite Ne.
    + destruct (String.eqb k k''); auto.
Qed.

Lemma get_none k d : PyDict.get k d = None <-> ~ In k (PyDict.keys d).
Proof.
  induction d as [| [k' v'] rest IH]; simpl.
  - tauto.
  - destruct (String.eqb_spec k k') as [-> | Ne].
    + split; [discriminate | intros N; exfalso; auto].
    + rewrite IH. split; [intros N [E | I]; [congruence | auto] | tauto].
Qed.

Lemma set_fresh k v d :
  ~ In k (PyDict.keys d) -> PyDict.set k v d = (d ++ [(k, v)])%list.
Proof.
  induction d as [| [k' v'] rest IH]; simpl; intros N; [reflexivity |].
  destruct (String.eqb_spec k k') as [-> | Ne]; [exfalso; auto |].
  rewrite IH; auto.
Qed.

Lemma keys_set_known k v d :
  In k (PyDict.keys d) -> PyDict.keys (PyDict.set k v d) = PyDict.keys d.
Proof.
  induction d as [| [k' v'] rest IH]; simpl; intros I; [destruct I |].
  destruct (String.eqb_spec k k') as [-> | Ne]; simpl; [reflexivity |].
  rewrite IH; [reflexivity |]. destruct I; congruence.
Qed.

Lemma keys_set_NoDup k v d :
  NoDup (PyDict.keys d) -> NoDup (PyDict.keys (PyDict.set k v d)).
Proof.
  intros N. destruct (in_dec string_dec k (PyDict.keys d)) as [I | NI].
  - now rewrite keys_set_known.
  - rewrite set_fresh by exact NI. unfold PyDict.keys. rewrite map_app.
    fold (PyDict.keys d). simpl.
    apply (Permutation_NoDup (l := k :: PyDict.keys d)).
    + apply Permutation_cons_append.
    + constructor; assumption.
Qed.

Lemma get_In k v d :
  NoDup (PyDict.keys d) -> (PyDict.get k d = Some v <-> In (k, v) d).
Proof.
  induction d as [| [k' v'] rest IH]; simpl; intros N.
  - split; [discriminate | tauto].
  - inversion N as [| ? ? NI N']; subst.
    destruct (String.eqb_spec k k') as [-> | Ne].
    + split.
      * intros E. inversion E. auto.
      * intros [E | I]; [inversion E; reflexivity |].
        exfalso. apply NI. apply (in_map fst) in I. exact I.
    + rewrite (IH N'). split; [auto |]. intros [E | I]; [congruence | exact I].
Qed.

Lemma get_Permutation k d d' :
  NoDup (PyDict.keys d) -> Permutation d d' -> PyDict.get k d' = PyDict.get k d.
Proof.
  intros N P.
  assert (N' : NoDup (PyDict.keys d'))
    by (eapply Permutation_NoDup; [apply Permutation_map; exact P | exact N]).
  destruct (PyDict.get k d) as [v |] eqn:G.
  - apply (get_In _ _ _ N) in G. apply (get_In _ _ _ N').
    eapply Permutation_in; eauto.
  - destruct (PyDict.get k d') as [v' |] eqn:G'; [| reflexivity].
    apply (get_In _ _ _ N') in G'. apply Permutation_sym in P.
    apply (Permutation_in _ P) in G'. apply (get_In _ _ _ N) in G'. congruence.
Qed.

Lemma insert_desc_Permutation (x : string * V) l :
  Permutation (insert_desc x l) (x :: l).
Proof.
  induction l as [| y rest IH]; simpl; [reflexivity |].
  destruct (String.ltb (fst y) (fst x)); [reflexivity |].
  rewrite IH. apply perm_swap.
Qed.

Lemma sorted_desc_Permutation (l : list (string * V)) :
  Permutation (sorted_desc l) l.
Proof.
  unfold sorted_desc. induction l as [| x rest IH] using rev_ind; [reflexivity |].
  rewrite fold_left_app. simpl. rewrite insert_desc_Permutation, IH.
  apply Permutation_cons_append.
Qed.

(** Filling an ordered dictionary from pairs with distinct keys keeps
    the pairs as they come. *)
Lemma refill_distinct (l : list (string * V)) :
  NoDup (PyDict.keys l) ->
  fold_left (fun d kv => PyDict.set (fst kv) (snd kv) d) l [] = l.
Proof.
  induction l as [| [k v] rest IH] using rev_ind; [reflexivity |].
  intros N. rewrite fold_left_app. simpl.
  unfold PyDict.keys in N. rewrite map_app in N. simpl in N.
  apply NoDup_remove in N. rewrite app_nil_r in N. destruct N as (N & NI).
  rewrite (IH N). apply set_fresh. exact NI.
Qed.

End DictFacts.

Lemma last_with_snoc k rows n :
  last_with k (rows ++ [n])
  = if String.eqb k (Doc.created_at_utc n) then Some n else last_with k rows.
Proof. unfold last_with. rewrite fold_left_app. reflexivity. Qed.

Lemma last_with_none k rows :
  last_with k rows = None <-> ~ In k (map Doc.created_at_utc rows).
Proof.
  induction rows as [| n rest IH] using rev_ind; [simpl; tauto |].
  rewrite last_with_snoc, map_app, in_app_iff. simpl.
  destruct (String.eqb_spec k (Doc.created_at_utc n)) as [-> | Ne].
  - split; [discriminate | intros N; exfalso; auto].
  - rewrite IH. split; [intros N [I | [E | []]]; [auto | congruence] | tauto].
Qed.

Lemma running_notes_json_snoc rows n :
  running_notes_json (rows ++ [n])
  = PyDict.set (Doc.created_at_utc n) (note_contents n) (running_notes_json rows).
Proof. unfold running_notes_json. rewrite fold_left_app. reflexivity. Qed.

Lemma running_notes_json_get k rows :
  PyDict.get k (running_notes_json rows) = option_map note_contents (last_with k rows).
Proof.
  induction rows as [| n rest IH] using rev_ind; [reflexivity |].
  rewrite running_notes_json_snoc, last_with_snoc.
  destruct (String.eqb_spec k (Doc.created_at_utc n)) as [-> | Ne].
  - apply get_set_eq.
  - rewrite get_set_neq by exact Ne. exact IH.
Qed.

Lemma running_notes_json_NoDup rows : NoDup (PyDict.keys (running_notes_json rows)).
Proof.
  induction rows as [| n rest IH] using rev_ind; [constructor |].
  rewrite running_notes_json_snoc. apply keys_set_NoDup. exact IH.
Qed.

Lemma get_is_sorted_json rows : get rows = sorted_desc (running_notes_json rows).
Proof.
  unfold get. apply refill_distinct.
  eapply Permutation_NoDup; [| apply running_notes_json_NoDup].
  apply Permutation_map. apply Permutation_sym. apply sorted_desc_Permutation.
Qed.

(** C10: the mapping that [get] writes has one entry per distinct
    [created_at_utc] of the scan, and the entry of a timestamp is made
    from the last row that carries it; rows that share a timestamp with a
    later row are not in the answer, which is then shorter than the
    scan. *)
Theorem get_one_entry_per_timestamp rows :
  NoDup (PyDict.keys (get rows)) /\
  (forall k,
     PyDict.get k (get rows) = option_map note_contents (last_with k rows)) /\
  (forall k, In k (PyDict.keys (get rows)) <-> In k (map Doc.created_at_utc rows)) /\
  length (get rows) <= length rows /\
  (~ NoDup (map Doc.created_at_utc rows) -> length (get rows) < length rows).
Proof.
  pose proof (running_notes_json_NoDup rows) as N.
  pose proof (sorted_desc_Permutation _ (running_notes_json rows)) as P.
  rewrite get_is_sorted_json.
  assert (N' : NoDup (PyDict.keys (sorted_desc (running_notes_json rows)))).
  { eapply Permutation_NoDup; [| exact N].
    apply Permutation_map. apply Permutation_sym. exact P. }
  assert (G : forall k,
             PyDict.get k (sorted_desc (running_notes_json rows))
             = option_map note_contents (last_with k rows)).
  { intros k. rewrite <- running_notes_json_get.
    apply get_Permutation; [exact N | apply Permutation_sym; exact P]. }
  assert (K : forall k,
             In k (PyDict.keys (sorted_desc (running_notes_json rows)))
             <-> In k (map Doc.created_at_utc rows)).
  { intros k.
    destruct (in_dec string_dec k (map Doc.created_at_utc rows)) as [I | NI].
    - split; [auto | intros _].
      destruct (in_dec string_dec k
                  (PyDict.keys (sorted_desc (running_notes_json rows)))) as [I' | NI'];
        [exact I' |].
      apply get_none in NI'. rewrite G in NI'.
      destruct (last_with k rows) eqn:L; [discriminate |].
      apply last_with_none in L. contradiction.
    - split; [| tauto]. intros I'. exfalso.
      apply last_with_none in NI.
      assert (Z0 : PyDict.get k (sorted_desc (running_notes_json rows)) = None)
        by (rewrite G, NI; reflexivity).
      apply get_none in Z0. contradiction. }
  assert (L : length (sorted_desc (running_notes_json rows))
              = length (PyDict.keys (sorted_desc (running_notes_json rows))))
    by (unfold PyDict.keys; now rewrite length_map).
  assert (I : incl (PyDict.keys (sorted_desc (running_notes_json rows)))
                (map Doc.created_at_utc rows))
    by (intros k; apply K).
  split; [exact N' |]. split; [exact G |]. split; [exact K |]. split.
  - rewrite L, <- (length_map Doc.created_at_utc rows).
    apply NoDup_incl_length; assumption.
  - intros ND. rewrite L, <- (length_map Doc.created_at_utc rows).
    destruct (Nat.lt_ge_cases
                (length (PyDict.keys (sorted_desc (running_notes_json rows))))
                (length (map Doc.created_at_utc rows))) as [Lt | Ge]; [exact Lt |].
    exfalso. apply ND.
    exact (NoDup_incl_NoDup N' Ge I).
Qed.

Lemma get_one_entry_per_timestamp_witness :
  let rows := [Sample.twin "P001:1" "first"; Sample.later; Sample.twin "P001:2" "second"] in
  ~ NoDup (map Doc.created_at_utc rows) /\
  length (get rows) < length rows /\
  PyDict.get "2024-01-01T10:00:00+00:00" (get rows)
  = Some (note_contents (Sample.twin "P001:2" "second")).
Proof.
  intros rows.
  assert (ND : ~ NoDup (map Doc.created_at_utc rows)).
  { intros N. inversion N as [| ? ? NI _]; subst. apply NI. right. left. reflexivity. }
  destruct (get_one_entry_per_timestamp rows) as (_ & G & _ & _ & Short).
  split; [exact ND |]. split; [exact (Short ND) |].
  rewrite G. reflexivity.
Defined.

Example get_twins :
  map (fun kv => (fst kv, Doc.c_note (snd kv)))
    (get [Sample.twin "P001:1" "first"; Sample.later; Sample.twin "P001:2" "second"])
  = [("2024-01-02T10:00:00+00:00", "third"); ("2024-01-01T10:00:00+00:00", "second")].
Proof. reflexivity. Qed.

(** * Further properties *)

(** ** Texts *)

Lemma append_assoc (a b c : string) : (a ++ b) ++ c = a ++ (b ++ c).
Proof. induction a as [| x a IH]; simpl; [reflexivity | now rewrite IH]. Qed.

Lemma append_nil_r (a : string) : a ++ "" = a.
Proof. induction a as [| x a IH]; simpl; [reflexivity | now rewrite IH]. Qed.

Lemma all_chars_app p a b :
  all_chars p (a ++ b) = (all_chars p a && all_chars p b)%bool.
Proof.
  induction a as [| x a IH]; simpl; [reflexivity |].
  now rewrite IH, andb_assoc.
Qed.

Lemma emit_In t h k : In t (Tags.emit h k) -> (t = h /\ h <> "") \/ In t k.
Proof.
  destruct h as [| a h]; simpl; [auto |].
  intros [<- | I]; [left; split; [reflexivity | discriminate] | auto].
Qed.

(** ** The tags of a note *)

Lemma scan_handles s : forall cur,
  match cur with
  | Some h => all_chars Tags.is_handle_char h = true
  | None => True
  end ->
  Forall (fun t => t <> "" /\ all_chars Tags.is_handle_char t = true) (Tags.scan cur s).
Proof.
  induction s as [| a rest IH]; intros cur Hc; simpl.
  - destruct cur as [h |]; [| constructor].
    apply Forall_forall. intros t I. apply emit_In in I.
    destruct I as [(-> & Ne) | []]. auto.
  - destruct cur as [h |].
    + destruct (Tags.is_handle_char a) eqn:Ha.
      * apply IH. rewrite all_chars_app, Hc. simpl. now rewrite Ha.
      * apply Forall_forall. intros t I. apply emit_In in I.
        destruct I as [(-> & Ne) | I]; [auto |].
        revert t I. apply Forall_forall.
        destruct (Ascii.eqb a Tags.at_sign); apply IH; simpl; auto.
    + destruct (Ascii.eqb a Tags.at_sign); apply IH; simpl; auto.
Qed.

(** Every tag taken from a note is a handle: not empty, and made of
    letters, digits, dots and hyphens only. *)
Theorem tags_are_handles note :
  Forall (fun t => t <> "" /\ all_chars Tags.is_handle_char t = true)
    (Tags.findall note).
Proof. apply scan_handles. exact I. Qed.

Lemma scan_occurs s : forall cur before,
  match cur with
  | Some h => exists b, before = b ++ "@" ++ h
  | None => True
  end ->
  forall t, In t (Tags.scan cur s) ->
  exists pre post, before ++ s = pre ++ "@" ++ t ++ post.
Proof.
  induction s as [| a rest IH]; intros cur before Hc t I; simpl in I.
  - destruct cur as [h |]; [| destruct I].
    apply emit_In in I. destruct I as [(-> & _) | []].
    destruct Hc as (b & ->). exists b, "".
    now rewrite !append_nil_r.
  - assert (Step : before ++ String a rest = (before ++ String a "") ++ rest)
      by (rewrite append_assoc; reflexivity).
    assert (Fresh : forall t, In t (if Ascii.eqb a Tags.at_sign
                                    then Tags.scan (Some "") rest
                                    else Tags.scan None rest) ->
                    exists pre post, before ++ String a rest = pre ++ "@" ++ t ++ post).
    { intros t' I'. rewrite Step. destruct (Ascii.eqb_spec a Tags.at_sign) as [-> | _].
      - apply (IH (Some "") _); [| exact I'].
        exists before. reflexivity.
      - apply (IH None _); [exact Logic.I | exact I']. }
    destruct cur as [h |]; [| apply Fresh; exact I].
    destruct (Tags.is_handle_char a).
    + rewrite Step. apply (IH (Some (h ++ String a "")) _); [| exact I].
      destruct Hc as (b & ->). exists b. now rewrite !append_assoc.
    + apply emit_In in I. destruct I as [(-> & _) | I]; [| apply Fresh; exact I].
      destruct Hc as (b & ->). exists b, (String a rest).
      now rewrite !append_assoc.
Qed.

(** Every tag stands in the note, right after an [@]. *)
Theorem tags_occur_in_note note t :
  In t (Tags.findall note) ->
  exists pre post, note = pre ++ "@" ++ t ++ post.
Proof.
  intros I. apply (scan_occurs note None "" Logic.I t I).
Qed.

Lemma tags_occur_in_note_witness :
  In "bob-2" (Tags.findall "hello @jane.doe and @bob-2") /\
  exists pre post, "hello @jane.doe and @bob-2" = pre ++ "@" ++ "bob-2" ++ post.
Proof.
  assert (I : In "bob-2" (Tags.findall "hello @jane.doe and @bob-2"))
    by (right; left; reflexivity).
  split; [exact I |].
  exact (tags_occur_in_note "hello @jane.doe and @bob-2" "bob-2" I).
Defined.

Lemma scan_handle_run h : forall g rest,
  all_chars Tags.is_handle_char h = true ->
  Tags.scan (Some g) (h ++ rest) = Tags.scan (Some (g ++ h)) rest.
Proof.
  induction h as [| a h IH]; intros g rest Hh; simpl.
  - now rewrite append_nil_r.
  - simpl in Hh. apply andb_true_iff in Hh. destruct Hh as (Ha & Hh).
    rewrite Ha, (IH _ _ Hh), append_assoc. reflexivity.
Qed.

Lemma scan_after_handle h rest :
  ends_handle rest = true ->
  Tags.scan (Some h) rest = Tags.emit h (Tags.findall rest).
Proof.
  destruct rest as [| a rest]; simpl; [reflexivity |].
  intros E. apply negb_true_iff in E. rewrite E. reflexivity.
Qed.

(** How the tags follow the text: a character other than [@] is passed
    over; an [@] with no handle after it gives nothing; an [@] followed
    by a handle, up to the first character that no handle has, gives the
    handle, and the scan goes on behind it. *)
Theorem findall_mention :
  (forall c rest, c <> "@"%char ->
     Tags.findall (String c rest) = Tags.findall rest) /\
  (forall rest, ends_handle rest = true ->
     Tags.findall ("@" ++ rest) = Tags.findall rest) /\
  (forall h rest,
     h <> "" -> all_chars Tags.is_handle_char h = true -> ends_handle rest = true ->
     Tags.findall ("@" ++ h ++ rest) = h :: Tags.findall rest).
Proof.
  split; [| split].
  - intros c rest Ne. unfold Tags.findall. simpl.
    destruct (Ascii.eqb_spec c Tags.at_sign) as [E | _]; [contradiction | reflexivity].
  - intros rest E. unfold Tags.findall at 1. simpl.
    now rewrite (scan_after_handle "" rest E).
  - intros h rest Ne Hh E. unfold Tags.findall at 1. simpl.
    rewrite (scan_handle_run h "" rest Hh). simpl.
    rewrite (scan_after_handle h rest E).
    destruct h; [contradiction | reflexivity].
Qed.

Lemma findall_mention_witness :
  "jane.doe" <> "" /\
  all_chars Tags.is_handle_char "jane.doe" = true /\
  ends_handle ", see @bob" = true /\
  Tags.findall ("@" ++ "jane.doe" ++ ", see @bob") = "jane.doe" :: Tags.findall ", see @bob".
Proof.
  split; [discriminate |]. split; [reflexivity |]. split; [reflexivity |].
  destruct findall_mention as (_ & _ & Mention).
  apply Mention; [discriminate | reflexivity | reflexivity].
Defined.

(** ** The directory of users *)




(** ** What the dispatcher leaves alone *)

Lemma keeps_ret A (a : A) : keeps_stores (ret a).
Proof. intros w r w' H. inversion H; auto. Qed.

Lemma keeps_lift A (o : outcome A) : keeps_stores (lift o).
Proof. intros w r w' H. inversion H; auto. Qed.

Lemma keeps_raise A (e : exn) : keeps_stores (@raise A e).
Proof. intros w r w' H. inversion H; auto. Qed.

Lemma keeps_log e : keeps_stores (log e).
Proof. intros w r w' H. inversion H; auto. Qed.

Lemma keeps_bind A B (m : M A) (k : A -> M B) :
  keeps_stores m -> (forall a, keeps_stores (k a)) -> keeps_stores (bind m k).
Proof.
  intros Hm Hk w r w' H. unfold bind in H.
  destruct (m w) as [[a | e] w1] eqn:E.
  - destruct (Hm _ _ _ E) as (D1 & P1). destruct (Hk a _ _ _ H) as (D2 & P2).
    split; congruence.
  - inversion H; subst. eauto.
Qed.

Lemma keeps_try_except A (m h : M A) :
  keeps_stores m -> keeps_stores h -> keeps_stores (try_except m h).
Proof.
  intros Hm Hh w r w' H. unfold try_except in H.
  destruct (m w) as [[a | e] w1] eqn:E.
  - inversion H; subst. eauto.
  - destruct (Hm _ _ _ E) as (D1 & P1). destruct (Hh _ _ _ H) as (D2 & P2).
    split; congruence.
Qed.

Lemma keeps_for_each A (xs : list A) (body : A -> M unit) :
  (forall x, keeps_stores (body x)) -> keeps_stores (for_each xs body).
Proof.
  intros Hb. induction xs as [| x rest IH]; simpl.
  - apply keeps_ret.
  - apply keeps_bind; [apply Hb | intros _; exact IH].
Qed.

Create HintDb stores.
#[local] Hint Resolve keeps_ret keeps_lift keeps_raise keeps_log : stores.

Ltac run_keeps :=
  repeat first
    [ solve [auto with stores]
    | apply keeps_try_except
    | apply keeps_for_each; intros ?
    | apply keeps_bind; [| intros ?]
    | match goal with
      | |- keeps_stores (if ?b then _ else _) => destruct b
      | |- keeps_stores (match ?x with _ => _ end) => destruct x
      end ].

Lemma notify_tagged_user_keeps app us project note cats tagger ts tagtype :
  keeps_stores (notify_tagged_user app us project note cats tagger ts tagtype).
Proof.
  unfold notify_tagged_user, notify_user, slack_path, send_mail, call_opt, call_bool.
  run_keeps.
Qed.

(** The dispatcher only notifies: whether it returns or raises, the
    running-notes store and the project notes are as it found them. *)
Theorem dispatcher_keeps_stores app us project note cats tagger ts tagtype w :
  let w' := snd (notify_tagged_user app us project note cats tagger ts tagtype w) in
  running_notes_db w' = running_notes_db w /\ project_notes w' = project_notes w.
Proof.
  intros w'.
  apply (notify_tagged_user_keeps app us project note cats tagger ts tagtype w
           (fst (notify_tagged_user app us project note cats tagger ts tagtype w)) w').
  subst w'. apply surjective_pairing.
Qed.

Lemma dispatcher_keeps_stores_witness :
  let w' := snd (notify_tagged_user (Sample.app false false) ["carol"]
                   ("P001", "A.Smith_24_01") "hi @carol" [] "Dan Doe" 0%Z "userTag"
                   Sample.w0) in
  new_events Sample.w0 w' <> [] /\
  running_notes_db w' = running_notes_db Sample.w0 /\
  project_notes w' = project_notes Sample.w0.
Proof.
  intros w'. split; [discriminate |].
  exact (dispatcher_keeps_stores (Sample.app false false) ["carol"]
           ("P001", "A.Smith_24_01") "hi @carol" [] "Dan Doe" 0%Z "userTag" Sample.w0).
Defined.

(** ** Users that are passed over, and a relay that refuses *)

Section DispatcherEdges.

Variable app : Application.
Variables (project_id project_name note tagger : string).
Variable categories : list string.
Variable ts : datetime.
Variable wd : Wording.

Let text := notification_text project_id project_name tagger wd.
Let blocks_ := blocks app project_id project_name note tagger categories ts wd.
Let body := notify_user app project_id project_name note tagger categories ts wd
              (view_result_of (gs_users app)).

Lemma notify_user_passes user w :
  (forall address,
     PyDict.get user (view_result_of (gs_users app)) = Some address ->
     exists o, notification_preferences app address = Some o /\
               wants_slack o = false /\ wants_mail o = false) ->
  body user w = (Ok tt, w).
Proof.
  intros H. unfold body, notify_user.
  destruct (PyDict.get user (view_result_of (gs_users app))) as [address |];
    [| reflexivity].
  destruct (H address eq_refl) as (o & -> & S & M).
  unfold bind. rewrite S. unfold ret. rewrite M. reflexivity.
Qed.

Lemma notify_loop_passes users : forall w,
  (forall user, In user users ->
     forall address,
       PyDict.get user (view_result_of (gs_users app)) = Some address ->
       exists o, notification_preferences app address = Some o /\
                 wants_slack o = false /\ wants_mail o = false) ->
  for_each users body w = (Ok tt, w).
Proof.
  induction users as [| u rest IH]; intros w H; simpl; [reflexivity |].
  unfold bind. rewrite (notify_user_passes u w (H u (or_introl eq_refl))).
  apply IH. intros user I. apply H. right. exact I.
Qed.

Hypothesis relay_down : forall m, smtp_sendmail app m = false.



End DispatcherEdges.

(** A tagged handle that the directory does not know, or whose
    preference is none of "Slack", "E-mail" and "Both", is passed over:
    when every tagged handle is such, the dispatcher returns without one
    Slack or mail attempt, whatever Slack and the relay would answer. *)
Theorem unknown_users_passed_over app us project note cats tagger ts tagtype w :
  (forall user, In user us ->
     forall address,
       PyDict.get user (view_result_of (gs_users app)) = Some address ->
       exists o, notification_preferences app address = Some o /\
                 wants_slack o = false /\ wants_mail o = false) ->
  notify_tagged_user app us project note cats tagger ts tagtype w
  = (Ok tt,
     {| running_notes_db := running_notes_db w;
        project_notes := project_notes w;
        trace := (trace w ++ [Dispatch tagtype us])%list |}).
Proof.
  intros H. unfold notify_tagged_user, bind at 1. simpl.
  apply notify_loop_passes. exact H.
Qed.

Lemma unknown_users_passed_over_witness :
  let app := Sample.app false false in
  (forall user, In user ["nobody"; "x.y"] ->
     forall address,
       PyDict.get user (view_result_of (gs_users app)) = Some address ->
       exists o, notification_preferences app address = Some o /\
                 wants_slack o = false /\ wants_mail o = false) /\
  notify_tagged_user app ["nobody"; "x.y"] ("P001", "A.Smith_24_01") "hi @nobody @x.y"
    [] "Dan Doe" 0%Z "userTag" Sample.w0
  = (Ok tt,
     {| running_notes_db := running_notes_db Sample.w0;
        project_notes := project_notes Sample.w0;
        trace := (trace Sample.w0 ++ [Dispatch "userTag" ["nobody"; "x.y"]])%list |}).
Proof.
  intros app.
  assert (H : forall user, In user ["nobody"; "x.y"] ->
              forall address,
                PyDict.get user (view_result_of (gs_users app)) = Some address ->
                exists o, notification_preferences app address = Some o /\
                          wants_slack o = false /\ wants_mail o = false).
  { intros user [<- | [<- | []]] address G; discriminate G. }
  split; [exact H |].
  exact (unknown_users_passed_over app ["nobody"; "x.y"] ("P001", "A.Smith_24_01")
           "hi @nobody @x.y" [] "Dan Doe" 0%Z "userTag" Sample.w0 H).
Defined.



(** ** Creates that fail before anything is done *)

(** A [note_type] other than "project", "flowcell" and "flowcell_ont"
    binds no [connected_projects]: the create raises and nothing is
    saved or sent.  A POST with a note and no [note_type] is such a
    create, with the empty string for type. *)
Theorem unknown_note_type_raises md app pid note cats user email nt ct w :
  nt <> "project" -> nt <> "flowcell" -> nt <> "flowcell_ont" ->
  make_running_note md app pid note cats user email nt ct w
  = (Raise (UnboundLocalError "connected_projects"), w) /\
  (forall current categories,
     note <> "" ->
     post md app current pid
       {| rq_note := Some note; rq_categories := categories; rq_note_type := None |} w
     = (Raise (UnboundLocalError "connected_projects"), w)).
Proof.
  intros N1 N2 N3.
  assert (Run : forall nt', nt' <> "project" -> nt' <> "flowcell" ->
                            nt' <> "flowcell_ont" ->
                forall cats' user' email' ct',
                  make_running_note md app pid note cats' user' email' nt' ct' w
                  = (Raise (UnboundLocalError "connected_projects"), w)).
  { intros nt' M1 M2 M3 cats' user' email' ct'.
    unfold make_running_note, bind at 1, lift, resolve.
    apply String.eqb_neq in M1, M2, M3. rewrite M1, M2, M3. reflexivity. }
  split; [apply Run; assumption |].
  intros current categories Ne. unfold post. simpl.
  apply String.eqb_neq in Ne. rewrite Ne. unfold bind at 1.
  rewrite Run by discriminate. reflexivity.
Qed.

Lemma unknown_note_type_raises_witness :
  "sample" <> "project" /\ "sample" <> "flowcell" /\ "sample" <> "flowcell_ont" /\
  make_running_note Sample.md (Sample.app true true) "P001" "hello" [] "Dan Doe"
    "dan@scilifelab.se" "sample" None Sample.w0
  = (Raise (UnboundLocalError "connected_projects"), Sample.w0) /\
  (forall current categories,
     "hello" <> "" ->
     post Sample.md (Sample.app true true) current "P001"
       {| rq_note := Some "hello"; rq_categories := categories; rq_note_type := None |}
       Sample.w0
     = (Raise (UnboundLocalError "connected_projects"), Sample.w0)).
Proof.
  split; [discriminate |]. split; [discriminate |]. split; [discriminate |].
  apply (unknown_note_type_raises Sample.md (Sample.app true true) "P001" "hello" []
           "Dan Doe" "dan@scilifelab.se" "sample" None Sample.w0); discriminate.
Defined.

(** A note on a flowcell or a nanopore run that the linkage view does
    not know raises IndexError, and nothing is saved or sent. *)
Theorem unknown_run_raises md app pid note cats user email ct w :
  (x_flowcells_view app pid = [] ->
   make_running_note md app pid note cats user email "flowcell" ct w
   = (Raise IndexError, w)) /\
  (nanopore_runs_view app pid = [] ->
   make_running_note md app pid note cats user email "flowcell_ont" ct w
   = (Raise IndexError, w)).
Proof.
  split; intros V; unfold make_running_note, bind at 1, lift, resolve; simpl;
    rewrite V; reflexivity.
Qed.

Lemma unknown_run_raises_witness :
  x_flowcells_view (Sample.app true true) "FC9" = [] /\
  make_running_note Sample.md (Sample.app true true) "FC9" "hello" [] "Dan Doe"
    "dan@scilifelab.se" "flowcell" None Sample.w0 = (Raise IndexError, Sample.w0).
Proof.
  split; [reflexivity |].
  apply (unknown_run_raises Sample.md (Sample.app true true) "FC9" "hello" []
           "Dan Doe" "dan@scilifelab.se" None Sample.w0).
  reflexivity.
Defined.

(** When the store refuses the note, the create raises the store's error
    and does nothing else: no notification, no propagation. *)
Theorem store_refusal_is_fatal md app pid note cats user email nt ct w locals connected :
  resolve app pid nt = Ok locals ->
  connected_projects locals = Some connected ->
  running_notes_save app (running_notes_db w)
    (new_note app pid note cats user email nt (time_of md ct) connected) = false ->
  make_running_note md app pid note cats user email nt ct w = (Raise StoreError, w).
Proof.
  intros R C Refused.
  unfold make_running_note, bind at 1, lift. rewrite R.
  unfold bind at 1, read_local, lift. rewrite C.
  unfold bind at 1, save. rewrite Refused. reflexivity.
Qed.

Lemma store_refusal_is_fatal_witness :
  let app := Sample.installation true true false Sample.legacy_silent in
  resolve app "FC1" "flowcell"
  = Ok {| connected_projects := Some ["P001"; "P002"]; proj_ids := None;
          proj_coord_with_accents := None |} /\
  make_running_note Sample.md app "FC1" "hi @bob" [] "Dan Doe" "dan@scilifelab.se"
    "flowcell" None Sample.w0 = (Raise StoreError, Sample.w0).
Proof.
  intros app. split; [reflexivity |].
  apply (store_refusal_is_fatal Sample.md app "FC1" "hi @bob" [] "Dan Doe"
           "dan@scilifelab.se" "flowcell" None Sample.w0
           {| connected_projects := Some ["P001"; "P002"]; proj_ids := None;
              proj_coord_with_accents := None |} ["P001"; "P002"]); reflexivity.
Defined.

(** ** Who is notified, and for which notes *)

Lemma delivery_no_dispatch e t us : is_delivery e -> e <> Dispatch t us.
Proof. destruct e; simpl; intros []; discriminate. Qed.

Lemma notify_project_note_tags
    app locals note cats user email ct project with_accents w r w' :
  proj_ids locals = Some project ->
  proj_coord_with_accents locals = Some with_accents ->
  notify_project_note app locals note cats user email ct w = (r, w') ->
  exists added,
    emits w w' added /\
    (forall us, In (Dispatch "userTag" us) added ->
       us = Tags.findall note /\ us <> []) /\
    (Tags.findall note <> [] -> In (Dispatch "userTag" (Tags.findall note)) added).
Proof.
  intros P A H. unfold notify_project_note in H. rewrite P, A in H.
  unfold bind at 1 in H.
  assert (Rest : forall w1 r1 w2,
             (with_accents0 <- read_local "proj_coord_with_accents" (Some with_accents) ;;
              (if coordinator_due (nfkd_ascii app with_accents0) (Tags.findall note) email
               then
                 project0 <- read_local "proj_ids" (Some project) ;;
                 notify_tagged_user app [nfkd_ascii app with_accents0] project0 note
                   cats user ct "creation"
               else ret tt)) w1 = (r1, w2) ->
             exists a2, emits w1 w2 a2 /\
                        Forall (fun e => forall us, e <> Dispatch "userTag" us) a2).
  { intros w1 r1 w2 H2. unfold bind at 1, read_local, lift in H2.
    destruct (coordinator_due _ _ _).
    - unfold bind at 1, read_local, lift in H2.
      destruct (notify_tagged_user_events _ _ _ _ _ _ _ _ _ _ _ H2) as (ds & E & F).
      eexists. split; [exact E |]. constructor; [intros us; discriminate |].
      eapply Forall_impl; [| exact F]. intros e De us.
      apply delivery_no_dispatch. exact De.
    - inversion H2; subst. exists []. split; [apply emits_nil | constructor]. }
  destruct (Tags.findall note) as [| t tags] eqn:Tg.
  - unfold ret at 1 in H. destruct (Rest _ _ _ H) as (a2 & E2 & F2).
    exists a2. split; [exact E2 |]. split; [| congruence].
    intros us I. rewrite Forall_forall in F2. destruct (F2 _ I us eq_refl).
  - unfold bind at 1, read_local, lift in H.
    destruct (notify_tagged_user app (t :: tags) project note cats user ct "userTag" w)
      as [[[] | e] w1] eqn:Tag.
    + destruct (notify_tagged_user_events _ _ _ _ _ _ _ _ _ _ _ Tag) as (ds & E1 & F1).
      destruct (Rest _ _ _ H) as (a2 & E2 & F2).
      exists ((Dispatch "userTag" (t :: tags) :: ds) ++ a2)%list.
      split; [eapply emits_app; eauto |]. split.
      * intros us I. apply in_app_or in I. destruct I as [[I | I] | I].
        -- inversion I; subst. split; [reflexivity | discriminate].
        -- rewrite Forall_forall in F1.
           destruct (delivery_no_dispatch _ "userTag" us (F1 _ I) eq_refl).
        -- rewrite Forall_forall in F2. destruct (F2 _ I us eq_refl).
      * intros _. left. reflexivity.
    + inversion H; subst.
      destruct (notify_tagged_user_events _ _ _ _ _ _ _ _ _ _ _ Tag) as (ds & E1 & F1).
      exists (Dispatch "userTag" (t :: tags) :: ds). split; [exact E1 |]. split.
      * intros us [I | I].
        -- inversion I; subst. split; [reflexivity | discriminate].
        -- rewrite Forall_forall in F1.
           destruct (delivery_no_dispatch _ "userTag" us (F1 _ I) eq_refl).
      * intros _. left. reflexivity.
Qed.

(** On a create of a project note, the dispatcher is called with the
    reason "userTag" only for the tags of the note, all at once, and only
    when there is a tag; once the note is saved and has a tag, it is
    called, whether or not the create returns. *)
Theorem tagged_users_notification md app pid note cats user email ct w r w' :
  make_running_note md app pid note cats user email "project" ct w = (r, w') ->
  (forall us, In (Dispatch "userTag" us) (new_events w w') ->
     us = Tags.findall note /\ us <> []) /\
  ((exists n, In (Saved n) (new_events w w')) -> Tags.findall note <> [] ->
   In (Dispatch "userTag" (Tags.findall note)) (new_events w w')).
Proof.
  intros H. unfold make_running_note in H. unfold bind at 1, lift in H.
  assert (Nothing : new_events w w = [])
    by (apply new_events_app; now rewrite app_nil_r).
  destruct (resolve app pid "project") as [locals | e] eqn:R.
  2:{ inversion H; subst. rewrite Nothing.
      split; [intros us [] | intros (n & [])]. }
  destruct (resolve_project _ _ _ R) as (C & _ & _ & name & acc & _ & _ & _ & P & A).
  rewrite C in H. unfold bind at 1, read_local, lift in H.
  unfold bind at 1 in H.
  match type of H with
  | (match save app ?n w with _ => _ end) = _ =>
      destruct (save app n w) as [[[] | e] w1] eqn:S
  end.
  2:{ destruct (save_run _ _ _ _ _ S) as [(_ & ->) | (_ & E & _)]; [| discriminate].
      inversion H; subst. rewrite Nothing.
      split; [intros us [] | intros (n & [])]. }
  destruct (save_run _ _ _ _ _ S) as [(E & _) | (_ & _ & _ & _ & T1)]; [discriminate |].
  simpl in H. unfold bind at 1 in H.
  match type of H with
  | (match ?m w1 with _ => _ end) = _ => destruct (m w1) as [[[] | e] w2] eqn:N
  end;
    destruct (notify_project_note_tags _ _ _ _ _ _ _ _ _ _ _ _ P A N)
      as (added & (_ & T2) & Only & If);
    [unfold bind, ret in H |]; inversion H; subst w2 r;
    rewrite (new_events_app w w' (Saved _ :: added))
      by (rewrite T2, T1, <- app_assoc; reflexivity);
    (split; [intros us [I | I]; [discriminate | auto] | intros _ Tg; right; auto]).
Qed.

Lemma tagged_users_notification_witness :
  let app := Sample.app true false in
  let run := make_running_note Sample.md app "P001" "hi @bob and @carol" [] "Dan Doe"
               "dan@scilifelab.se" "project" None Sample.w0 in
  make_running_note Sample.md app "P001" "hi @bob and @carol" [] "Dan Doe"
    "dan@scilifelab.se" "project" None Sample.w0 = (fst run, snd run) /\
  fst run = Raise SMTPException /\
  In (Dispatch "userTag" ["bob"; "carol"]) (new_events Sample.w0 (snd run)).
Proof.
  intros app run. split; [reflexivity |]. split; [reflexivity |].
  destruct (tagged_users_notification Sample.md app "P001" "hi @bob and @carol" []
              "Dan Doe" "dan@scilifelab.se" None Sample.w0 (fst run) (snd run) eq_refl)
    as (_ & Saved_then).
  apply Saved_then; [| discriminate].
  eexists. left. reflexivity.
Defined.

Lemma notify_project_note_keeps app locals note cats user email ct :
  keeps_stores (notify_project_note app locals note cats user email ct).
Proof.
  pose proof notify_tagged_user_keeps as K.
  unfold notify_project_note, read_local. run_keeps.
Qed.

(** A create of a project note writes no note on a connected project:
    the project notes are as they were, whether the create returns or
    raises. *)
Theorem project_note_not_propagated md app pid note cats user email ct w :
  let w' := snd (make_running_note md app pid note cats user email "project" ct w) in
  project_notes w' = project_notes w.
Proof.
  intros w'.
  destruct (make_running_note md app pid note cats user email "project" ct w)
    as [r w2] eqn:H.
  subst w'. simpl. unfold make_running_note in H. unfold bind at 1, lift in H.
  destruct (resolve app pid "project") as [locals | e];
    [| inversion H; reflexivity].
  unfold bind at 1, read_local, lift in H.
  destruct (connected_projects locals) as [connected |];
    [| inversion H; reflexivity].
  unfold bind at 1 in H.
  match type of H with
  | (match save app ?n w with _ => _ end) = _ =>
      destruct (save app n w) as [[[] | e] w1] eqn:S
  end.
  2:{ destruct (save_run _ _ _ _ _ S) as [(_ & ->) | (_ & E & _)]; [| discriminate].
      inversion H; reflexivity. }
  destruct (save_run _ _ _ _ _ S) as [(E & _) | (_ & _ & _ & P1 & _)]; [discriminate |].
  simpl in H.
  match type of H with
  | ?m w1 = _ => assert (K : keeps_stores m)
  end.
  { pose proof notify_project_note_keeps. run_keeps. }
  destruct (K _ _ _ H) as (_ & P2). congruence.
Qed.

Lemma project_note_not_propagated_witness :
  let run := make_running_note Sample.md (Sample.app true true) "P001" "hi @bob" []
               "Dan Doe" "dan@scilifelab.se" "project" None Sample.w0 in
  length (new_events Sample.w0 (snd run)) = 9 /\
  project_notes (snd run) = project_notes Sample.w0.
Proof.
  intros run. split; [reflexivity |].
  exact (project_note_not_propagated Sample.md (Sample.app true true) "P001" "hi @bob" []
           "Dan Doe" "dan@scilifelab.se" None Sample.w0).
Defined.

(** ** The order of strings *)

Lemma ltb_trans a b c :
  String.ltb a b = true -> String.ltb b c = true -> String.ltb a c = true.
Proof.
  unfold String.ltb. intros Hab Hbc.
  assert (Lab : OrderedTypeEx.String_as_OT.lt a b).
  { apply OrderedTypeEx.String_as_OT.cmp_lt. unfold OrderedTypeEx.String_as_OT.cmp.
    destruct (String.compare a b); congruence. }
  assert (Lbc : OrderedTypeEx.String_as_OT.lt b c).
  { apply OrderedTypeEx.String_as_OT.cmp_lt. unfold OrderedTypeEx.String_as_OT.cmp.
    destruct (String.compare b c); congruence. }
  pose proof (OrderedTypeEx.String_as_OT.lt_trans _ _ _ Lab Lbc) as Lac.
  apply OrderedTypeEx.String_as_OT.cmp_lt in Lac.
  unfold OrderedTypeEx.String_as_OT.cmp in Lac. now rewrite Lac.
Qed.

Lemma ltb_connex a b :
  String.ltb a b = false -> a <> b -> String.ltb b a = true.
Proof.
  unfold String.ltb. intros H Ne. rewrite String.compare_antisym.
  destruct (String.compare a b) eqn:C; simpl; try congruence.
  apply String.compare_eq_iff in C. contradiction.
Qed.

(** ** The listing, continued *)

Section Descending.

Variable V : Type.

Let desc (x y : string * V) : Prop := String.ltb (fst y) (fst x) = true.

Lemma insert_desc_In (x y : string * V) l :
  In y (insert_desc x l) -> y = x \/ In y l.
Proof.
  intros I. apply (Permutation_in _ (insert_desc_Permutation V x l)) in I.
  destruct I; auto.
Qed.

Lemma insert_desc_sorted (x : string * V) l :
  StronglySorted desc l -> ~ In (fst x) (PyDict.keys l) ->
  StronglySorted desc (insert_desc x l).
Proof.
  induction l as [| y rest IH]; intros S NI; simpl.
  - repeat constructor.
  - inversion S as [| ? ? S' F]; subst.
    destruct (String.ltb (fst y) (fst x)) eqn:L.
    + constructor; [exact S |]. constructor; [exact L |].
      eapply Forall_impl; [| exact F]. intros z Dz. unfold desc in *.
      eapply ltb_trans; eauto.
    + constructor.
      * apply IH; [exact S' |]. intros I. apply NI. right. exact I.
      * apply Forall_forall. intros z I. apply insert_desc_In in I.
        destruct I as [-> | I]; [| rewrite Forall_forall in F; auto].
        unfold desc. apply ltb_connex; [exact L |].
        intros E. apply NI. left. exact E.
Qed.

Lemma sorted_desc_sorted (l : list (string * V)) :
  NoDup (PyDict.keys l) -> StronglySorted desc (sorted_desc l).
Proof.
  induction l as [| x rest IH] using rev_ind; intros N; [constructor |].
  unfold sorted_desc. rewrite fold_left_app. simpl. fold (sorted_desc rest).
  unfold PyDict.keys in N. rewrite map_app in N. simpl in N.
  apply NoDup_remove in N. rewrite app_nil_r in N. destruct N as (N & NI).
  apply insert_desc_sorted; [apply IH; exact N |].
  intros I. apply NI.
  eapply Permutation_in; [| exact I].
  apply Permutation_map. apply sorted_desc_Permutation.
Qed.

End Descending.

(** [get] lists the notes newest first: the timestamps that key the
    mapping decrease strictly from one entry to every later one. *)
Theorem get_newest_first rows :
  StronglySorted (fun x y => String.ltb (fst y) (fst x) = true) (get rows).
Proof.
  rewrite get_is_sorted_json.
  apply sorted_desc_sorted. apply running_notes_json_NoDup.
Qed.

Lemma running_notes_json_keys k rows :
  In k (PyDict.keys (running_notes_json rows)) <-> In k (map Doc.created_at_utc rows).
Proof.
  split.
  - intros I.
    destruct (in_dec string_dec k (map Doc.created_at_utc rows)) as [Y | NI]; [exact Y |].
    exfalso. apply last_with_none in NI.
    assert (G : PyDict.get k (running_notes_json rows) = None)
      by (rewrite running_notes_json_get, NI; reflexivity).
    apply get_none in G. contradiction.
  - intros I.
    destruct (in_dec string_dec k (PyDict.keys (running_notes_json rows)))
      as [Y | NI]; [exact Y |].
    exfalso. apply get_none in NI. rewrite running_notes_json_get in NI.
    destruct (last_with k rows) eqn:L; [discriminate |].
    apply last_with_none in L. contradiction.
Qed.

Lemma running_notes_json_length rows :
  NoDup (map Doc.created_at_utc rows) ->
  length (running_notes_json rows) = length rows.
Proof.
  induction rows as [| n rest IH] using rev_ind; intros N; [reflexivity |].
  rewrite map_app in N. simpl in N.
  apply NoDup_remove in N. rewrite app_nil_r in N. destruct N as (N & NI).
  rewrite running_notes_json_snoc, set_fresh.
  - rewrite !length_app, (IH N). reflexivity.
  - intros I. apply NI. apply running_notes_json_keys. exact I.
Qed.

Lemma last_with_distinct rows : forall n,
  NoDup (map Doc.created_at_utc rows) -> In n rows ->
  last_with (Doc.created_at_utc n) rows = Some n.
Proof.
  induction rows as [| m rest IH] using rev_ind; intros n N I; [destruct I |].
  rewrite map_app in N. simpl in N.
  apply NoDup_remove in N. rewrite app_nil_r in N. destruct N as (N & NI).
  rewrite last_with_snoc. apply in_app_or in I.
  destruct I as [I | [-> | []]].
  - destruct (String.eqb_spec (Doc.created_at_utc n) (Doc.created_at_utc m)) as [E | _].
    + exfalso. apply NI. rewrite <- E. apply in_map. exact I.
    + apply IH; assumption.
  - now rewrite String.eqb_refl.
Qed.

(** When the notes of the scan have distinct timestamps, [get] loses
    none: the mapping has as many entries as the scan has rows, and
    every row is found under its timestamp. *)
Theorem get_keeps_distinct_notes rows :
  NoDup (map Doc.created_at_utc rows) ->
  length (get rows) = length rows /\
  (forall n, In n rows ->
     PyDict.get (Doc.created_at_utc n) (get rows) = Some (note_contents n)).
Proof.
  intros N. rewrite get_is_sorted_json. split.
  - rewrite (Permutation_length (sorted_desc_Permutation _ (running_notes_json rows))).
    apply running_notes_json_length. exact N.
  - intros n I.
    rewrite (get_Permutation _ (Doc.created_at_utc n) (running_notes_json rows)).
    + rewrite running_notes_json_get, (last_with_distinct rows n N I). reflexivity.
    + apply running_notes_json_NoDup.
    + apply Permutation_sym. apply sorted_desc_Permutation.
Qed.

Lemma get_keeps_distinct_notes_witness :
  let rows := [Sample.twin "P001:1" "first"; Sample.later] in
  NoDup (map Doc.created_at_utc rows) /\
  length (get rows) = 2 /\
  (forall n, In n rows ->
     PyDict.get (Doc.created_at_utc n) (get rows) = Some (note_contents n)).
Proof.
  intros rows.
  assert (N : NoDup (map Doc.created_at_utc rows)).
  { constructor; [intros [E | []]; discriminate E |].
    constructor; [intros [] | constructor]. }
  split; [exact N |].
  exact (get_keeps_distinct_notes rows N).
Defined.

(** ** Identifiers in a text: [find_id] *)

Section FindId.

Variable isdecimal : N -> bool.

Lemma take_digits_spec n : forall s d r,
  Flowcells.take_digits isdecimal n s = Some (d, r) ->
  s = (d ++ r)%list /\ length d = n /\ forallb isdecimal d = true.
Proof.
  induction n as [| n IH]; intros s d r H; simpl in H.
  - inversion H; subst. auto.
  - destruct s as [| a s]; [discriminate |].
    destruct (isdecimal a) eqn:Da; [| discriminate].
    destruct (Flowcells.take_digits isdecimal n s) as [[d' r'] |] eqn:T; [| discriminate].
    inversion H; subst. destruct (IH _ _ _ T) as (-> & L & A).
    simpl. rewrite Da, L, A. auto.
Qed.

Lemma take_digits_complete d : forall rest,
  forallb isdecimal d = true ->
  Flowcells.take_digits isdecimal (length d) (d ++ rest) = Some (d, rest).
Proof.
  induction d as [| a d IH]; intros rest A; simpl; [reflexivity |].
  simpl in A. apply andb_true_iff in A. destruct A as (Da & A).
  rewrite Da, (IH rest A). reflexivity.
Qed.



Lemma take_digits_step n a s :
  Flowcells.take_digits isdecimal (S n) (a :: s)
  = if isdecimal a then
      match Flowcells.take_digits isdecimal n s with
      | Some (d, r) => Some (a :: d, r)
      | None => None
      end
    else None.
Proof. reflexivity. Qed.

Lemma take_digits_less n : forall s d r,
  Flowcells.take_digits isdecimal (S n) s = Some (d, r) ->
  exists d' a, Flowcells.take_digits isdecimal n s = Some (d', a :: r) /\
               isdecimal a = true.
Proof.
  induction n as [| n IH]; intros s d r H.
  - simpl in H. destruct s as [| a s]; [discriminate |].
    destruct (isdecimal a) eqn:Da; [| discriminate].
    inversion H; subst. exists [], a. auto.
  - destruct s as [| a s]; [discriminate |].
    rewrite take_digits_step in H.
    destruct (isdecimal a) eqn:Da; [| discriminate].
    destruct (Flowcells.take_digits isdecimal (S n) s) as [[d1 r1] |] eqn:T;
      [| discriminate].
    inversion H; subst. destruct (IH _ _ _ T) as (d' & b & T' & Db).
    exists (a :: d'), b. rewrite take_digits_step, Da, T'. auto.
Qed.

Lemma find_id_known text :
  Flowcells.find_id isdecimal text "project"
  = Ok (Flowcells.match_here isdecimal
          [Flowcells.Lit (Flowcells.code "P"); Flowcells.Digits 5 1] text) /\
  Flowcells.find_id isdecimal text "sample"
  = Ok (Flowcells.match_here isdecimal
          [Flowcells.Lit (Flowcells.code "P"); Flowcells.Digits 5 1;
           Flowcells.Lit (Flowcells.code "_"); Flowcells.Digits 3 0] text).
Proof. split; reflexivity. Qed.

Lemma match_digits lo extra p s :
  Flowcells.match_here isdecimal (Flowcells.Digits lo extra :: p) s
  = Flowcells.repeat_digits isdecimal (Flowcells.match_here isdecimal p) lo extra s.
Proof. reflexivity. Qed.

Lemma match_lit c p s m :
  Flowcells.match_here isdecimal (Flowcells.Lit c :: p) s = Some m ->
  exists s' m', s = c :: s' /\ Flowcells.match_here isdecimal p s' = Some m' /\
                m = c :: m'.
Proof.
  cbn [Flowcells.match_here]. destruct s as [| a s]; [discriminate |].
  destruct (N.eqb_spec a c) as [-> | _]; [| discriminate].
  destruct (Flowcells.match_here isdecimal p s) as [m' |] eqn:E; [| discriminate].
  intros H. inversion H; subst. exists s, m'. auto.
Qed.

Lemma match_lit_head c p s :
  Flowcells.match_here isdecimal (Flowcells.Lit c :: p) (c :: s)
  = match Flowcells.match_here isdecimal p s with
    | Some m => Some (c :: m)
    | None => None
    end.
Proof. cbn [Flowcells.match_here]. rewrite N.eqb_refl. reflexivity. Qed.

(** A repetition of five or six digits matched: with six when six digits
    are there and the rest of the pattern follows them, with five
    otherwise. *)
Lemma five_or_six (k : list N -> option (list N)) s m :
  Flowcells.repeat_digits isdecimal k 5 1 s = Some m ->
  exists d r m',
    m = (d ++ m')%list /\ k r = Some m' /\ forallb isdecimal d = true /\
    ((length d = 6 /\ Flowcells.take_digits isdecimal 6 s = Some (d, r)) \/
     (length d = 5 /\ Flowcells.take_digits isdecimal 5 s = Some (d, r) /\
      forall d6 r6, Flowcells.take_digits isdecimal 6 s = Some (d6, r6) -> k r6 = None)).
Proof.
  cbn [Flowcells.repeat_digits]. change (5 + 1) with 6. change (5 + 0) with 5.
  destruct (Flowcells.take_digits isdecimal 6 s) as [[d6 r6] |] eqn:T6.
  - destruct (k r6) as [m6 |] eqn:K6.
    + intros H. inversion H; subst.
      destruct (take_digits_spec _ _ _ _ T6) as (_ & L & A).
      exists d6, r6, m6. auto 7.
    + destruct (Flowcells.take_digits isdecimal 5 s) as [[d5 r5] |] eqn:T5;
        [| discriminate].
      destruct (k r5) as [m5 |] eqn:K5; [| discriminate].
      intros H. inversion H; subst.
      destruct (take_digits_spec _ _ _ _ T5) as (_ & L & A).
      exists d5, r5, m5. repeat split; auto. right. repeat split; auto.
      intros d r E. inversion E; subst. exact K6.
  - destruct (Flowcells.take_digits isdecimal 5 s) as [[d5 r5] |] eqn:T5;
      [| discriminate].
    destruct (k r5) as [m5 |] eqn:K5; [| discriminate].
    intros H. inversion H; subst.
    destruct (take_digits_spec _ _ _ _ T5) as (_ & L & A).
    exists d5, r5, m5. repeat split; auto. right. repeat split; auto.
    intros d r E. discriminate E.
Qed.

End FindId.

Lemma ok_inj A (a b : A) : Ok a = Ok b -> a = b.
Proof. congruence. Qed.


(** A project identifier found by [find_id] is the letter P followed by
    five or six characters of the class [\d], the decimal digits of the
    character database, and every text that begins with P and five of
    them has one. *)
Theorem find_id_project isdecimal text :
  (forall m, Flowcells.find_id isdecimal text "project" = Ok (Some m) ->
     exists d, m = Flowcells.code "P" :: d /\ forallb isdecimal d = true /\
               (length d = 5 \/ length d = 6)) /\
  (forall d rest,
     text = (Flowcells.code "P" :: d ++ rest)%list -> length d = 5 ->
     forallb isdecimal d = true ->
     exists m, Flowcells.find_id isdecimal text "project" = Ok (Some m)).
Proof.
  destruct (find_id_known isdecimal text) as (-> & _). split.
  - intros m H. apply ok_inj in H.
    destruct (match_lit _ _ _ _ _ H) as (s & m1 & -> & R & ->).
    rewrite match_digits in R.
    destruct (five_or_six _ _ _ _ R) as (d & r & m' & -> & K & A & Len).
    inversion K; subst m'. exists d. rewrite app_nil_r.
    split; [reflexivity |]. split; [exact A |]. destruct Len as [(L & _) | (L & _)]; auto.
  - intros d rest -> L A.
    pose proof (take_digits_complete isdecimal d rest A) as T5. rewrite L in T5.
    rewrite match_lit_head, match_digits.
    cbn [Flowcells.repeat_digits Flowcells.match_here].
    change (5 + 1) with 6. change (5 + 0) with 5.
    destruct (Flowcells.take_digits isdecimal 6 (d ++ rest)) as [[d6 r6] |]; [eauto |].
    rewrite T5. eauto.
Qed.

Lemma find_id_project_witness :
  let fullwidth := [65297; 65298; 65299; 65300; 65301]%N in
  let text := (Flowcells.code "P" :: fullwidth ++ Flowcells.codes "_101")%list in
  length fullwidth = 5 /\
  forallb Flowcells.isdecimal_14 fullwidth = true /\
  Flowcells.find_id Flowcells.isdecimal_14 text "project"
  = Ok (Some (Flowcells.code "P" :: fullwidth)) /\
  Flowcells.find_id Flowcells.isdecimal_14 (Flowcells.codes "P12345_101") "project"
  = Ok (Some (Flowcells.codes "P12345")) /\
  exists m, Flowcells.find_id Flowcells.isdecimal_14 text "project" = Ok (Some m).
Proof.
  intros fullwidth text.
  split; [reflexivity |]. split; [vm_compute; reflexivity |].
  split; [vm_compute; reflexivity |]. split; [vm_compute; reflexivity |].
  destruct (find_id_project Flowcells.isdecimal_14 text) as (_ & Found).
  apply (Found fullwidth (Flowcells.codes "_101")); [reflexivity | reflexivity |].
  vm_compute. reflexivity.
Defined.

(** A text in which [find_id] finds a sample identifier begins with a
    project identifier, which [find_id] finds too: the sample identifier
    is the project identifier, an underscore and three characters of the
    class [\d].  The underscore is no decimal digit. *)
Theorem find_id_sample_project isdecimal text x :
  isdecimal (Flowcells.code "_") = false ->
  Flowcells.find_id isdecimal text "sample" = Ok (Some x) ->
  exists p ddd,
    Flowcells.find_id isdecimal text "project" = Ok (Some p) /\
    x = (p ++ Flowcells.code "_" :: ddd)%list /\
    length ddd = 3 /\ forallb isdecimal ddd = true.
Proof.
  intros Underscore.
  destruct (find_id_known isdecimal text) as (-> & ->). intros H. apply ok_inj in H.
  destruct (match_lit _ _ _ _ _ H) as (s & m1 & -> & R & ->).
  rewrite match_digits in R.
  destruct (five_or_six _ _ _ _ R) as (d & r & m' & -> & K & A & Len).
  destruct (match_lit _ _ _ _ _ K) as (r' & ddd & -> & K3 & ->).
  rewrite match_digits in K3. cbn [Flowcells.repeat_digits] in K3.
  change (3 + 0) with 3 in K3.
  destruct (Flowcells.take_digits isdecimal 3 r') as [[d3 r3] |] eqn:T3; [| discriminate].
  cbn [Flowcells.match_here] in K3. inversion K3; subst ddd.
  destruct (take_digits_spec _ _ _ _ _ T3) as (_ & L3 & A3).
  exists (Flowcells.code "P" :: d), d3.
  split; [| split; [| split; [exact L3 | exact A3]]].
  - rewrite match_lit_head, match_digits.
    cbn [Flowcells.repeat_digits Flowcells.match_here].
    change (5 + 1) with 6. change (5 + 0) with 5.
    destruct Len as [(_ & T6) | (_ & T5 & _)].
    + rewrite T6. now rewrite app_nil_r.
    + destruct (Flowcells.take_digits isdecimal 6 s) as [[d6 r6] |] eqn:T6.
      * destruct (take_digits_less _ _ _ _ _ T6) as (d' & a & T5' & Da).
        rewrite T5 in T5'. inversion T5'; subst. congruence.
      * rewrite T5. now rewrite app_nil_r.
  - rewrite app_nil_r. reflexivity.
Qed.

Lemma find_id_sample_project_witness :
  let fullwidth := [65297; 65296; 65297]%N in
  let text := (Flowcells.codes "P12345_" ++ fullwidth ++ Flowcells.codes "_AB")%list in
  Flowcells.isdecimal_14 (Flowcells.code "_") = false /\
  Flowcells.find_id Flowcells.isdecimal_14 text "sample"
  = Ok (Some (Flowcells.codes "P12345_" ++ fullwidth)%list) /\
  exists p ddd,
    Flowcells.find_id Flowcells.isdecimal_14 text "project" = Ok (Some p) /\
    (Flowcells.codes "P12345_" ++ fullwidth)%list = (p ++ Flowcells.code "_" :: ddd)%list /\
    length ddd = 3 /\ forallb Flowcells.isdecimal_14 ddd = true.
Proof.
  intros fullwidth text.
  split; [vm_compute; reflexivity |]. split; [vm_compute; reflexivity |].
  apply (find_id_sample_project Flowcells.isdecimal_14 text
           (Flowcells.codes "P12345_" ++ fullwidth)%list);
    vm_compute; reflexivity.
Defined.

(** ** The information on one flowcell *)

(** [get_flowcell_info] answers the value of the first row of the
    x_flowcells view when it is not null, and the value of the first row
    of the flowcells view when the x_flowcells view has no row.  A null
    value in the first row of the x_flowcells view hides the row of the
    flowcells view.  The answer is [None] exactly when the value so
    chosen is null or missing, and the short name leads to no row or to
    a null value. *)
Theorem flowcell_info_lookup (V : Type) (vs : Flowcells.Views V) flowcell :
  (forall v rest,
     Flowcells.x_flowcells_summary2_full_id vs flowcell = Some v :: rest ->
     Flowcells.get_flowcell_info vs flowcell = Some v) /\
  (forall v rest,
     Flowcells.x_flowcells_summary2_full_id vs flowcell = [] ->
     Flowcells.flowcells_summary2 vs flowcell = Some v :: rest ->
     Flowcells.get_flowcell_info vs flowcell = Some v) /\
  (forall rest,
     Flowcells.x_flowcells_summary2_full_id vs flowcell = None :: rest ->
     Flowcells.short_name_to_full_name vs flowcell = [] ->
     Flowcells.get_flowcell_info vs flowcell = None) /\
  (Flowcells.get_flowcell_info vs flowcell = None <->
   Flowcells.first_or (Flowcells.x_flowcells_summary2_full_id vs flowcell)
     (Flowcells.first_or (Flowcells.flowcells_summary2 vs flowcell) None) = None /\
   (forall full more v rest,
      Flowcells.short_name_to_full_name vs flowcell = full :: more ->
      Flowcells.x_flowcells_summary2_full_id_key vs full = v :: rest ->
      v = None)).
Proof.
  unfold Flowcells.get_flowcell_info.
  split; [| split; [| split]].
  - intros v rest ->. reflexivity.
  - intros v rest -> ->. reflexivity.
  - intros rest -> ->. reflexivity.
  - destruct (Flowcells.first_or (Flowcells.x_flowcells_summary2_full_id vs flowcell)
                (Flowcells.first_or (Flowcells.flowcells_summary2 vs flowcell) None))
      as [info |].
    + split; [discriminate | intros (E & _); discriminate E].
    + destruct (Flowcells.short_name_to_full_name vs flowcell) as [| full more].
      * split; [intros _ | reflexivity]. split; [reflexivity |].
        intros ? ? ? ? E. discriminate E.
      * destruct (Flowcells.x_flowcells_summary2_full_id_key vs full) as [| v rest] eqn:X.
        -- split; [intros _ | reflexivity]. split; [reflexivity |].
           intros ? ? ? ? E K. inversion E; subst. rewrite X in K. discriminate K.
        -- split.
           ++ intros ->. split; [reflexivity |].
              intros ? ? ? ? E K. inversion E; subst. rewrite X in K.
              inversion K; reflexivity.
           ++ intros (_ & H). exact (H full more v rest eq_refl X).
Qed.

Lemma flowcell_info_lookup_witness :
  let vs :=
    {| Flowcells.flowcells_summary := [];
       Flowcells.x_flowcells_summary := [];
       Flowcells.flowcells_summary2 := fun _ => [Some "old"];
       Flowcells.x_flowcells_summary2_full_id :=
         fun k => if String.eqb k "FC1" then [Some "new"; Some "newer"]
                  else if String.eqb k "FC2" then [None] else [];
       Flowcells.short_name_to_full_name := fun _ => [];
       Flowcells.x_flowcells_summary2_full_id_key := fun _ => [];
       Flowcells.flowcells_id := [];
       Flowcells.x_flowcells_id := [];
       Flowcells.nanopore_runs_name := [] |} in
  Flowcells.x_flowcells_summary2_full_id vs "FC1" = [Some "new"; Some "newer"] /\
  Flowcells.get_flowcell_info vs "FC1" = Some "new" /\
  Flowcells.x_flowcells_summary2_full_id vs "FC2" = [None] /\
  Flowcells.flowcells_summary2 vs "FC2" = [Some "old"] /\
  Flowcells.get_flowcell_info vs "FC2" = None /\
  Flowcells.get_flowcell_info vs "FC3" = Some "old".
Proof.
  intros vs.
  destruct (flowcell_info_lookup string vs "FC1") as (First & _).
  destruct (flowcell_info_lookup string vs "FC2") as (_ & _ & Hidden & _).
  destruct (flowcell_info_lookup string vs "FC3") as (_ & Second & _).
  split; [reflexivity |].
  split; [exact (First "new" [Some "newer"] eq_refl) |].
  split; [reflexivity |]. split; [reflexivity |].
  split; [exact (Hidden [] eq_refl eq_refl) |].
  exact (Second "old" [] eq_refl eq_refl).
Defined.

(** A name for which the two views give no value, or a null one, and
    which is the short name of a flowcell gets the value of the first
    row that the x_flowcells view has under the key of the full name, and
    [None] when there is no such row. *)
Theorem flowcell_info_short_name (V : Type) (vs : Flowcells.Views V) short full more :
  Flowcells.first_or (Flowcells.x_flowcells_summary2_full_id vs short)
    (Flowcells.first_or (Flowcells.flowcells_summary2 vs short) None) = None ->
  Flowcells.short_name_to_full_name vs short = full :: more ->
  Flowcells.get_flowcell_info vs short
  = Flowcells.first_or (Flowcells.x_flowcells_summary2_full_id_key vs full) None.
Proof.
  intros F S. unfold Flowcells.get_flowcell_info. rewrite F, S.
  destruct (Flowcells.x_flowcells_summary2_full_id_key vs full); reflexivity.
Qed.

Lemma flowcell_info_short_name_witness :
  let full := Some "240131_LH00217_0042_A22FLKHLT3" in
  let vs :=
    {| Flowcells.flowcells_summary := [];
       Flowcells.x_flowcells_summary := [];
       Flowcells.flowcells_summary2 := fun _ => [Some "from flowcells"];
       Flowcells.x_flowcells_summary2_full_id :=
         fun k => if String.eqb k "240131_A22FLKHLT3" then [None]
                  else [Some "last row"; Some "first row"];
       Flowcells.short_name_to_full_name :=
         fun k => if String.eqb k "240131_A22FLKHLT3" then [full] else [];
       Flowcells.x_flowcells_summary2_full_id_key :=
         fun k => match k with
                  | Some name =>
                      if String.eqb name "240131_LH00217_0042_A22FLKHLT3"
                      then [Some "first row"; Some "last row"] else []
                  | None => []
                  end;
       Flowcells.flowcells_id := [];
       Flowcells.x_flowcells_id := [Some "240131_LH00217_0042_A22FLKHLT3"; None];
       Flowcells.nanopore_runs_name := [] |} in
  Flowcells.x_flowcells_summary2_full_id vs "240131_A22FLKHLT3" = [None] /\
  Flowcells.short_name_to_full_name vs "240131_A22FLKHLT3" = [full] /\
  Flowcells.get_flowcell_info vs "240131_A22FLKHLT3" = Some "first row" /\
  Flowcells.get_flowcell_info vs "240131_LH00217_0042_A22FLKHLT3" = Some "last row".
Proof.
  intros full vs.
  split; [reflexivity |]. split; [reflexivity |]. split; [| reflexivity].
  exact (flowcell_info_short_name string vs "240131_A22FLKHLT3" full [] eq_refl eq_refl).
Defined.

(** ** The list of all flowcells *)

Section Ascending.

Variable V : Type.

Let asc (x y : string * V) : Prop := String.ltb (fst x) (fst y) = true.

Lemma fill_snoc rows (row : string * V) d :
  Flowcells.fill (rows ++ [row]) d
  = PyDict.set (fst row) (snd row) (Flowcells.fill rows d).
Proof. unfold Flowcells.fill. rewrite fold_left_app. reflexivity. Qed.

Lemma last_value_snoc k rows (row : string * V) :
  last_value k (rows ++ [row])
  = if String.eqb k (fst row) then Some (snd row) else last_value k rows.
Proof. unfold last_value. rewrite fold_left_app. reflexivity. Qed.

Lemma fill_get k rows (d : PyDict.t V) :
  PyDict.get k (Flowcells.fill rows d)
  = match last_value k rows with
    | Some v => Some v
    | None => PyDict.get k d
    end.
Proof.
  induction rows as [| row rest IH] using rev_ind; [reflexivity |].
  rewrite fill_snoc, last_value_snoc.
  destruct (String.eqb_spec k (fst row)) as [-> | Ne].
  - apply get_set_eq.
  - rewrite get_set_neq by exact Ne. exact IH.
Qed.

Lemma fill_NoDup rows (d : PyDict.t V) :
  NoDup (PyDict.keys d) -> NoDup (PyDict.keys (Flowcells.fill rows d)).
Proof.
  intros N. induction rows as [| row rest IH] using rev_ind; [exact N |].
  rewrite fill_snoc. apply keys_set_NoDup. exact IH.
Qed.

Lemma insert_asc_Permutation (x : string * V) l :
  Permutation (Flowcells.insert_asc x l) (x :: l).
Proof.
  induction l as [| y rest IH]; simpl; [reflexivity |].
  destruct (String.ltb (fst x) (fst y)); [reflexivity |].
  rewrite IH. apply perm_swap.
Qed.

Lemma sorted_asc_Permutation (l : list (string * V)) :
  Permutation (Flowcells.sorted_asc l) l.
Proof.
  unfold Flowcells.sorted_asc.
  induction l as [| x rest IH] using rev_ind; [reflexivity |].
  rewrite fold_left_app. simpl. rewrite insert_asc_Permutation, IH.
  apply Permutation_cons_append.
Qed.

Lemma insert_asc_sorted (x : string * V) l :
  StronglySorted asc l -> ~ In (fst x) (PyDict.keys l) ->
  StronglySorted asc (Flowcells.insert_asc x l).
Proof.
  induction l as [| y rest IH]; intros S NI; simpl.
  - repeat constructor.
  - inversion S as [| ? ? S' F]; subst.
    destruct (String.ltb (fst x) (fst y)) eqn:L.
    + constructor; [exact S |]. constructor; [exact L |].
      eapply Forall_impl; [| exact F]. intros z Dz. unfold asc in *.
      eapply ltb_trans; eauto.
    + constructor.
      * apply IH; [exact S' |]. intros I. apply NI. right. exact I.
      * apply Forall_forall. intros z I.
        apply (Permutation_in _ (insert_asc_Permutation x rest)) in I.
        destruct I as [<- | I]; [| rewrite Forall_forall in F; auto].
        unfold asc. apply ltb_connex; [exact L |].
        intros E. apply NI. left. symmetry. exact E.
Qed.

Lemma sorted_asc_sorted (l : list (string * V)) :
  NoDup (PyDict.keys l) -> StronglySorted asc (Flowcells.sorted_asc l).
Proof.
  induction l as [| x rest IH] using rev_ind; intros N; [constructor |].
  unfold Flowcells.sorted_asc. rewrite fold_left_app. simpl.
  fold (Flowcells.sorted_asc rest).
  unfold PyDict.keys in N. rewrite map_app in N. simpl in N.
  apply NoDup_remove in N. rewrite app_nil_r in N. destruct N as (N & NI).
  apply insert_asc_sorted; [apply IH; exact N |].
  intros I. apply NI.
  eapply Permutation_in; [| exact I].
  apply Permutation_map. apply sorted_asc_Permutation.
Qed.

End Ascending.

(** [FlowcellsDataHandler.list_flowcells] answers one entry per flowcell
    name, in increasing order of the names; a name that both databases
    have carries the value of x_flowcells, and within one view the last
    row of a name wins. *)
Theorem list_flowcells_lookup (V : Type) (vs : Flowcells.Views V) :
  StronglySorted (fun x y => String.ltb (fst x) (fst y) = true)
    (Flowcells.list_flowcells vs) /\
  (forall k,
     PyDict.get k (Flowcells.list_flowcells vs)
     = match last_value k (Flowcells.x_flowcells_summary vs) with
       | Some v => Some v
       | None => last_value k (Flowcells.flowcells_summary vs)
       end).
Proof.
  unfold Flowcells.list_flowcells.
  set (d := Flowcells.fill (Flowcells.x_flowcells_summary vs)
              (Flowcells.fill (Flowcells.flowcells_summary vs) [])).
  assert (N : NoDup (PyDict.keys d))
    by (apply fill_NoDup, fill_NoDup; constructor).
  assert (E : Flowcells.fill (Flowcells.sorted_asc d) [] = Flowcells.sorted_asc d).
  { unfold Flowcells.fill. apply refill_distinct.
    eapply Permutation_NoDup; [| exact N].
    apply Permutation_map. apply Permutation_sym. apply sorted_asc_Permutation. }
  rewrite E. split.
  - apply sorted_asc_sorted. exact N.
  - intros k.
    rewrite (get_Permutation _ k d) by
      (try exact N; apply Permutation_sym; apply sorted_asc_Permutation).
    subst d. rewrite !fill_get.
    destruct (last_value k (Flowcells.x_flowcells_summary vs)); [reflexivity |].
    destruct (last_value k (Flowcells.flowcells_summary vs)); reflexivity.
Qed.

Lemma list_flowcells_lookup_witness :
  let vs :=
    {| Flowcells.flowcells_summary := [("FC2", "old 2"); ("FC1", "old 1")];
       Flowcells.x_flowcells_summary := [("FC3", "x 3"); ("FC1", "x 1")];
       Flowcells.flowcells_summary2 := fun _ => [];
       Flowcells.x_flowcells_summary2_full_id := fun _ => [];
       Flowcells.short_name_to_full_name := fun _ => [];
       Flowcells.x_flowcells_summary2_full_id_key := fun _ => [];
       Flowcells.flowcells_id := [];
       Flowcells.x_flowcells_id := [];
       Flowcells.nanopore_runs_name := [] |} in
  Flowcells.list_flowcells vs = [("FC1", "x 1"); ("FC2", "old 2"); ("FC3", "x 3")] /\
  PyDict.get "FC1" (Flowcells.list_flowcells vs) = Some "x 1".
Proof.
  intros vs. split; [reflexivity |].
  destruct (list_flowcells_lookup string vs) as (_ & Lookup).
  rewrite Lookup. reflexivity.
Defined.

(** ** The search of flowcell names *)

Lemma hits_of_names lower make search keys key :
  (forall k, Flowcells.name (make k) = k) ->
  (exists h, In h (Flowcells.hits_of lower make search keys) /\ Flowcells.name h = key)
  <-> In (Some key) keys /\ Flowcells.contains search (lower key) = true.
Proof.
  intros Name. unfold Flowcells.hits_of. split.
  - intros (h & I & <-). apply in_flat_map in I. destruct I as ([k |] & Ik & Ih).
    + destruct (Flowcells.contains search (lower k)) eqn:C; [| destruct Ih].
      destruct Ih as [<- | []]. rewrite Name. auto.
    + destruct Ih.
  - intros (I & C). exists (make key). split; [| apply Name].
    apply in_flat_map. exists (Some key). split; [exact I |].
    rewrite C. left. reflexivity.
Qed.

Lemma length_zero s : Nat.eqb (String.length s) 0 = false <-> s <> "".
Proof.
  destruct s as [| a s]; simpl.
  - split; [discriminate | intros H; exfalso; apply H; reflexivity].
  - split; [intros _; discriminate | reflexivity].
Qed.

(** The search keeps its cache well formed and, on a cache left by the
    handler, always answers a list for a search string that is not
    empty.  A cache fetched less than three minutes before is served as
    it is, without a look at the databases; an empty or older cache is
    replaced by the names that the three views give now.  The empty
    search string is answered at once, by the empty string. *)
Theorem search_uses_cache (V : Type) lower (vs : Flowcells.Views V) now now' cache s :
  Flowcells.search_flowcell_names lower vs now now' cache ""
  = (Ok Flowcells.EmptyText, cache) /\
  (s <> "" -> Flowcells.well_formed cache ->
   exists hits cache',
     Flowcells.search_flowcell_names lower vs now now' cache s
     = (Ok (Flowcells.Hits hits), cache') /\
     Flowcells.well_formed cache' /\
     ((exists t, Flowcells.last_fetched cache = Some t /\
                 (now - Flowcells.three_minutes <= t)%Z) ->
      cache' = cache /\
      forall (V2 : Type) (vs2 : Flowcells.Views V2),
        Flowcells.search_flowcell_names lower vs2 now now' cache s
        = (Ok (Flowcells.Hits hits), cache)) /\
     ((Flowcells.last_fetched cache = None \/
       exists t, Flowcells.last_fetched cache = Some t /\
                 (t < now - Flowcells.three_minutes)%Z) ->
      cache' = {| Flowcells.cached_fc_list := Some (Flowcells.flowcells_id vs);
                  Flowcells.cached_xfc_list := Some (Flowcells.x_flowcells_id vs);
                  Flowcells.cached_ont_fc_list := Some (Flowcells.nanopore_runs_name vs);
                  Flowcells.last_fetched := Some now' |})).
Proof.
  split; [reflexivity |].
  intros Ne WF. apply length_zero in Ne.
  unfold Flowcells.search_flowcell_names. rewrite Ne.
  unfold Flowcells.must_fetch.
  destruct WF as [(F & X & O & T) | (fc & xfc & ont & t & F & X & O & T)].
  - rewrite F. simpl. eexists. eexists. split; [reflexivity |]. split.
    + right. simpl. eauto 8.
    + split; [| reflexivity]. intros (t & E & _). congruence.
  - rewrite F, T.
    destruct (Z.ltb_spec t (now - Flowcells.three_minutes)) as [Old | Fresh].
    + simpl. eexists. eexists. split; [reflexivity |]. split.
      * right. simpl. eauto 8.
      * split; [| reflexivity]. intros (t' & E & Le).
        assert (t' = t) by congruence. subst. lia.
    + rewrite X, O, F. eexists. eexists. split; [reflexivity |]. split.
      * right. eauto 8.
      * split.
        -- intros _. split; [reflexivity |]. intros V2 vs2. reflexivity.
        -- intros [E | (t' & E & Lt)]; [congruence |].
           assert (t' = t) by congruence. subst. lia.
Qed.

Lemma search_uses_cache_witness :
  let vs :=
    {| Flowcells.flowcells_summary := @nil (string * unit);
       Flowcells.x_flowcells_summary := [];
       Flowcells.flowcells_summary2 := fun _ => [];
       Flowcells.x_flowcells_summary2_full_id := fun _ => [];
       Flowcells.short_name_to_full_name := fun _ => [];
       Flowcells.x_flowcells_summary2_full_id_key := fun _ => [];
       Flowcells.flowcells_id := [Some "150101_OLD_FC"];
       Flowcells.x_flowcells_id := [Some "240131_LH00217_0042_A22FLKHLT3"; None];
       Flowcells.nanopore_runs_name := [Some "20240131_ont_run"] |} in
  let cache :=
    {| Flowcells.cached_fc_list := Some [];
       Flowcells.cached_xfc_list := Some [Some "230101_A_B"];
       Flowcells.cached_ont_fc_list := Some [];
       Flowcells.last_fetched := Some 1000000000%Z |} in
  "a" <> "" /\ Flowcells.well_formed cache /\
  (exists t, Flowcells.last_fetched cache = Some t /\
             (1100000000 - Flowcells.three_minutes <= t)%Z) /\
  exists hits cache',
    Flowcells.search_flowcell_names Sample.lower_ascii vs 1100000000%Z 1100000001%Z
      cache "a" = (Ok (Flowcells.Hits hits), cache') /\
    cache' = cache.
Proof.
  intros vs cache.
  assert (WF : Flowcells.well_formed cache) by (right; simpl; eauto 8).
  assert (Fresh : exists t, Flowcells.last_fetched cache = Some t /\
                            (1100000000 - Flowcells.three_minutes <= t)%Z).
  { exists 1000000000%Z. split; [reflexivity |]. unfold Flowcells.three_minutes. lia. }
  split; [discriminate |]. split; [exact WF |]. split; [exact Fresh |].
  destruct (search_uses_cache unit Sample.lower_ascii vs 1100000000%Z 1100000001%Z
              cache "a") as (_ & Run).
  destruct (Run ltac:(discriminate) WF) as (hits & cache' & E & _ & Served & _).
  exists hits, cache'. split; [exact E |]. apply Served. exact Fresh.
Defined.

(** The names that a search returns are exactly the names of the cache,
    as the search leaves it, whose lower-case form contains the
    lower-case search string. *)
Theorem search_hits (V : Type) lower (vs : Flowcells.Views V) now now' cache s
    hits cache' :
  Flowcells.search_flowcell_names lower vs now now' cache s
  = (Ok (Flowcells.Hits hits), cache') ->
  exists fc xfc ont,
    Flowcells.cached_fc_list cache' = Some fc /\
    Flowcells.cached_xfc_list cache' = Some xfc /\
    Flowcells.cached_ont_fc_list cache' = Some ont /\
    forall key,
      (exists h, In h hits /\ Flowcells.name h = key) <->
      (In (Some key) xfc \/ In (Some key) ont \/ In (Some key) fc) /\
      Flowcells.contains (lower s) (lower key) = true.
Proof.
  unfold Flowcells.search_flowcell_names.
  destruct (Nat.eqb (String.length s) 0); [discriminate |].
  destruct (Flowcells.must_fetch cache _) as [fetch | e]; [| discriminate].
  set (c := if fetch then _ else cache).
  destruct (Flowcells.cached_xfc_list c) as [xfc |] eqn:X; [| discriminate].
  destruct (Flowcells.cached_ont_fc_list c) as [ont |] eqn:O; [| discriminate].
  destruct (Flowcells.cached_fc_list c) as [fc |] eqn:F; [| discriminate].
  intros H. inversion H; subst hits cache'. clear H.
  exists fc, xfc, ont. split; [exact F |]. split; [exact X |]. split; [exact O |].
  intros key.
  pose proof (hits_of_names lower Flowcells.flowcell_hit (lower s) xfc key
                (fun k => eq_refl)) as Hx.
  pose proof (hits_of_names lower Flowcells.ont_hit (lower s) ont key
                (fun k => eq_refl)) as Ho.
  pose proof (hits_of_names lower Flowcells.flowcell_hit (lower s) fc key
                (fun k => eq_refl)) as Hf.
  split.
  - intros (h & I & N). apply in_app_or in I. destruct I as [I | I].
    + destruct (proj1 Hx (ex_intro _ h (conj I N))). auto.
    + apply in_app_or in I. destruct I as [I | I].
      * destruct (proj1 Ho (ex_intro _ h (conj I N))). auto.
      * destruct (proj1 Hf (ex_intro _ h (conj I N))). auto.
  - intros ([I | [I | I]] & C).
    + destruct (proj2 Hx (conj I C)) as (h & Ih & N). exists h.
      split; [apply in_or_app; left; exact Ih | exact N].
    + destruct (proj2 Ho (conj I C)) as (h & Ih & N). exists h.
      split; [apply in_or_app; right; apply in_or_app; left; exact Ih | exact N].
    + destruct (proj2 Hf (conj I C)) as (h & Ih & N). exists h.
      split; [apply in_or_app; right; apply in_or_app; right; exact Ih | exact N].
Qed.

Lemma search_hits_witness :
  let vs :=
    {| Flowcells.flowcells_summary := @nil (string * unit);
       Flowcells.x_flowcells_summary := [];
       Flowcells.flowcells_summary2 := fun _ => [];
       Flowcells.x_flowcells_summary2_full_id := fun _ => [];
       Flowcells.short_name_to_full_name := fun _ => [];
       Flowcells.x_flowcells_summary2_full_id_key := fun _ => [];
       Flowcells.flowcells_id := [Some "150101_OLD_FLK"];
       Flowcells.x_flowcells_id := [Some "240131_LH00217_0042_A22FLKHLT3"; None];
       Flowcells.nanopore_runs_name := [Some "20240131_ont_run"] |} in
  let run := Flowcells.search_flowcell_names Sample.lower_ascii vs 0%Z 1%Z
               Flowcells.empty_cache "flk" in
  exists hits cache',
    run = (Ok (Flowcells.Hits hits), cache') /\
    map Flowcells.url hits = ["/flowcells/240131_A22FLKHLT3"; "/flowcells/150101_FLK"] /\
    exists fc xfc ont,
      Flowcells.cached_fc_list cache' = Some fc /\
      Flowcells.cached_xfc_list cache' = Some xfc /\
      Flowcells.cached_ont_fc_list cache' = Some ont /\
      forall key,
        (exists h, In h hits /\ Flowcells.name h = key) <->
        (In (Some key) xfc \/ In (Some key) ont \/ In (Some key) fc) /\
        Flowcells.contains (Sample.lower_ascii "flk") (Sample.lower_ascii key) = true.
Proof.
  intros vs run. eexists. eexists. split; [cbv; reflexivity |].
  split; [reflexivity |].
  eapply (search_hits unit Sample.lower_ascii vs 0%Z 1%Z Flowcells.empty_cache "flk").
  cbv. reflexivity.
Defined.
